(** * RSS-Extractor: a shallow embedding of the feed-discovery code

    The development follows the Python sources:
    - [utils.py]: [fetch_html], [is_rss_feed], [normalize_url],
      [normalize_feed_url], [normalize_feed_list], [detect_cms],
      [get_cms_feed_paths], [save_website_result], [save_batch_results];
    - [feed_finder.py]: [FeedFinder._check_feed], the probing strategies and
      [find_feeds];
    - [hub_parser.py]: [fetch_page], [discover_hub_pages],
      [looks_like_hub_page], [is_feed_url], [extract_title],
      [extract_title_from_url], [parse_feeds], [validate_feeds],
      [display_feeds], [is_hub_page_url];
    - [main.py]: [is_hub_page], [process_website], [process_all],
      [print_summary];
    - [csv_handler.py]: [read_websites].

    Modelling choices.
    - A Python [str] is a [string]; the characters are read as ASCII.
    - A call that may raise returns an [outcome]; code that talks to the
      network runs in the writer monad [io], whose log is the list of GET
      requests issued, in program order.
    - [asyncio.gather] returns its results in argument order, so the
      concurrent fan-out is modelled by running the tasks in list order.  The
      semaphore of [process_all] bounds how many sites run at once and changes
      no result; it is left out.  The semaphore of [validate_feeds] has a
      step relation of its own.  [process_all] appends results in order of
      completion; the model lists them in input order.
    - The table [rss_feeds] is a finite map from [website_url] to the
      nullable [feed_urls]; failures of the database are not modelled.
    - [urllib.parse.urlparse] is modelled after CPython 3.11.4+ / 3.12.  The
      validation of a bracketed host literal ([_check_bracketed_host], which
      rests on [re] and [ipaddress]) is a parameter.
    - BeautifulSoup and [urljoin] are parameters: the model only needs the
      list of [href]s a page carries.  [extract_title] reads an anchor
      through the accessors it calls, gathered in a record.
    - A function that prints returns what it prints: [display_feeds] its
      lines, [print_summary] its numbers.
    - [read_websites] is handed what the file system and [csv.DictReader]
      give: whether the file exists, and the rows or the exception raised
      while reading them. *)

From Stdlib Require Import Ascii String ZArith Lia.
From Stdlib Require Import DecimalString.
From stdpp Require Import gmap strings list sorting relations.

Set Default Proof Using "Type".

(** ** Python string primitives *)

Module PyStr.

Definition is_empty (s : string) : bool :=
  match s with EmptyString => true | String _ _ => false end.

(** [len(s)] *)
Definition len (s : string) : nat := String.length s.

Definition chr_in (c : ascii) (chars : string) : bool :=
  existsb (Ascii.eqb c) (list_ascii_of_string chars).

(** [str.isspace] on one ASCII character. *)
Definition isspace (c : ascii) : bool :=
  let n := N_of_ascii c in
  ((9 <=? n) && (n <=? 13) || (28 <=? n) && (n <=? 32))%N.

Definition isupper (c : ascii) : bool :=
  let n := N_of_ascii c in ((65 <=? n) && (n <=? 90))%N.

Definition isalpha (c : ascii) : bool :=
  let n := N_of_ascii c in
  ((65 <=? n) && (n <=? 90) || (97 <=? n) && (n <=? 122))%N.

Definition lower_chr (c : ascii) : ascii :=
  if isupper c then ascii_of_N (N_of_ascii c + 32) else c.

(** [s.lower()] *)
Fixpoint lower (s : string) : string :=
  match s with
  | EmptyString => EmptyString
  | String c s' => String (lower_chr c) (lower s')
  end.

(** [all(p(c) for c in s)] *)
Fixpoint all_chr (p : ascii -> bool) (s : string) : bool :=
  match s with
  | EmptyString => true
  | String c s' => p c && all_chr p s'
  end.

(** [s.lstrip(chars)], the set of characters given as a predicate. *)
Fixpoint lstrip (p : ascii -> bool) (s : string) : string :=
  match s with
  | EmptyString => EmptyString
  | String c s' => if p c then lstrip p s' else s
  end.

(** [s.rstrip(chars)] *)
Fixpoint rstrip (p : ascii -> bool) (s : string) : string :=
  match s with
  | EmptyString => EmptyString
  | String c s' =>
      let r := rstrip p s' in
      if is_empty r && p c then EmptyString else String c r
  end.

(** [s.strip()]: both ends, whitespace. *)
Definition strip (s : string) : string := rstrip isspace (lstrip isspace s).

(** [s.strip(chars)] *)
Definition strip_chars (p : ascii -> bool) (s : string) : string :=
  rstrip p (lstrip p s).

(** [s.startswith(prefix)] *)
Fixpoint startswith (s prefix : string) {struct prefix} : bool :=
  match prefix, s with
  | EmptyString, _ => true
  | String a p', String b s' => Ascii.eqb a b && startswith s' p'
  | String _ _, EmptyString => false
  end.

(** [s.startswith((p1, p2, ...))] *)
Definition startswith_any (s : string) (prefixes : list string) : bool :=
  existsb (startswith s) prefixes.

(** [s.endswith(suffix)] *)
Fixpoint endswith (s suffix : string) : bool :=
  String.eqb s suffix ||
  match s with
  | EmptyString => false
  | String _ s' => endswith s' suffix
  end.

(** [sub in s] *)
Fixpoint contains (sub s : string) : bool :=
  startswith s sub ||
  match s with
  | EmptyString => false
  | String _ s' => contains sub s'
  end.

(** [c in s] for one character. *)
Fixpoint has_chr (c : ascii) (s : string) : bool :=
  match s with
  | EmptyString => false
  | String d s' => Ascii.eqb c d || has_chr c s'
  end.

(** [s.count(sub)]: occurrences found left to right without overlap.
    [skip] is the number of characters still covered by the last match. *)
Fixpoint count_from (sub s : string) (skip : nat) : nat :=
  match s with
  | EmptyString => 0
  | String _ s' =>
      match skip with
      | S k => count_from sub s' k
      | O => if startswith s sub
             then S (count_from sub s' (len sub - 1))
             else count_from sub s' 0
      end
  end.

Definition count (sub s : string) : nat :=
  if is_empty sub then S (len s) else count_from sub s 0.

(** [s[:n]] *)
Fixpoint take (n : nat) (s : string) : string :=
  match n, s with
  | S k, String c s' => String c (take k s')
  | _, _ => EmptyString
  end.

(** [s[n:]] *)
Fixpoint drop (n : nat) (s : string) : string :=
  match n, s with
  | S k, String _ s' => drop k s'
  | _, _ => s
  end.

(** [s.partition(c)] for one character, [None] when [c] does not occur:
    the text before the first [c] and the text after it.  With
    [i = s.find(c)] these are [s[:i]] and [s[i+1:]]. *)
Fixpoint partition (c : ascii) (s : string) : option (string * string) :=
  match s with
  | EmptyString => None
  | String d s' =>
      if Ascii.eqb c d then Some (EmptyString, s')
      else match partition c s' with
           | Some (a, b) => Some (String d a, b)
           | None => None
           end
  end.

(** [s.rpartition(c)], [None] when [c] does not occur. *)
Fixpoint rpartition (c : ascii) (s : string) : option (string * string) :=
  match s with
  | EmptyString => None
  | String d s' =>
      match rpartition c s' with
      | Some (a, b) => Some (String d a, b)
      | None => if Ascii.eqb c d then Some (EmptyString, s') else None
      end
  end.

(** The text before the first character satisfying [p], and the text from
    that character on. *)
Fixpoint break (p : ascii -> bool) (s : string) : string * string :=
  match s with
  | EmptyString => (EmptyString, EmptyString)
  | String c s' =>
      if p c then (EmptyString, s)
      else let '(a, b) := break p s' in (String c a, b)
  end.

(** [s.split(c)] for a one-character separator. *)
Fixpoint split (c : ascii) (s : string) : list string :=
  match s with
  | EmptyString => [EmptyString]
  | String d s' =>
      match split c s' with
      | piece :: pieces =>
          if Ascii.eqb c d then EmptyString :: piece :: pieces
          else String d piece :: pieces
      | [] => []
      end
  end.

(** [sep.join(l)] *)
Fixpoint join (sep : string) (l : list string) : string :=
  match l with
  | [] => EmptyString
  | [x] => x
  | x :: rest => x +:+ sep +:+ join sep rest
  end.

(** [s.replace(c, "")] for each [c] of a set of characters. *)
Fixpoint remove_chrs (p : ascii -> bool) (s : string) : string :=
  match s with
  | EmptyString => EmptyString
  | String c s' => if p c then remove_chrs p s' else String c (remove_chrs p s')
  end.

(** [x in l] for a list of strings. *)
Definition mem (x : string) (l : list string) : bool :=
  existsb (String.eqb x) l.

(** [list(dict.fromkeys(l))]: the first occurrence of every element, in
    order. *)
Fixpoint dict_fromkeys_from (seen l : list string) : list string :=
  match l with
  | [] => []
  | x :: rest =>
      if mem x seen then dict_fromkeys_from seen rest
      else x :: dict_fromkeys_from (x :: seen) rest
  end.

Definition dict_fromkeys (l : list string) : list string :=
  dict_fromkeys_from [] l.

(** [sorted(l)] on strings: the order is total and antisymmetric, so the
    sorted list is unique and any sorting algorithm computes it. *)
Definition sorted (l : list string) : list string := merge_sort String.le l.

(** The last character of a text satisfies [p]. *)
Fixpoint last_chr_is (p : ascii -> bool) (s : string) : bool :=
  match s with
  | EmptyString => false
  | String c EmptyString => p c
  | String _ s' => last_chr_is p s'
  end.

(** The head of a text satisfies [p], or the text is empty. *)
Definition starts_with_chr_or_empty (p : ascii -> bool) (s : string) : Prop :=
  match s with
  | EmptyString => True
  | String c _ => p c = true
  end.

(** A case-insensitive occurrence: some stretch of [s] lower-cases to
    [needle]. *)
Definition occurs_ignoring_case (needle s : string) : Prop :=
  exists a mid b, s = a +:+ mid +:+ b /\ lower mid = needle.

(** The double-quote character. *)
Definition dquote : ascii := "034"%char.

Definition islower (c : ascii) : bool :=
  let n := N_of_ascii c in ((97 <=? n) && (n <=? 122))%N.

Definition upper_chr (c : ascii) : ascii :=
  if islower c then ascii_of_N (N_of_ascii c - 32) else c.

(** [s.replace(a, b)] for two characters. *)
Fixpoint replace_chr (a b : ascii) (s : string) : string :=
  match s with
  | EmptyString => EmptyString
  | String c s' => String (if Ascii.eqb c a then b else c) (replace_chr a b s')
  end.

(** [s.title()]: a letter that follows a letter is lower-cased, any other
    character is upper-cased. *)
Fixpoint title_from (previous_is_cased : bool) (s : string) : string :=
  match s with
  | EmptyString => EmptyString
  | String c s' =>
      String (if previous_is_cased then lower_chr c else upper_chr c)
             (title_from (isalpha c) s')
  end.

Definition title (s : string) : string := title_from false s.

(** [s.endswith((x1, x2, ...))] *)
Definition endswith_any (s : string) (suffixes : list string) : bool :=
  existsb (endswith s) suffixes.

End PyStr.

Import PyStr.

(** ** Exceptions and results *)

(** The exceptions the code meets, all subclasses of [Exception]. *)
Inductive exn : Type :=
| TimeoutError   (* asyncio.TimeoutError *)
| ValueError     (* urllib.parse on a malformed URL *)
| HTTPError      (* raise_for_status *)
| RequestError   (* any other failure of the transport *)
| OtherError.

(** The result of a call: a value, or a raised exception. *)
Inductive outcome (A : Type) : Type :=
| Returned (a : A)
| Raised (e : exn).
Arguments Returned {A} a.
Arguments Raised {A} e.

Definition obind {A B : Type} (m : outcome A) (k : A -> outcome B) : outcome B :=
  match m with
  | Returned a => k a
  | Raised e => Raised e
  end.

Notation "'let?' x ':=' m 'in' k" := (obind m (fun x => k))
  (at level 10, x name, m at level 100, k at level 200).
Notation "'let?' ' pat ':=' m 'in' k" := (obind m (fun x => let 'pat := x in k))
  (at level 10, pat pattern, m at level 100, k at level 200).

(** The values [normalize_feed_url] may be handed. *)
Inductive pyvalue : Type :=
| PyStr (s : string)
| PyNone
| PyInt (n : Z).

(** Truthiness of an optional string: [None] and [""] are falsy. *)
Definition truthy (o : option string) : bool :=
  match o with
  | Some s => negb (is_empty s)
  | None => false
  end.

(** ** urllib.parse *)

Record SplitResult : Type := mkSplit {
  s_scheme : string;
  s_netloc : string;
  s_path : string;
  s_query : string;
  s_fragment : string
}.

Record ParseResult : Type := mkParse {
  scheme : string;
  netloc : string;
  path : string;
  params : string;
  query : string;
  fragment : string
}.

Definition uses_params : list string :=
  [""; "ftp"; "hdl"; "prospero"; "http"; "imap"; "https"; "shttp"; "rtsp";
   "rtspu"; "sip"; "sips"; "mms"; "sftp"; "tel"].

Definition scheme_chars : string :=
  "abcdefghijklmnopqrstuvwxyzABCDEFGHIJKLMNOPQRSTUVWXYZ0123456789+-.".

(** Characters 0 to 32. *)
Definition _WHATWG_C0_CONTROL_OR_SPACE (c : ascii) : bool :=
  (N_of_ascii c <=? 32)%N.

(** Tab, carriage return, line feed. *)
Definition _UNSAFE_URL_BYTES_TO_REMOVE (c : ascii) : bool :=
  chr_in c (String "009" (String "013" (String "010" EmptyString))).

(** [_splitnetloc(url, 2)], given [url[2:]]: the earliest of the positions of
    ["/"], ["?"] and ["#"] is the first character that is one of them. *)
Definition _splitnetloc (url_from_2 : string) : string * string :=
  break (fun c => chr_in c "/?#") url_from_2.

(** [url.split(c, 1)] when [c in url], else [(url, "")]. *)
Definition split_once (c : ascii) (url : string) : string * string :=
  match partition c url with
  | Some (a, b) => (a, b)
  | None => (url, EmptyString)
  end.

Definition _splitparams (url : string) : string * string :=
  if has_chr "/" url then
    match rpartition "/" url with
    | Some (a, b) =>
        (* i = url.find(';', url.rfind('/')) *)
        match partition ";" b with
        | Some (b1, b2) => (a +:+ "/" +:+ b1, b2)
        | None => (url, EmptyString)
        end
    | None => (url, EmptyString)
    end
  else
    match partition ";" url with
    | Some (a, b) => (a, b)
    | None => (take (len url - 1) url, url)   (* i = -1 *)
    end.

(** ** The network and the effects *)

(** What the code reads off a response. *)
Record Response : Type := mkResponse {
  status_code : Z;
  content_type : option string;     (* response.headers.get('Content-Type') *)
  text : string
}.

(** A GET request: the URL and the timeout of the call, in seconds. *)
Record Request : Type := mkRequest {
  req_url : string;
  req_timeout : nat
}.

(** [session.get]: what the network answers, or the exception it raises. *)
Definition Session : Type := Request -> outcome Response.

(** A computation that issues requests: its result and the requests it
    issued, in order. *)
Definition io (A : Type) : Type := (outcome A * list Request)%type.

Definition ret {A : Type} (a : A) : io A := (Returned a, []).

Definition lift {A : Type} (m : outcome A) : io A := (m, []).

Definition iobind {A B : Type} (m : io A) (k : A -> io B) : io B :=
  match m with
  | (Returned a, log) => let '(r, log') := k a in (r, log ++ log')
  | (Raised e, log) => (Raised e, log)
  end.

Notation "'let*' x ':=' m 'in' k" := (iobind m (fun x => k))
  (at level 10, x name, m at level 100, k at level 200).

(** [try: m except Exception as e: handler(e)] *)
Definition try_except {A : Type} (m : io A) (handler : exn -> io A) : io A :=
  match m with
  | (Returned a, log) => (Returned a, log)
  | (Raised e, log) => let '(r, log') := handler e in (r, log ++ log')
  end.

(** [await session.get(url, timeout=t, ...)] *)
Definition get (session : Session) (url : string) (timeout : nat) : io Response :=
  let request := mkRequest url timeout in
  (session request, [request]).

(** [await asyncio.gather( *tasks, return_exceptions=True)] *)
Definition gather {A : Type} (tasks : list (io A)) : io (list (outcome A)) :=
  (Returned (List.map fst tasks), List.concat (List.map snd tasks)).

(** [response.raise_for_status()]: raises unless [200 <= status < 400]. *)
Definition raise_for_status (response : Response) : outcome unit :=
  if ((200 <=? status_code response) && (status_code response <? 400))%Z
  then Returned tt else Raised HTTPError.

(** A feed found on a hub page: the dict with keys category, title, url. *)
Record FeedRecord : Type := mkFeed {
  rec_category : string;
  rec_title : string;
  rec_url : string
}.

(** An anchor of a hub page: its [href], and what [extract_title] and
    [extract_category] read off the document around it. *)
Record Anchor : Type := mkAnchor {
  a_href : string;
  a_title : string;
  a_category : string
}.

(** The result of processing one site: the dict with keys website, rss. *)
Record SiteResult : Type := mkResult {
  website : string;
  rss : string
}.

(** The two collaborators [process_website] is handed. *)
Record FeedFinderObj : Type := mkFeedFinder {
  find_feeds_of : string -> Session -> io (list string)
}.

Record HubParserObj : Type := mkHubParser {
  parse_feeds_of : string -> Session -> io (list FeedRecord);
  validate_feeds_of : list FeedRecord -> Session -> io (list FeedRecord)
}.

(** [validate_feeds] guards every [check_feed] with [asyncio.Semaphore(10)]:
    a task waits for a permit, runs its check while holding it, and gives it
    back.  The state of the limiter: the feeds whose task still waits, those
    whose check is in flight, those done, and the permits left. *)
Record Limiter : Type := mkLimiter {
  waiting : list FeedRecord;
  in_flight : list FeedRecord;
  finished : list FeedRecord;
  permits : nat
}.

Definition validate_start (feeds : list FeedRecord) : Limiter :=
  mkLimiter feeds [] [] 10.

Inductive limiter_step : Limiter -> Limiter -> Prop :=
| step_acquire w1 f w2 r d n :
    limiter_step (mkLimiter (w1 ++ f :: w2) r d (S n))
                 (mkLimiter (w1 ++ w2) (f :: r) d n)
| step_release w r1 f r2 d n :
    limiter_step (mkLimiter w (r1 ++ f :: r2) d n)
                 (mkLimiter w (r1 ++ r2) (f :: d) (S n)).

(** The text [process_website] stores for a list of feeds. *)
Definition rss_text (feeds : list string) : string :=
  match feeds with
  | [] => "Not found"
  | _ => join "; " feeds
  end.

(** A host validation that accepts every bracketed literal, as CPython
    before 3.11.4 does. *)
Definition accept_all_hosts : string -> bool := fun _ => true.

(** A network on which every request times out. *)
Definition offline : Session := fun _ => Raised TimeoutError.

(** [urljoin] on absolute references, which it returns as they are. *)
Definition urljoin_absolute : string -> string -> outcome string :=
  fun _ href => Returned href.

(** The spec's wording of the trailing-slash rule: a single trailing slash
    is removed. *)
Fixpoint strip_single_trailing_slash (s : string) : string :=
  match s with
  | EmptyString => EmptyString
  | String c EmptyString => if Ascii.eqb c "/" then EmptyString else s
  | String c s' => String c (strip_single_trailing_slash s')
  end.

(** [RSSHubParser.extract_title_from_url]: the first part of the URL, read
    from the right, that is not empty, is no feed file name and cleans to
    more than two characters. *)
Module HubTitles.

Fixpoint first_title (parts : list string) (fallback : string) : string :=
  match parts with
  | [] => fallback
  | part :: rest =>
      if negb (is_empty part)
         && negb (endswith_any part [".xml"; ".rss"; ".atom"])
      then
        let clean := title (replace_chr "_" " " (replace_chr "-" " " part)) in
        if (2 <? len clean)%nat then clean else first_title rest fallback
      else first_title rest fallback
  end.

Definition extract_title_from_url (url : string) : string :=
  let parts := split "/" url in
  first_title (rev parts) "RSS Feed".




End HubTitles.

(** What [print_summary] reports: the numbers it prints (the average is the
    quotient of the last by the second). *)
Record Summary : Type := mkSummary {
  total : nat;
  with_feeds : nat;
  without_feeds : nat;
  total_feeds : option nat          (* printed only when [with_feeds > 0] *)
}.

(** A row as [csv.DictReader] yields it: the cell of every column of the
    header, [None] where the line is shorter than the header. *)
Definition CsvRow : Type := gmap string (option string).

Section Program.

(** [urllib.parse._check_bracketed_host]: [true] when the interpreter
    accepts the text between the brackets of a host literal (an IPv6 or
    IPvFuture address), [false] when it raises [ValueError]. *)
Variable _check_bracketed_host : string -> bool.

(** [urllib.parse.urljoin(base, href)] *)
Variable urljoin : string -> string -> outcome string.

(** BeautifulSoup with [html.parser], as [find_feeds] reads a page: the
    [href] of every [<link>] of type [application/rss+xml] or
    [application/atom+xml], and the [href] of every [<a href=...>]. *)
Variable html_parser_link_hrefs : string -> list (option string).
Variable html_parser_anchor_hrefs : string -> list string.

(** BeautifulSoup with [lxml], as [parse_feeds] reads a hub page: [href]
    and [title] of the feed [<link>] tags, and the anchors. *)
Variable lxml_link_tags : string -> list (option string * option string).
Variable lxml_anchors : string -> list Anchor.

(** [RSSHubParser.extract_title_from_url], which only shapes the title of
    a record. *)
Variable extract_title_from_url : string -> string.

Definition _check_bracketed_netloc (netloc : string) : outcome unit :=
  let hostname_and_port :=
    match rpartition "@" netloc with
    | Some (_, after) => after
    | None => netloc
    end in
  let? hostname :=
    match partition "[" hostname_and_port with
    | Some (before_bracket, bracketed) =>
        if negb (is_empty before_bracket) then Raised ValueError
        else
          let '(hostname, port) := split_once "]" bracketed in
          if negb (is_empty port) && negb (startswith port ":")
          then Raised ValueError
          else Returned hostname
    | None => Returned (fst (split_once ":" hostname_and_port))
    end in
  if _check_bracketed_host hostname then Returned tt else Raised ValueError.

Definition urlsplit (url : string) : outcome SplitResult :=
  let url := lstrip _WHATWG_C0_CONTROL_OR_SPACE url in
  let url := remove_chrs _UNSAFE_URL_BYTES_TO_REMOVE url in
  let '(scheme, url) :=
    match partition ":" url with
    | Some (before, after) =>
        (* i > 0 and url[0].isascii() and url[0].isalpha(), and every
           character of url[:i] is a scheme character *)
        if negb (is_empty before)
           && match before with String c _ => isalpha c | EmptyString => false end
           && all_chr (fun c => chr_in c scheme_chars) before
        then (lower before, after)
        else (EmptyString, url)
    | None => (EmptyString, url)
    end in
  let? '(netloc, url) :=
    if startswith url "//" then
      let '(netloc, rest) := _splitnetloc (drop 2 url) in
      if (has_chr "[" netloc && negb (has_chr "]" netloc))
         || (has_chr "]" netloc && negb (has_chr "[" netloc))
      then Raised ValueError
      else
        let? _ := (if has_chr "[" netloc && has_chr "]" netloc
                   then _check_bracketed_netloc netloc
                   else Returned tt) in
        Returned (netloc, rest)
    else Returned (EmptyString, url) in
  let '(url, fragment) := split_once "#" url in
  let '(url, query) := split_once "?" url in
  (* _checknetloc(netloc) returns at once on ASCII text *)
  Returned (mkSplit scheme netloc url query fragment).

Definition urlparse (url : string) : outcome ParseResult :=
  let? splitresult := urlsplit url in
  let scheme := s_scheme splitresult in
  let url := s_path splitresult in
  let '(url, params) :=
    if mem scheme uses_params && has_chr ";" url
    then _splitparams url
    else (url, EmptyString) in
  Returned (mkParse scheme (s_netloc splitresult) url params
              (s_query splitresult) (s_fragment splitresult)).

(** The bracket checks [urlsplit] runs on the network location. *)
Definition check_netloc (netloc : string) : outcome unit :=
  if (has_chr "[" netloc && negb (has_chr "]" netloc))
     || (has_chr "]" netloc && negb (has_chr "[" netloc))
  then Raised ValueError
  else if has_chr "[" netloc && has_chr "]" netloc
       then _check_bracketed_netloc netloc
       else Returned tt.

(** What [urlsplit] does once the scheme is cut off and the text starts
    with two slashes: [after] is the text behind them. *)
Definition split_authority (scheme after : string) : outcome SplitResult :=
  let '(netloc, rest) := _splitnetloc after in
  let? _ := check_netloc netloc in
  let '(url, fragment) := split_once "#" rest in
  let '(url, query) := split_once "?" url in
  Returned (mkSplit scheme netloc url query fragment).

(** The path [urlparse] keeps of the path [urlsplit] found, for a scheme
    that uses parameters. *)
Definition parsed_path (url : string) : string :=
  if has_chr ";" url then fst (_splitparams url) else url.

(** The text [normalize_url] and [normalize_feed_url] hand to
    [urlparse]. *)
Definition with_scheme (url : string) : string :=
  if negb (startswith_any url ["http://"; "https://"])
  then "https://" +:+ url else url.

(** The query as [normalize_feed_url] appends it. *)
Definition query_suffix (query : string) : string :=
  if negb (is_empty query) then "?" +:+ query else EmptyString.

(** One of the characters that end the network location. *)
Definition is_delim (c : ascii) : bool := chr_in c "/?#".

(** ** utils.py *)

Definition is_slash (c : ascii) : bool := Ascii.eqb c "/".

Definition normalize_url (url : string) : outcome string :=
  if is_empty url then Returned url
  else
    let url := if negb (startswith_any url ["http://"; "https://"])
               then "https://" +:+ url else url in
    let? parsed := urlparse url in
    let netloc := rstrip is_slash (netloc parsed) in
    let base_url := scheme parsed +:+ "://" +:+ netloc in
    Returned base_url.

Definition normalize_feed_url (feed_url : pyvalue) : outcome (option string) :=
  match feed_url with
  | PyStr feed_url =>
      if is_empty feed_url then Returned None
      else
        let feed_url := strip feed_url in
        if is_empty feed_url then Returned None
        else
          let feed_url := if negb (startswith_any feed_url ["http://"; "https://"])
                          then "https://" +:+ feed_url else feed_url in
          let? parsed := urlparse feed_url in
          let path := if negb (is_empty (path parsed))
                      then rstrip is_slash (path parsed) else EmptyString in
          let normalized := scheme parsed +:+ "://" +:+ netloc parsed +:+ path in
          let normalized := if negb (is_empty (query parsed))
                            then normalized +:+ "?" +:+ query parsed
                            else normalized in
          Returned (Some normalized)
  | PyNone | PyInt _ => Returned None     (* not a str *)
  end.

(** The loop of [normalize_feed_list] (and of [find_feeds]' merge): the
    set [seen] always holds the elements of the list built so far. *)
Fixpoint normalize_unique (urls : list string) (normalized_urls : list string)
  : outcome (list string) :=
  match urls with
  | [] => Returned normalized_urls
  | url :: rest =>
      let? normalized := normalize_feed_url (PyStr url) in
      match normalized with
      | Some n =>
          if truthy normalized && negb (mem n normalized_urls)
          then normalize_unique rest (normalized_urls ++ [n])
          else normalize_unique rest normalized_urls
      | None => normalize_unique rest normalized_urls
      end
  end.

Definition normalize_feed_list (rss_string : string) : outcome (list string) :=
  if is_empty rss_string || String.eqb rss_string "Not found" then Returned []
  else
    let urls := split ";" rss_string in
    let? normalized_urls := normalize_unique urls [] in
    Returned (sorted normalized_urls).

Definition detect_cms (html_text : string) : option string :=
  let text := lower html_text in
  if contains "wp-content" text || contains "wp-" text then Some "wordpress"
  else if contains "drupal" text then Some "drupal"
  else if contains "/ghost/" text then Some "ghost"
  else if contains "medium.com" text then Some "medium"
  else None.

Definition get_cms_feed_paths (cms : string) : list string :=
  if String.eqb cms "wordpress" then ["/feed"; "/comments/feed"; "/blog/feed"]
  else if String.eqb cms "drupal" then ["/rss.xml"; "/feed"]
  else if String.eqb cms "ghost" then ["/rss/"]
  else if String.eqb cms "medium" then ["/feed"]
  else [].

(** The table [rss_feeds]: [website_url] (unique) to the nullable
    [feed_urls]. *)
Definition stored_list (old_feed_string : option string) : list string :=
  match old_feed_string with
  | Some s =>
      if negb (is_empty s)
      then List.map strip (List.filter (fun u => negb (is_empty (strip u))) (split ";" s))
      else []
  | None => []
  end.

(** The number of feeds a row of the table holds; no row, no feed. *)
Definition stored_count (row : option (option string)) : nat :=
  match row with
  | Some old_feed_string => length (stored_list old_feed_string)
  | None => 0
  end.

Definition save_website_result (db : gmap string (option string))
    (website_url rss_string : string) : outcome (gmap string (option string)) :=
  let? website_url := normalize_url website_url in
  let? new_list := normalize_feed_list rss_string in
  let new_count := length new_list in
  let new_feed_string :=
    match new_list with [] => None | _ => Some (join "; " new_list) end in
  match db !! website_url with
  | Some old_feed_string =>
      let old_list := stored_list old_feed_string in
      let old_count := length old_list in
      if (new_count <=? old_count)%nat then Returned db
      else Returned (<[website_url := new_feed_string]> db)
  | None => Returned (<[website_url := new_feed_string]> db)
  end.

(** ** feed_finder.py *)

(** [any(t in text for t in needles)] *)
Definition any_in (needles : list string) (text : string) : bool :=
  existsb (fun t => contains t text) needles.

Definition _check_feed (url : string) (session : Session) : io bool :=
  try_except
    (let* response := get session url 5 in
     if negb (status_code response =? 200)%Z then ret false
     else
       let content_type := lower (default EmptyString (content_type response)) in
       if any_in ["xml"; "rss"; "atom"] content_type then ret true
       else
         let text := lower (take 500 (text response)) in
         ret (any_in ["<rss"; "<feed"; "<?xml"; "<atom"] text))
    (fun e => match e with
              | TimeoutError => ret false
              | _ => ret false
              end).

(** [[url for url, is_feed in zip(urls, results) if is_feed is True]] *)
Fixpoint confirmed (urls : list string) (results : list (outcome bool)) : list string :=
  match urls, results with
  | url :: urls', Returned true :: results' => url :: confirmed urls' results'
  | _ :: urls', _ :: results' => confirmed urls' results'
  | _, _ => []
  end.

Definition check_all (urls : list string) (session : Session) : io (list string) :=
  let tasks := List.map (fun url => _check_feed url session) urls in
  let* results := gather tasks in
  ret (confirmed urls results).

Definition _return_empty : io (list string) := ret [].

Definition _try_cms_paths (base_url cms : string) (session : Session) : io (list string) :=
  let cms_paths := get_cms_feed_paths cms in
  let urls := List.map (fun path => base_url +:+ path) cms_paths in
  check_all urls session.

(** [urljoin] of every element, the first exception ending the loop. *)
Fixpoint join_all (url : string) (hrefs : list string) : outcome (list string) :=
  match hrefs with
  | [] => Returned []
  | href :: rest =>
      let? full := urljoin url href in
      let? fulls := join_all url rest in
      Returned (full :: fulls)
  end.

Definition _extract_from_link_tags (url html_text : string) (session : Session)
  : io (list string) :=
  let link_tags := html_parser_link_hrefs html_text in
  let hrefs := List.filter (fun href => negb (is_empty href))
                 (omap (fun href => href) link_tags) in
  let* urls := lift (join_all url hrefs) in
  match urls with
  | [] => ret []
  | _ => check_all urls session
  end.

Definition _extract_from_anchor_tags (url html_text : string) (session : Session)
  : io (list string) :=
  let hrefs := List.filter
                 (fun href => any_in ["rss"; "feed"; "xml"; "atom"] (lower href))
                 (html_parser_anchor_hrefs html_text) in
  let* fulls := lift (join_all url hrefs) in
  let candidate_urls := List.firstn 30 (dict_fromkeys fulls) in
  match candidate_urls with
  | [] => ret []
  | _ => check_all candidate_urls session
  end.

Definition common_paths : list string :=
  ["/rss"; "/feed"; "/rss.xml"; "/feed.xml"; "/atom.xml"; "/index.xml";
   "/feeds"; "/blog/feed"; "/rss-feed"; "/site/rss"; "/site/feed";
   "/syndication"; "/feed/rss"; "/atom"; "/news/rss"; "/blog/rss"].

Definition _try_common_paths (base_url : string) (session : Session) : io (list string) :=
  let urls := List.map (fun path => base_url +:+ path) common_paths in
  check_all urls session.

Definition nested_paths : list string :=
  ["/feed"; "/feed.xml"; "/rss"; "/rss.xml"; "/atom.xml"].

Definition _try_nested_paths (base_url : string) (parsed : ParseResult)
    (session : Session) : io (list string) :=
  if is_empty (path parsed) || is_empty (strip_chars is_slash (path parsed))
  then ret []
  else
    let urls := List.map
                  (fun sub => base_url +:+ rstrip is_slash (path parsed) +:+ sub)
                  nested_paths in
    check_all urls session.

(** The five strategies of [find_feeds], gathered. *)
Definition find_feeds_strategies (url html_text base_url : string)
    (parsed : ParseResult) (session : Session) : io (list (outcome (list string))) :=
  gather
    [ match detect_cms html_text with
      | Some cms => _try_cms_paths base_url cms session
      | None => _return_empty
      end;
      _extract_from_link_tags url html_text session;
      _extract_from_anchor_tags url html_text session;
      _try_common_paths base_url session;
      _try_nested_paths base_url parsed session ].

(** The lists among the gathered results, in order. *)
Definition returned_lists (results : list (outcome (list string))) : list string :=
  List.concat (omap (fun result => match result with
                                   | Returned l => Some l
                                   | Raised _ => None
                                   end) results).

Definition find_feeds (url : string) (session : Session) : io (list string) :=
  let* fetched :=
    try_except
      (let* response := get session url 10 in
       let* _ := lift (raise_for_status response) in
       ret (Some (text response)))
      (fun _ => ret None) in
  match fetched with
  | None => ret []
  | Some html_text =>
      let* base_url := lift (normalize_url url) in
      let* parsed := lift (urlparse url) in
      let* results := find_feeds_strategies url html_text base_url parsed session in
      lift (normalize_unique (returned_lists results) [])
  end.

Definition FeedFinder : FeedFinderObj := mkFeedFinder find_feeds.

(** ** hub_parser.py *)

Definition fetch_page (url : string) (session : Session) : io (option string) :=
  try_except
    (let* response := get session url 15 in
     let* _ := lift (raise_for_status response) in
     ret (Some (text response)))
    (fun _ => ret None).

Definition hub_indicators : list string :=
  ["rss feed"; "subscribe to"; "feed url"; "syndication"; "available feeds";
   "rss feeds"; "atom feed"; "news feeds"; "feed list"; "rss channels";
   "subscribe via rss"].

Definition href_feed : string := "href=" +:+ String dquote "/feed".
Definition href_rss : string := "href=" +:+ String dquote "/rss".

Definition indicator_count (content_lower : string) : nat :=
  length (List.filter (fun indicator => contains indicator content_lower) hub_indicators).

Definition feed_link_count (content_lower : string) : nat :=
  count ".xml" content_lower + count href_feed content_lower
  + count href_rss content_lower + count "atom.xml" content_lower.

Definition looks_like_hub_page (html_content : string) : bool :=
  let content_lower := lower html_content in
  (2 <=? indicator_count content_lower)%nat
  || (3 <=? feed_link_count content_lower)%nat.

(** [re.search(suffix + "$", s)]: at the end, or before a final newline. *)
Definition search_at_end (suffix s : string) : bool :=
  endswith s suffix || endswith s (suffix +:+ String "010" EmptyString).

Definition is_feed_url (url : string) : bool :=
  if is_empty url then false
  else
    let url_lower := lower url in
    search_at_end ".rss" url_lower || search_at_end ".xml" url_lower
    || search_at_end ".atom" url_lower
    || any_in ["/rss/"; "/feed/"; "/feeds/"; "/atom/"] url_lower
    || search_at_end "/rss" url_lower || search_at_end "/feed" url_lower
    || search_at_end "/atom" url_lower
    || any_in ["rss.xml"; "feed.xml"; "atom.xml"] url_lower.

(** One candidate of [parse_feeds]: added when it normalizes to a URL not
    seen before ([seen_urls] holds the URLs of [feeds]). *)
Definition add_feed (base_url href : string) (category : string)
    (title : string -> string) (feeds : list FeedRecord) : outcome (list FeedRecord) :=
  let? full_url := urljoin base_url href in
  let? normalized_url := normalize_feed_url (PyStr full_url) in
  match normalized_url with
  | Some n =>
      if truthy normalized_url && negb (mem n (List.map rec_url feeds))
      then Returned (feeds ++ [mkFeed category (title n) n])
      else Returned feeds
  | None => Returned feeds
  end.

Fixpoint add_link_tags (base_url : string)
    (link_tags : list (option string * option string)) (feeds : list FeedRecord)
  : outcome (list FeedRecord) :=
  match link_tags with
  | [] => Returned feeds
  | (href, title) :: rest =>
      if truthy href then
        let? feeds := add_feed base_url (default EmptyString href) "General"
                        (fun n => default (extract_title_from_url n) title) feeds in
        add_link_tags base_url rest feeds
      else add_link_tags base_url rest feeds
  end.

Fixpoint add_anchors (base_url : string) (all_links : list Anchor)
    (feeds : list FeedRecord) : outcome (list FeedRecord) :=
  match all_links with
  | [] => Returned feeds
  | link :: rest =>
      if negb (is_feed_url (a_href link)) then add_anchors base_url rest feeds
      else
        let? feeds := add_feed base_url (a_href link) (a_category link)
                        (fun _ => a_title link) feeds in
        add_anchors base_url rest feeds
  end.

Definition parse_feeds (hub_url : string) (session : Session) : io (list FeedRecord) :=
  let* base_url := lift (normalize_url hub_url) in
  let* content := fetch_page hub_url session in
  if negb (truthy content) then ret []
  else
    let content := default EmptyString content in
    let* feeds := lift (add_link_tags base_url (lxml_link_tags content) []) in
    lift (add_anchors base_url (lxml_anchors content) feeds).

(** The inner [check_feed] of [validate_feeds]. *)
Definition check_feed (feed : FeedRecord) (session : Session) : io (option FeedRecord) :=
  try_except
    (let* response := get session (rec_url feed) 5 in
     if negb (status_code response =? 200)%Z then ret None
     else
       let content_type := lower (default EmptyString (content_type response)) in
       if any_in ["xml"; "rss"; "atom"] content_type then ret (Some feed)
       else
         let text := lower (take 500 (text response)) in
         if any_in ["<rss"; "<feed"; "<?xml"; "<atom"] text then ret (Some feed)
         else ret None)
    (fun _ => ret None).

(** [[f for f in results if f is not None and isinstance(f, dict)]] *)
Definition valid_results (results : list (outcome (option FeedRecord))) : list FeedRecord :=
  omap (fun result => match result with
                      | Returned (Some f) => Some f
                      | _ => None
                      end) results.

Definition validate_feeds (feeds : list FeedRecord) (session : Session)
  : io (list FeedRecord) :=
  let tasks := List.map (fun feed => check_feed feed session) feeds in
  let* results := gather tasks in
  ret (valid_results results).

Definition RSSHubParser : HubParserObj := mkHubParser parse_feeds validate_feeds.

(** ** main.py *)

Definition hub_patterns : list string :=
  ["/rss"; "/feeds"; "/feed-list"; "/subscribe"; "/syndication"].

Definition is_hub_page (url : string) (session : Session) : io bool :=
  let url_lower := lower url in
  ret (any_in hub_patterns url_lower).

(** [normalize_feed_url] of every element, keeping the truthy results. *)
Fixpoint normalize_all (urls : list string) : outcome (list string) :=
  match urls with
  | [] => Returned []
  | feed_url :: rest =>
      let? normalized := normalize_feed_url (PyStr feed_url) in
      let? feeds := normalize_all rest in
      match normalized with
      | Some n => Returned (if truthy normalized then n :: feeds else feeds)
      | None => Returned feeds
      end
  end.

Definition process_website (url : string) (feed_finder : FeedFinderObj)
    (hub_parser : HubParserObj) (session : Session) : io SiteResult :=
  let original_url := url in
  let* url := lift (normalize_url url) in
  if is_empty url then ret (mkResult original_url "Not found")
  else
    let* feeds :=
      try_except
        (let* hub := is_hub_page url session in
         if hub then
           let* feed_objects := parse_feeds_of hub_parser url session in
           match feed_objects with
           | [] => ret []
           | _ =>
               let* feed_objects :=
                 if (5 <? length feed_objects)%nat
                 then validate_feeds_of hub_parser feed_objects session
                 else ret feed_objects in
               let* feeds := lift (normalize_all (List.map rec_url feed_objects)) in
               ret (dict_fromkeys feeds)
           end
         else
           let* found_feeds := find_feeds_of feed_finder url session in
           let* feeds := lift (normalize_all found_feeds) in
           ret (dict_fromkeys feeds))
        (fun e => match e with
                  | TimeoutError => ret []
                  | _ => ret []
                  end) in
    let rss_str := match feeds with
                   | [] => "Not found"
                   | _ => join "; " feeds
                   end in
    ret (mkResult url rss_str).


(** One successful call of [save_website_result]. *)
Definition save_step (db db' : gmap string (option string)) : Prop :=
  exists website_url rss_string,
    save_website_result db website_url rss_string = Returned db'.

(** [save_batch_results]: the first exception ends the loop. *)
Fixpoint save_batch_results (db : gmap string (option string))
    (results : list SiteResult) : outcome (gmap string (option string)) :=
  match results with
  | [] => Returned db
  | item :: rest =>
      let? db := save_website_result db (website item) (rss item) in
      save_batch_results db rest
  end.

(** The prefixes of a network location that make a normalized site URL
    match a hub pattern. *)
Definition hub_host_prefixes : list string :=
  ["rss"; "feeds"; "feed-list"; "subscribe"; "syndication"].

(** The site result [process_website] builds from the URLs it hands to
    [normalize_feed_url]: an exception there is caught like any other. *)
Definition result_of_urls (url : string) (urls : list string) : SiteResult :=
  mkResult url
    match normalize_all urls with
    | Returned feeds => rss_text (dict_fromkeys feeds)
    | Raised _ => "Not found"
    end.

(** The inner [check_feed] of [validate_feeds] keeps the feed. *)
Definition feed_validates (session : Session) (feed : FeedRecord) : bool :=
  match fst (check_feed feed session) with
  | Returned (Some _) => true
  | _ => false
  end.

(** The spec's wording of [normalizeFeedURL]: as [normalize_feed_url], with
    a single trailing slash removed from the path. *)
Definition normalizeFeedURL_spec (feed_url : string) : outcome (option string) :=
  let feed_url := strip feed_url in
  if is_empty feed_url then Returned None
  else
    let? parsed := urlparse (with_scheme feed_url) in
    let path := strip_single_trailing_slash (path parsed) in
    Returned (Some (scheme parsed +:+ "://" +:+ netloc parsed +:+ path
                      +:+ query_suffix (query parsed))).

(** ** utils.py: the fetch helpers *)

(** [session] is the session passed in, or the one the function opens
    (and closes) itself; the network answers either alike. *)
Definition fetch_html (url : string) (session : Session) : io (option string) :=
  try_except
    (let* response := get session url 10 in
     let* _ := lift (raise_for_status response) in
     ret (Some (text response)))
    (fun _ => ret None).

(** [is_rss_feed]: [None] when the function runs off its end. *)
Definition is_rss_feed (url : string) (session : Session) : io (option bool) :=
  try_except
    (let* response := get session url 8 in
     if negb (status_code response =? 200)%Z then ret (Some false)
     else
       let content_type := lower (default EmptyString (content_type response)) in
       if any_in ["xml"; "rss"; "atom"] content_type then ret (Some true)
       else ret None)
    (fun _ => ret (Some false)).

(** ** hub_parser.py: discovery of hub pages *)

Definition hub_paths : list string :=
  ["/rss"; "/feeds"; "/feed-list"; "/rss-feeds"; "/subscribe"; "/syndication";
   "/news/rss"; "/blog/rss"; "/feeds.html"; "/rss.html"; "/rss-feeds.html";
   "/feed"; "/atom"; "/rss.xml"; "/feeds.xml"].

(** One round of the loop of [discover_hub_pages]: the request, and
    whether the page is kept; any exception skips the path. *)
Definition probe_hub_page (test_url : string) (session : Session) : io bool :=
  try_except
    (let* response := get session test_url 8 in
     if (status_code response =? 200)%Z
     then ret (looks_like_hub_page (text response))
     else ret false)
    (fun _ => ret false).

Fixpoint discover_from (base : string) (paths : list string) (session : Session)
    (discovered_hubs : list string) : io (list string) :=
  match paths with
  | [] => ret discovered_hubs
  | path :: rest =>
      let test_url := base +:+ path in
      let* found := probe_hub_page test_url session in
      discover_from base rest session
        (if found then discovered_hubs ++ [test_url] else discovered_hubs)
  end.

Definition discover_hub_pages (base_url : string) (session : Session)
  : io (list string) :=
  let* base := lift (normalize_url base_url) in
  discover_from base hub_paths session [].

Definition is_hub_page_url (url : string) : io bool :=
  let url_lower := lower url in
  let hub_patterns := ["/rss"; "/feeds"; "/feed-list"; "/subscribe"; "/syndication"] in
  ret (any_in hub_patterns url_lower).

(** ** hub_parser.py: the display *)

(** [str(n)] *)
Definition str_of_nat (n : nat) : string :=
  NilEmpty.string_of_uint (Nat.to_uint n).

(** The order of the keys [(category, title)] of [display_feeds], as
    Python orders tuples of strings. *)
Definition key_le (f g : FeedRecord) : bool :=
  if String.eqb (rec_category f) (rec_category g)
  then String.leb (rec_title f) (rec_title g)
  else String.leb (rec_category f) (rec_category g).

(** [feeds.sort(key=...)] is stable: records with equal keys keep the
    order they came in.  Inserting the records, from the last to the
    first, each before the first record whose key is not smaller, computes
    that list. *)
Fixpoint insert_by_key (feed : FeedRecord) (sorted_feeds : list FeedRecord)
  : list FeedRecord :=
  match sorted_feeds with
  | [] => [feed]
  | other :: rest =>
      if key_le feed other then feed :: sorted_feeds
      else other :: insert_by_key feed rest
  end.

Definition sort_by_key (feeds : list FeedRecord) : list FeedRecord :=
  foldr insert_by_key [] feeds.

(** The line of a category: an empty line, then the name in brackets. *)
Definition heading (category : string) : string :=
  String "010" ("[" +:+ category +:+ "]").

(** The loop of [display_feeds]: the lines it prints. *)
Fixpoint display_lines (feeds : list FeedRecord) (current_category : option string)
  : list string :=
  match feeds with
  | [] => []
  | feed :: rest =>
      let changed := match current_category with
                     | Some category => negb (String.eqb (rec_category feed) category)
                     | None => true
                     end in
      (if changed then [heading (rec_category feed)] else [])
      ++ rec_title feed :: rec_url feed
         :: display_lines rest (Some (rec_category feed))
  end.

(** [display_feeds]: the list as the call leaves it, and the lines
    printed. *)
Definition display_feeds (feeds : list FeedRecord)
  : list FeedRecord * list string :=
  match feeds with
  | [] => ([], ["No feeds found!"])
  | _ =>
      let feeds := sort_by_key feeds in
      (feeds,
       ("Found " +:+ str_of_nat (length feeds) +:+ " RSS/Atom feeds")
       :: display_lines feeds None)
  end.

(** ** main.py: the summary *)

Definition print_summary (results : list SiteResult) : Summary :=
  let found := List.filter (fun r => negb (String.eqb (rss r) "Not found")) results in
  let total := length results in
  let with_feeds := length found in
  let without_feeds := total - with_feeds in
  mkSummary total with_feeds without_feeds
    (if (0 <? with_feeds)%nat
     then Some (list_sum (List.map (fun r => length (split ";" (rss r))) found))
     else None).

(** ** csv_handler.py *)

(** The loop of [read_websites] over the rows: [row.get('url', '')] is the
    cell, [''] when the header has no column [url]; [strip] on the [None]
    of a short line raises. *)
Fixpoint collect_urls (rows : list CsvRow) (websites : list string)
  : outcome (list string) :=
  match rows with
  | [] => Returned websites
  | row :: rest =>
      match default (Some EmptyString) (row !! "url") with
      | Some cell =>
          let url := strip cell in
          if negb (is_empty url) then collect_urls rest (websites ++ [url])
          else collect_urls rest websites
      | None => Raised OtherError
      end
  end.

(** [CSVHandler.read_websites]: [file_exists] is [os.path.exists], [reader]
    what opening the file and reading its rows gives. *)
Definition read_websites (file_exists : bool) (reader : outcome (list CsvRow))
  : list string :=
  if negb file_exists then []
  else
    match (let? rows := reader in collect_urls rows []) with
    | Returned websites =>
        match websites with
        | [] => []
        | _ => websites
        end
    | Raised _ => []
    end.

(** ** Derived notions used in the statements *)

(** The text of the column [url] in a row, empty without the column. *)
Definition url_cell (row : CsvRow) : string :=
  match row !! "url" with
  | Some (Some cell) => cell
  | _ => EmptyString
  end.

(** [_check_feed] answers [True] for the URL. *)
Definition passes_check (session : Session) (url : string) : bool :=
  match fst (_check_feed url session) with
  | Returned true => true
  | _ => false
  end.

(** A strategy of the finder that stays within [n] requests and whose
    feeds, when it returns, all pass [_check_feed]. *)
Definition checked_within (session : Session) (n : nat)
    (task : io (list string)) : Prop :=
  length (snd task) <= n
  /\ forall feeds,
       fst task = Returned feeds ->
       Forall (fun url => passes_check session url = true) feeds.

(** Where a record of [parse_feeds] comes from: a feed [<link>] of the
    page, or an anchor whose [href] is a feed URL; either way its URL is
    the normalized join of the base URL with the [href]. *)
Definition parsed_from (base_url content : string) (feed : FeedRecord) : Prop :=
  exists href full_url,
    urljoin base_url href = Returned full_url
    /\ normalize_feed_url (PyStr full_url) = Returned (Some (rec_url feed))
    /\ ((exists title,
           (Some href, title) ∈ lxml_link_tags content
           /\ href <> EmptyString
           /\ rec_category feed = "General"
           /\ rec_title feed = default (extract_title_from_url (rec_url feed)) title)
        \/ (exists link,
              link ∈ lxml_anchors content
              /\ a_href link = href
              /\ is_feed_url href = true
              /\ rec_title feed = a_title link
              /\ rec_category feed = a_category link)).

(** The page at the URL answers 200 and looks like a hub page. *)
Definition hub_page_at (session : Session) (test_url : string) : bool :=
  match session (mkRequest test_url 8) with
  | Returned response =>
      (status_code response =? 200)%Z && looks_like_hub_page (text response)
  | Raised _ => false
  end.

(** A feed URL that the stored text gives back: no semicolon, no
    whitespace at its end. *)
Definition storable (n : string) : Prop :=
  has_chr ";" n = false /\ last_chr_is isspace n = false.

(** The work left in a limiter: two steps for a waiting feed, one for a
    check in flight. *)
Definition limiter_work (st : Limiter) : nat :=
  2 * length (waiting st) + length (in_flight st).

(** ** Lemmas on the string primitives *)

(** Forget the parameters a goal does not mention. *)
Ltac drop_vars :=
  try clear extract_title_from_url; try clear lxml_anchors;
  try clear lxml_link_tags; try clear html_parser_anchor_hrefs;
  try clear html_parser_link_hrefs; try clear urljoin;
  try clear _check_bracketed_host.


Lemma sapp_cons c s t : String c s +:+ t = String c (s +:+ t).
Proof. reflexivity. Qed.

Lemma sapp_nil_l s : EmptyString +:+ s = s.
Proof. reflexivity. Qed.

Lemma sapp_nil_r s : s +:+ EmptyString = s.
Proof. induction s as [|c s IH]; [done|]. by rewrite sapp_cons, IH. Qed.

Lemma sapp_assoc s t u : (s +:+ t) +:+ u = s +:+ (t +:+ u).
Proof. induction s as [|c s IH]; [done|]. by rewrite !sapp_cons, IH. Qed.

Lemma is_empty_true s : is_empty s = true <-> s = EmptyString.
Proof. by destruct s. Qed.

Lemma is_empty_false s : is_empty s = false <-> s <> EmptyString.
Proof. by destruct s. Qed.

Lemma eqb_chr_true c d : Ascii.eqb c d = true <-> c = d.
Proof. apply Ascii.eqb_eq. Qed.

Lemma eqb_chr_false c d : Ascii.eqb c d = false <-> c <> d.
Proof. apply Ascii.eqb_neq. Qed.

Lemma all_chr_app p a b : all_chr p (a +:+ b) = all_chr p a && all_chr p b.
Proof.
  induction a as [|c a IH]; [done|]. rewrite sapp_cons. simpl.
  by rewrite IH, andb_assoc.
Qed.

Lemma all_chr_impl (p q : ascii -> bool) s :
  (forall c, p c = true -> q c = true) -> all_chr p s = true -> all_chr q s = true.
Proof.
  intros Hpq. induction s as [|c s IH]; [done|]. simpl.
  rewrite !andb_true_iff. intros [Hc Hs]. auto.
Qed.

Lemma has_chr_app c a b : has_chr c (a +:+ b) = has_chr c a || has_chr c b.
Proof.
  induction a as [|d a IH]; [done|]. rewrite sapp_cons. simpl.
  by rewrite IH, orb_assoc.
Qed.

(** A character absent from a text is absent from what every character of
    the text satisfies. *)
Lemma has_chr_all_chr c s :
  has_chr c s = false <-> all_chr (fun d => negb (Ascii.eqb c d)) s = true.
Proof.
  drop_vars.
  induction s as [|d s IH]; [done|]. simpl.
  rewrite orb_false_iff, andb_true_iff, negb_true_iff. tauto.
Qed.

Lemma all_chr_has_chr p c s :
  all_chr p s = true -> p c = false -> has_chr c s = false.
Proof.
  intros Hall Hc. induction s as [|d s IH]; [done|]. simpl in *.
  apply andb_true_iff in Hall as [Hd Hs]. rewrite (IH Hs), orb_false_r.
  apply eqb_chr_false. intros ->. congruence.
Qed.

Lemma all_chr_lstrip p q s : all_chr q s = true -> all_chr q (lstrip p s) = true.
Proof.
  induction s as [|c s IH]; [done|]. simpl. intros H.
  destruct (p c); [|done]. apply andb_true_iff in H as [_ H]. auto.
Qed.

Lemma all_chr_rstrip p q s : all_chr q s = true -> all_chr q (rstrip p s) = true.
Proof.
  induction s as [|c s IH]; [done|]. simpl. intros H.
  apply andb_true_iff in H as [Hc H].
  destruct (is_empty (rstrip p s) && p c); [done|]. simpl.
  by rewrite Hc, IH.
Qed.

Lemma all_chr_remove_chrs p q s :
  all_chr q s = true -> all_chr q (remove_chrs p s) = true.
Proof.
  induction s as [|c s IH]; [done|]. simpl. intros H.
  apply andb_true_iff in H as [Hc H].
  destruct (p c); simpl; [auto|]. by rewrite Hc, IH.
Qed.

Lemma remove_chrs_clean p s : all_chr (fun c => negb (p c)) (remove_chrs p s) = true.
Proof.
  induction s as [|c s IH]; [done|]. simpl.
  destruct (p c) eqn:Hc; simpl; [done|]. by rewrite Hc, IH.
Qed.

Lemma remove_chrs_id p s :
  all_chr (fun c => negb (p c)) s = true -> remove_chrs p s = s.
Proof.
  induction s as [|c s IH]; [done|]. simpl. intros H.
  apply andb_true_iff in H as [Hc H]. apply negb_true_iff in Hc.
  by rewrite Hc, IH.
Qed.

Lemma lstrip_id p c s : p c = false -> lstrip p (String c s) = String c s.
Proof. intros H. simpl. by rewrite H. Qed.

Lemma rstrip_cons_keep p c s :
  p c = false -> rstrip p (String c s) = String c (rstrip p s).
Proof. intros H. simpl. by rewrite H, andb_false_r. Qed.

Lemma rstrip_id p s :
  all_chr (fun c => negb (p c)) s = true -> rstrip p s = s.
Proof.
  induction s as [|c s IH]; [done|]. simpl. intros H.
  apply andb_true_iff in H as [Hc H]. apply negb_true_iff in Hc.
  by rewrite Hc, andb_false_r, IH.
Qed.

Lemma rstrip_idem p s : rstrip p (rstrip p s) = rstrip p s.
Proof.
  induction s as [|c s IH]; [done|]. simpl.
  destruct (is_empty (rstrip p s) && p c) eqn:E; [done|].
  simpl. by rewrite IH, E.
Qed.

(** What [rstrip] removes is a run of stripped characters at the end. *)
Lemma rstrip_split p s :
  exists t, s = rstrip p s +:+ t /\ all_chr p t = true.
Proof.
  induction s as [|c s (t & Hs & Ht)]; [by exists EmptyString|]. simpl.
  destruct (is_empty (rstrip p s) && p c) eqn:E.
  - apply andb_true_iff in E as [E Hc]. apply is_empty_true in E.
    rewrite E in Hs. simpl in Hs. exists (String c s). split; [done|].
    simpl. rewrite Hc. by rewrite Hs.
  - exists t. rewrite sapp_cons. by rewrite <- Hs.
Qed.

Lemma rstrip_last p s : last_chr_is p (rstrip p s) = false.
Proof.
  induction s as [|c s IH]; [done|]. simpl.
  destruct (is_empty (rstrip p s) && p c) eqn:E; [done|].
  simpl. destruct (rstrip p s) eqn:R; [|done].
  simpl in E. done.
Qed.

Lemma rstrip_fix p s : last_chr_is p s = false -> rstrip p s = s.
Proof.
  induction s as [|c s IH]; [done|]. simpl. destruct s as [|d s].
  - simpl. by intros ->.
  - intros H. rewrite (IH H). done.
Qed.

Lemma partition_Some c s a b :
  partition c s = Some (a, b) -> s = a +:+ String c b /\ has_chr c a = false.
Proof.
  revert a. induction s as [|d s IH]; [done|]. simpl. intros a.
  destruct (Ascii.eqb c d) eqn:E.
  - intros [= <- <-]. apply eqb_chr_true in E as ->. done.
  - destruct (partition c s) as [[a' b']|]; [|done].
    intros [= <- <-]. destruct (IH a' eq_refl) as [-> Ha].
    split; [done|]. simpl. by rewrite E, Ha.
Qed.

Lemma partition_None c s : partition c s = None <-> has_chr c s = false.
Proof.
  drop_vars.
  induction s as [|d s IH]; [done|]. simpl.
  destruct (Ascii.eqb c d); simpl; [done|].
  destruct (partition c s) as [[a b]|]; [|tauto].
  split; [done|]. intros H. apply IH in H. done.
Qed.

Lemma partition_app c a b :
  has_chr c a = false -> partition c (a +:+ String c b) = Some (a, b).
Proof.
  induction a as [|d a IH]; simpl.
  - intros _. by rewrite Ascii.eqb_refl.
  - rewrite orb_false_iff. intros [E H]. rewrite ?sapp_cons. simpl.
    by rewrite E, (IH H).
Qed.

Lemma split_once_found c a b :
  has_chr c a = false -> split_once c (a +:+ String c b) = (a, b).
Proof. intros H. unfold split_once. by rewrite partition_app. Qed.

Lemma split_once_absent c s :
  has_chr c s = false -> split_once c s = (s, EmptyString).
Proof.
  intros H. unfold split_once. apply partition_None in H. by rewrite H.
Qed.

(** [split_once] cuts a text in two: the part before has no [c]. *)
Lemma split_once_spec c s a b :
  split_once c s = (a, b) ->
  has_chr c a = false /\
  (s = a +:+ String c b \/ (s = a /\ b = EmptyString /\ has_chr c s = false)).
Proof.
  unfold split_once. destruct (partition c s) as [[a' b']|] eqn:E.
  - intros [= <- <-]. apply partition_Some in E as [-> Ha]. auto.
  - intros [= <- <-]. apply partition_None in E. auto.
Qed.

Lemma all_chr_split_once q c s a b :
  split_once c s = (a, b) -> all_chr q s = true ->
  all_chr q a = true /\ all_chr q b = true.
Proof.
  drop_vars.
  intros H Hq. apply split_once_spec in H as [_ [-> | (-> & -> & _)]]; [|done].
  rewrite all_chr_app in Hq. simpl in Hq.
  rewrite !andb_true_iff in Hq. tauto.
Qed.

Lemma break_spec p s a b :
  break p s = (a, b) ->
  s = a +:+ b /\ all_chr (fun c => negb (p c)) a = true
  /\ starts_with_chr_or_empty p b.
Proof.
  revert a. induction s as [|c s IH]; simpl; intros a.
  - by intros [= <- <-].
  - destruct (p c) eqn:Hc.
    + intros [= <- <-]. simpl. done.
    + destruct (break p s) as [a' b'] eqn:E. intros [= <- <-].
      destruct (IH a' eq_refl) as (-> & Ha & Hb). simpl. by rewrite Hc, Ha.
Qed.

Lemma break_unique p a b :
  all_chr (fun c => negb (p c)) a = true -> starts_with_chr_or_empty p b ->
  break p (a +:+ b) = (a, b).
Proof.
  intros Ha Hb. induction a as [|c a IH]; simpl.
  - destruct b as [|c b]; [done|]. simpl in *. by rewrite Hb.
  - simpl in Ha. apply andb_true_iff in Ha as [Hc Ha].
    apply negb_true_iff in Hc. rewrite ?sapp_cons. simpl.
    by rewrite Hc, (IH Ha).
Qed.

Lemma split_nonempty c s : split c s <> [].
Proof.
  induction s as [|d s IH]; [done|]. simpl.
  destruct (split c s); [done|]. by destruct (Ascii.eqb c d).
Qed.

Lemma split_absent c s : has_chr c s = false -> split c s = [s].
Proof.
  induction s as [|d s IH]; [done|]. simpl.
  rewrite orb_false_iff. intros [E H]. by rewrite (IH H), E.
Qed.

Lemma split_cons_other c d s :
  Ascii.eqb c d = false ->
  split c (String d s) =
    match split c s with
    | piece :: pieces => String d piece :: pieces
    | [] => []
    end.
Proof. intros E. simpl. destruct (split c s); [done|]. by rewrite E. Qed.

Lemma split_app c a b :
  has_chr c a = false -> split c (a +:+ String c b) = a :: split c b.
Proof.
  induction a as [|d a IH].
  - intros _. simpl. pose proof (split_nonempty c b).
    destruct (split c b); [done|]. by rewrite Ascii.eqb_refl.
  - simpl has_chr. rewrite orb_false_iff. intros [E H].
    by rewrite sapp_cons, (split_cons_other _ _ _ E), (IH H).
Qed.

Lemma split_pieces c s : Forall (fun x => has_chr c x = false) (split c s).
Proof.
  induction s as [|d s IH]; simpl; [by constructor|].
  destruct (split c s) as [|x l]; [constructor|].
  inversion IH as [|? ? Hx Hl]; subst.
  destruct (Ascii.eqb c d) eqn:E; repeat constructor; try done.
  simpl. by rewrite E, Hx.
Qed.

Lemma startswith_spec s prefix :
  startswith s prefix = true <-> exists t, s = prefix +:+ t.
Proof.
  revert s. induction prefix as [|a p IH]; intros s; simpl.
  - split; [intros _; by exists s|done].
  - destruct s as [|b s].
    + split; [done|]. intros [t Ht]. by rewrite sapp_cons in Ht.
    + rewrite andb_true_iff, eqb_chr_true, IH. split.
      * intros [-> [t ->]]. by exists t.
      * intros [t Ht]. rewrite sapp_cons in Ht. injection Ht as -> ->. eauto.
Qed.

Lemma startswith_app prefix t : startswith (prefix +:+ t) prefix = true.
Proof. apply startswith_spec. by exists t. Qed.

Lemma contains_nil sub : contains sub EmptyString = startswith EmptyString sub.
Proof. apply orb_false_r. Qed.

Lemma contains_cons sub c s :
  contains sub (String c s) = startswith (String c s) sub || contains sub s.
Proof. reflexivity. Qed.

(** [sub in s]: [s] is some text, then [sub], then some text. *)
Lemma contains_spec sub s :
  contains sub s = true <-> exists a b, s = a +:+ sub +:+ b.
Proof.
  induction s as [|c s IH].
  - rewrite contains_nil, startswith_spec. split.
    + intros [t Ht]. by exists EmptyString, t.
    + intros (a & b & H). destruct a; [|by rewrite sapp_cons in H].
      by exists b.
  - rewrite contains_cons, orb_true_iff, IH, startswith_spec. split.
    + intros [[t Ht] | (a & b & ->)].
      * by exists EmptyString, t.
      * by exists (String c a), b.
    + intros (a & b & H). destruct a as [|d a].
      * left. by exists b.
      * right. rewrite sapp_cons in H. injection H as -> ->. eauto.
Qed.

Lemma lower_app a b : lower (a +:+ b) = lower a +:+ lower b.
Proof.
  induction a as [|c a IH]; [done|]. rewrite ?sapp_cons. simpl.
  by rewrite IH, sapp_cons.
Qed.

Lemma lower_app_inv s a b :
  lower s = a +:+ b -> exists a' b', s = a' +:+ b' /\ lower a' = a /\ lower b' = b.
Proof.
  revert s. induction a as [|c a IH]; intros s H.
  - by exists EmptyString, s.
  - destruct s as [|d s]; [done|]. rewrite ?sapp_cons in H. simpl in H.
    injection H as Hc H. destruct (IH s H) as (a' & b' & -> & <- & <-).
    exists (String d a'), b'. simpl. by rewrite Hc.
Qed.

Lemma contains_lower needle s :
  contains needle (lower s) = true <-> occurs_ignoring_case needle s.
Proof.
  rewrite contains_spec. split.
  - intros (a & b & H). apply lower_app_inv in H as (a' & r & -> & _ & H).
    apply lower_app_inv in H as (mid & b' & -> & H & _). by exists a', mid, b'.
  - intros (a & mid & b & -> & <-). exists (lower a), (lower b).
    by rewrite !lower_app.
Qed.

(** ** Lemmas on [urllib.parse] *)

Lemma startswith_any_http url :
  startswith_any url ["http://"; "https://"]
  = startswith url "http://" || startswith url "https://".
Proof. unfold startswith_any. cbn [existsb]. by rewrite orb_false_r. Qed.

Lemma with_scheme_cases url :
  exists sch t, (sch = "http" \/ sch = "https")
                /\ with_scheme url = sch +:+ "://" +:+ t.
Proof.
  unfold with_scheme. rewrite startswith_any_http.
  destruct (startswith url "http://") eqn:E1.
  - apply startswith_spec in E1 as [t ->]. exists "http", t. auto.
  - destruct (startswith url "https://") eqn:E2.
    + apply startswith_spec in E2 as [t ->]. exists "https", t. auto.
    + exists "https", url. auto.
Qed.

Lemma urlsplit_http sch t :
  sch = "http" \/ sch = "https" ->
  urlsplit (sch +:+ "://" +:+ t)
  = split_authority sch (remove_chrs _UNSAFE_URL_BYTES_TO_REMOVE t).
Proof.
  intros [-> | ->]; unfold urlsplit, split_authority, check_netloc.
  - change (lstrip _ _) with ("http://" +:+ t).
    change (remove_chrs _ ("http://" +:+ t))
      with ("http:" +:+ "//" +:+ remove_chrs _UNSAFE_URL_BYTES_TO_REMOVE t).
    generalize (remove_chrs _UNSAFE_URL_BYTES_TO_REMOVE t) as u. intros u.
    change (partition ":" _) with (Some ("http", "//" +:+ u)).
    cbv beta iota.
    change (negb (is_empty "http") && _ && _) with true.
    cbv beta iota.
    change (startswith _ "//") with true.
    change (drop 2 _) with u.
    change (lower "http") with "http".
    cbv beta iota.
    destruct (_splitnetloc u) as [netloc rest].
    destruct (has_chr "[" netloc), (has_chr "]" netloc); simpl; try done.
    by destruct (_check_bracketed_netloc netloc) as [[]|].
  - change (lstrip _ _) with ("https://" +:+ t).
    change (remove_chrs _ ("https://" +:+ t))
      with ("https:" +:+ "//" +:+ remove_chrs _UNSAFE_URL_BYTES_TO_REMOVE t).
    generalize (remove_chrs _UNSAFE_URL_BYTES_TO_REMOVE t) as u. intros u.
    change (partition ":" _) with (Some ("https", "//" +:+ u)).
    cbv beta iota.
    change (negb (is_empty "https") && _ && _) with true.
    cbv beta iota.
    change (startswith _ "//") with true.
    change (drop 2 _) with u.
    change (lower "https") with "https".
    cbv beta iota.
    destruct (_splitnetloc u) as [netloc rest].
    destruct (has_chr "[" netloc), (has_chr "]" netloc); simpl; try done.
    by destruct (_check_bracketed_netloc netloc) as [[]|].
Qed.

(** What a successful [split_authority] says about its result. *)
Lemma split_authority_inv sch u r :
  split_authority sch u = Returned r ->
  exists rest url1,
    s_scheme r = sch
    /\ check_netloc (s_netloc r) = Returned tt
    /\ u = s_netloc r +:+ rest
    /\ all_chr (fun c => negb (is_delim c)) (s_netloc r) = true
    /\ starts_with_chr_or_empty is_delim rest
    /\ split_once "#" rest = (url1, s_fragment r)
    /\ split_once "?" url1 = (s_path r, s_query r).
Proof.
  unfold split_authority, _splitnetloc.
  destruct (break _ u) as [netloc rest] eqn:Hb.
  apply break_spec in Hb as (-> & Hn & Hr).
  destruct (check_netloc netloc) as [[]|] eqn:Hc; [|done]. simpl.
  destruct (split_once "#" rest) as [url1 frag] eqn:H1.
  destruct (split_once "?" url1) as [pth qry] eqn:H2.
  intros [= <-]. simpl. exists rest, url1. by rewrite H2.
Qed.

Lemma split_authority_build sch netloc pth qry :
  check_netloc netloc = Returned tt ->
  all_chr (fun c => negb (is_delim c)) netloc = true ->
  starts_with_chr_or_empty is_slash pth ->
  has_chr "?" pth = false -> has_chr "#" pth = false ->
  has_chr "#" qry = false ->
  split_authority sch (netloc +:+ pth +:+ query_suffix qry)
  = Returned (mkSplit sch netloc pth qry EmptyString).
Proof.
  intros Hc Hn Hp Hp1 Hp2 Hq. unfold split_authority, _splitnetloc.
  rewrite break_unique; [|done|].
  - rewrite Hc. simpl. destruct qry as [|c qry].
    + change (query_suffix "") with "".
      rewrite sapp_nil_r, (split_once_absent "#" pth Hp2).
      by rewrite (split_once_absent "?" pth Hp1).
    + change (query_suffix (String c qry)) with (String "?" (String c qry)).
      rewrite (split_once_absent "#").
      * by rewrite (split_once_found "?" pth (String c qry) Hp1).
      * rewrite !has_chr_app, Hp2. simpl in *. done.
  - destruct pth as [|c pth].
    + destruct qry; simpl; done.
    + simpl in *. unfold is_slash in Hp. apply eqb_chr_true in Hp as ->. done.
Qed.

(** The path [urlsplit] finds behind a network location is empty or
    starts with a slash. *)
Lemma split_authority_path sch u r :
  split_authority sch u = Returned r ->
  starts_with_chr_or_empty is_slash (s_path r).
Proof.
  intros H. apply split_authority_inv in H
    as (rest & url1 & _ & _ & _ & _ & Hr & H1 & H2).
  apply split_once_spec in H1 as [Hf1 H1].
  apply split_once_spec in H2 as [Hf2 H2].
  destruct (s_path r) as [|c p]; [done|]. simpl.
  assert (exists x, url1 = String c x) as [x ->].
  { destruct H2 as [-> | (-> & _)]; rewrite ?sapp_cons; eauto. }
  assert (exists y, rest = String c y) as [y ->].
  { destruct H1 as [-> | (-> & _)]; rewrite ?sapp_cons; eauto. }
  simpl in Hr, Hf1, Hf2.
  apply orb_false_iff in Hf1 as [Hf1 _]. apply orb_false_iff in Hf2 as [Hf2 _].
  unfold is_delim, chr_in in Hr. simpl in Hr. unfold is_slash.
  destruct (Ascii.eqb_spec c "/") as [|_]; [done|].
  destruct (Ascii.eqb_spec c "?") as [->|_]; [done|].
  destruct (Ascii.eqb_spec c "#") as [->|_]; done.
Qed.

(** The components [urlsplit] cuts out consist of characters of the
    text. *)
Lemma split_authority_chars q sch u r :
  split_authority sch u = Returned r -> all_chr q u = true ->
  all_chr q (s_netloc r) = true /\ all_chr q (s_path r) = true
  /\ all_chr q (s_query r) = true.
Proof.
  intros H Hq. apply split_authority_inv in H
    as (rest & url1 & _ & _ & -> & _ & _ & H1 & H2).
  rewrite all_chr_app in Hq. apply andb_true_iff in Hq as [Hn Hrest].
  destruct (all_chr_split_once q _ _ _ _ H1 Hrest) as [Hu _].
  destruct (all_chr_split_once q _ _ _ _ H2 Hu) as [Hp Hqy]. done.
Qed.

(** Nothing of the fragment, and no question mark in the path. *)
Lemma split_authority_marks sch u r :
  split_authority sch u = Returned r ->
  has_chr "#" (s_netloc r) = false /\ has_chr "?" (s_netloc r) = false
  /\ has_chr "#" (s_path r) = false /\ has_chr "?" (s_path r) = false
  /\ has_chr "#" (s_query r) = false.
Proof.
  intros H. apply split_authority_inv in H
    as (rest & url1 & _ & _ & _ & Hn & _ & H1 & H2).
  pose proof (split_once_spec _ _ _ _ H1) as [Hf1 _].
  pose proof (split_once_spec _ _ _ _ H2) as [Hf2 _].
  apply has_chr_all_chr in Hf1.
  destruct (all_chr_split_once _ _ _ _ _ H2 Hf1) as [Hp Hq].
  apply has_chr_all_chr in Hp, Hq.
  repeat split; try done.
  - by apply (all_chr_has_chr _ _ _ Hn).
  - by apply (all_chr_has_chr _ _ _ Hn).
Qed.

Lemma rpartition_Some c s a b :
  rpartition c s = Some (a, b) -> s = a +:+ String c b.
Proof.
  revert a. induction s as [|d s IH]; [done|]. simpl. intros a.
  destruct (rpartition c s) as [[a' b']|].
  - intros [= <- <-]. by rewrite (IH a' eq_refl).
  - destruct (Ascii.eqb c d) eqn:E; [|done].
    intros [= <- <-]. by apply eqb_chr_true in E as ->.
Qed.

Lemma take_drop n s : take n s +:+ drop n s = s.
Proof.
  revert s. induction n as [|n IH]; intros [|c s]; simpl; try done.
  by rewrite sapp_cons, IH.
Qed.

(** [urlparse] keeps a prefix of the path. *)
Lemma parsed_path_prefix url : exists rest, url = parsed_path url +:+ rest.
Proof.
  unfold parsed_path. destruct (has_chr ";" url) eqn:Hs.
  - unfold _splitparams. destruct (has_chr "/" url).
    + destruct (rpartition "/" url) as [[a b]|] eqn:Hr;
        [|exists EmptyString; by rewrite sapp_nil_r].
      apply rpartition_Some in Hr as ->.
      destruct (partition ";" b) as [[b1 b2]|] eqn:Hp;
        [|exists EmptyString; by rewrite sapp_nil_r].
      apply partition_Some in Hp as [-> _]. simpl.
      exists (String ";" b2). by rewrite !sapp_assoc.
    + destruct (partition ";" url) as [[a b]|] eqn:Hp.
      * apply partition_Some in Hp as [-> _]. simpl. eauto.
      * simpl. exists (drop (len url - 1) url). by rewrite take_drop.
  - exists EmptyString. by rewrite sapp_nil_r.
Qed.

Lemma parsed_path_id url : has_chr ";" url = false -> parsed_path url = url.
Proof. intros H. unfold parsed_path. by rewrite H. Qed.

Lemma all_chr_parsed_path q url :
  all_chr q url = true -> all_chr q (parsed_path url) = true.
Proof.
  drop_vars.
  destruct (parsed_path_prefix url) as [rest H]. rewrite H at 1.
  rewrite all_chr_app, andb_true_iff. tauto.
Qed.

Lemma has_chr_parsed_path c url :
  has_chr c url = false -> has_chr c (parsed_path url) = false.
Proof. rewrite !has_chr_all_chr. apply all_chr_parsed_path. Qed.

Lemma parsed_path_start p url :
  starts_with_chr_or_empty p url -> starts_with_chr_or_empty p (parsed_path url).
Proof.
  destruct (parsed_path_prefix url) as [rest H]. rewrite H at 1.
  by destruct (parsed_path url).
Qed.

Lemma urlparse_http sch t :
  sch = "http" \/ sch = "https" ->
  urlparse (sch +:+ "://" +:+ t)
  = (let? r := split_authority sch (remove_chrs _UNSAFE_URL_BYTES_TO_REMOVE t) in
     Returned (mkParse sch (s_netloc r) (parsed_path (s_path r))
                 (if has_chr ";" (s_path r) then snd (_splitparams (s_path r))
                  else EmptyString)
                 (s_query r) (s_fragment r))).
Proof.
  intros Hs. unfold urlparse. rewrite (urlsplit_http _ _ Hs).
  destruct (split_authority _ _) as [r|e] eqn:Hr; [|done]. simpl.
  apply split_authority_inv in Hr as (_ & _ & -> & _).
  unfold parsed_path.
  destruct Hs as [-> | ->]; simpl; destruct (has_chr ";" (s_path r));
    try done; by destruct (_splitparams (s_path r)).
Qed.

(** [normalize_url] on a text that is not empty. *)
Lemma normalize_url_inv url u :
  url <> EmptyString -> normalize_url url = Returned u ->
  exists sch t r, (sch = "http" \/ sch = "https")
    /\ with_scheme url = sch +:+ "://" +:+ t
    /\ split_authority sch (remove_chrs _UNSAFE_URL_BYTES_TO_REMOVE t) = Returned r
    /\ u = sch +:+ "://" +:+ s_netloc r.
Proof.
  intros Hne. unfold normalize_url.
  apply is_empty_false in Hne. rewrite Hne.
  fold (with_scheme url).
  destruct (with_scheme_cases url) as (sch & t & Hs & ->).
  rewrite (urlparse_http _ _ Hs).
  destruct (split_authority _ _) as [r|e] eqn:Hr; [|done]. simpl.
  intros [= <-]. exists sch, t, r. repeat split; try done.
  apply split_authority_inv in Hr as (_ & _ & _ & _ & _ & Hn & _).
  rewrite rstrip_id; [done|].
  eapply all_chr_impl; [|exact Hn]. intros c. unfold is_delim, is_slash, chr_in.
  simpl. by destruct (Ascii.eqb c "/").
Qed.

(** [normalize_feed_url] on a text: the shape of a result. *)
Lemma normalize_feed_url_inv x n :
  normalize_feed_url (PyStr x) = Returned (Some n) ->
  exists sch t r, (sch = "http" \/ sch = "https")
    /\ strip x <> EmptyString
    /\ with_scheme (strip x) = sch +:+ "://" +:+ t
    /\ split_authority sch (remove_chrs _UNSAFE_URL_BYTES_TO_REMOVE t) = Returned r
    /\ n = sch +:+ "://" +:+ s_netloc r
             +:+ rstrip is_slash (parsed_path (s_path r))
             +:+ query_suffix (s_query r).
Proof.
  unfold normalize_feed_url. destruct (is_empty x); [done|].
  destruct (is_empty (strip x)) eqn:He; [done|].
  fold (with_scheme (strip x)).
  destruct (with_scheme_cases (strip x)) as (sch & t & Hs & ->).
  rewrite (urlparse_http _ _ Hs).
  destruct (split_authority _ _) as [r|e] eqn:Hr; [|done]. simpl.
  intros [= <-]. exists sch, t, r. apply is_empty_false in He.
  repeat split; try done.
  assert ((if negb (is_empty (parsed_path (s_path r)))
           then rstrip is_slash (parsed_path (s_path r)) else "")
          = rstrip is_slash (parsed_path (s_path r))) as ->.
  { by destruct (parsed_path (s_path r)). }
  unfold query_suffix. destruct (negb (is_empty (s_query r))).
  - by rewrite !sapp_assoc.
  - by rewrite sapp_nil_r.
Qed.

Lemma normalize_feed_url_eq x sch t :
  sch = "http" \/ sch = "https" ->
  strip x <> EmptyString ->
  with_scheme (strip x) = sch +:+ "://" +:+ t ->
  normalize_feed_url (PyStr x)
  = (let? r := split_authority sch (remove_chrs _UNSAFE_URL_BYTES_TO_REMOVE t) in
     Returned (Some (sch +:+ "://" +:+ s_netloc r
                       +:+ rstrip is_slash (parsed_path (s_path r))
                       +:+ query_suffix (s_query r)))).
Proof.
  intros Hs Hne Hw. unfold normalize_feed_url.
  destruct x as [|c x]; [done|]. simpl is_empty. cbv iota.
  apply is_empty_false in Hne. rewrite Hne.
  fold (with_scheme (strip (String c x))). rewrite Hw.
  rewrite (urlparse_http _ _ Hs).
  destruct (split_authority _ _) as [r|e] eqn:Hr; [|done]. simpl.
  assert ((if negb (is_empty (parsed_path (s_path r)))
           then rstrip is_slash (parsed_path (s_path r)) else "")
          = rstrip is_slash (parsed_path (s_path r))) as ->.
  { by destruct (parsed_path (s_path r)). }
  unfold query_suffix. destruct (negb (is_empty (s_query r))).
  - by rewrite !sapp_assoc.
  - by rewrite sapp_nil_r.
Qed.

Lemma lstrip_app_all p ws s :
  all_chr p ws = true -> lstrip p (ws +:+ s) = lstrip p s.
Proof.
  induction ws as [|c ws IH]; [done|]. simpl. intros H.
  apply andb_true_iff in H as [Hc H]. rewrite ?sapp_cons. simpl.
  by rewrite Hc, IH.
Qed.

Lemma rstrip_start p q s :
  starts_with_chr_or_empty q s -> starts_with_chr_or_empty q (rstrip p s).
Proof.
  destruct (rstrip_split p s) as (t & H & _). rewrite H at 1.
  by destruct (rstrip p s).
Qed.

Lemma has_chr_rstrip c p s : has_chr c s = false -> has_chr c (rstrip p s) = false.
Proof. rewrite !has_chr_all_chr. apply all_chr_rstrip. Qed.

Lemma with_scheme_prefixed sch t :
  sch = "http" \/ sch = "https" ->
  with_scheme (sch +:+ "://" +:+ t) = sch +:+ "://" +:+ t.
Proof.
  intros Hs. unfold with_scheme. rewrite startswith_any_http.
  destruct Hs as [-> | ->].
  - change ("http" +:+ "://" +:+ t) with ("http://" +:+ t).
    by rewrite (startswith_app "http://" t).
  - change ("https" +:+ "://" +:+ t) with ("https://" +:+ t).
    rewrite (startswith_app "https://" t). by rewrite orb_true_r.
Qed.

(** A result of [normalize_feed_url] has the characters of its argument
    and of the scheme, the separators and the question mark. *)
Lemma normalize_feed_url_chars q x n :
  normalize_feed_url (PyStr x) = Returned (Some n) ->
  all_chr q "https://?" = true -> all_chr q x = true -> all_chr q n = true.
Proof.
  intros H Hq Hx.
  apply normalize_feed_url_inv in H as (sch & t & r & Hs & _ & Hw & Hr & ->).
  assert (Ht : all_chr q t = true).
  { assert (Hws : all_chr q (with_scheme (strip x)) = true).
    { unfold with_scheme. destruct (negb _).
      - rewrite all_chr_app. apply andb_true_iff. split.
        + simpl in *. repeat (apply andb_true_iff in Hq as [? Hq]).
          repeat (apply andb_true_iff; split); done.
        + by apply all_chr_rstrip, all_chr_lstrip.
      - by apply all_chr_rstrip, all_chr_lstrip. }
    rewrite Hw, !all_chr_app in Hws.
    apply andb_true_iff in Hws as [_ Hws]. by apply andb_true_iff in Hws as [_ Hws]. }
  destruct (split_authority_chars q _ _ _ Hr
              (all_chr_remove_chrs _ q t Ht)) as (Hn & Hp & Hqy).
  rewrite !all_chr_app, Hn, (all_chr_rstrip _ q _ (all_chr_parsed_path q _ Hp)).
  simpl in Hq. repeat (apply andb_true_iff in Hq as [? Hq]).
  assert (Hsch : all_chr q sch = true).
  { destruct Hs as [-> | ->]; simpl; repeat (apply andb_true_iff; split); done. }
  rewrite Hsch. simpl.
  assert (all_chr q (query_suffix (s_query r)) = true) as ->.
  { unfold query_suffix. destruct (negb _); [|done].
    simpl. apply andb_true_iff. done. }
  repeat (apply andb_true_iff; split); done.
Qed.

Lemma normalize_feed_url_semicolon x n :
  normalize_feed_url (PyStr x) = Returned (Some n) ->
  has_chr ";" x = false -> has_chr ";" n = false.
Proof.
  intros H Hx. apply has_chr_all_chr. apply has_chr_all_chr in Hx.
  by apply (normalize_feed_url_chars _ x n H).
Qed.

(** A result of [normalize_feed_url] starts with the letter h. *)
Lemma normalize_feed_url_head x n :
  normalize_feed_url (PyStr x) = Returned (Some n) -> exists n', n = String "h" n'.
Proof.
  intros H.
  apply normalize_feed_url_inv in H as (sch & t & r & Hs & _ & _ & _ & ->).
  destruct Hs as [-> | ->]; rewrite sapp_cons; eauto.
Qed.

(** Normalizing a normalized URL again, possibly behind whitespace: the
    URL comes back when it carried no parameter separator and does not end
    in whitespace. *)
Lemma normalize_feed_url_again x n ws :
  normalize_feed_url (PyStr x) = Returned (Some n) ->
  has_chr ";" x = false ->
  last_chr_is isspace n = false ->
  all_chr isspace ws = true ->
  normalize_feed_url (PyStr (ws +:+ n)) = Returned (Some n).
Proof.
  intros H Hsemi Hlast Hws.
  pose proof (normalize_feed_url_semicolon _ _ H Hsemi) as Hn_semi.
  pose proof (normalize_feed_url_head _ _ H) as [n' Hhead].
  pose proof H as H0.
  apply normalize_feed_url_inv in H as (sch & t & r & Hs & _ & _ & Hr & Hn).
  set (P := rstrip is_slash (parsed_path (s_path r))) in *.
  set (Q := query_suffix (s_query r)) in *.
  assert (Hstrip : strip (ws +:+ n) = n).
  { unfold strip. rewrite (lstrip_app_all _ _ _ Hws).
    rewrite Hhead at 1. rewrite lstrip_id by done. rewrite <- Hhead.
    by apply rstrip_fix. }
  assert (Hne : strip (ws +:+ n) <> EmptyString).
  { rewrite Hstrip, Hhead. done. }
  assert (Hw : with_scheme (strip (ws +:+ n))
               = sch +:+ "://" +:+ (s_netloc r +:+ P +:+ Q)).
  { rewrite Hstrip, Hn. by apply with_scheme_prefixed. }
  rewrite (normalize_feed_url_eq _ _ _ Hs Hne Hw).
  (* the components carry no unsafe character *)
  destruct (split_authority_chars (fun c => negb (_UNSAFE_URL_BYTES_TO_REMOVE c))
              _ _ _ Hr (remove_chrs_clean _ t)) as (Hcn & Hcp & Hcq).
  assert (HcP : all_chr (fun c => negb (_UNSAFE_URL_BYTES_TO_REMOVE c)) P = true).
  { by apply all_chr_rstrip, all_chr_parsed_path. }
  assert (HcQ : all_chr (fun c => negb (_UNSAFE_URL_BYTES_TO_REMOVE c)) Q = true).
  { unfold Q, query_suffix. destruct (negb _); [|done]. simpl. done. }
  rewrite remove_chrs_id by (by rewrite !all_chr_app, Hcn, HcP, HcQ).
  (* the second parse finds the same components *)
  pose proof (split_authority_marks _ _ _ Hr) as (_ & _ & Hp1 & Hp2 & Hq1).
  pose proof (split_authority_path _ _ _ Hr) as Hstart.
  pose proof Hr as Hr'.
  apply split_authority_inv in Hr' as (_ & _ & _ & Hcheck & _ & Hdelim & _).
  unfold Q.
  rewrite (split_authority_build sch (s_netloc r) P (s_query r)); try done.
  - simpl.
    assert (HP_semi : has_chr ";" P = false).
    { rewrite Hn, !has_chr_app in Hn_semi.
      repeat (apply orb_false_iff in Hn_semi as [? Hn_semi]). done. }
    rewrite (parsed_path_id P HP_semi). unfold P at 1.
    rewrite rstrip_idem. fold P. by rewrite Hn.
  - by apply rstrip_start, parsed_path_start.
  - by apply has_chr_rstrip, has_chr_parsed_path.
  - by apply has_chr_rstrip, has_chr_parsed_path.
Qed.

(** ** Lemmas on lists of URLs *)

Local Arguments normalize_feed_url : simpl never.
Local Arguments normalize_url : simpl never.

Lemma mem_spec x (l : list string) : mem x l = true <-> x ∈ l.
Proof.
  unfold mem. induction l as [|y l IH]; simpl.
  - split; [done|]. by intros ?%elem_of_nil.
  - rewrite orb_true_iff, IH, elem_of_cons, String.eqb_eq. done.
Qed.

Lemma mem_false x (l : list string) : mem x l = false <-> x ∉ l.
Proof.
  rewrite <- mem_spec. destruct (mem x l); split; done.
Qed.

Lemma sorted_Permutation l : sorted l ≡ₚ l.
Proof. apply merge_sort_Permutation. Qed.

Lemma sorted_Sorted l : Sorted String.le (sorted l).
Proof. apply (Sorted_merge_sort String.le). Qed.

Lemma sorted_id l : Sorted String.le l -> sorted l = l.
Proof.
  intros H. apply (Sorted_unique String.le); [apply sorted_Sorted|done|].
  apply sorted_Permutation.
Qed.

Lemma join_cons2 sep x y rest :
  join sep (x :: y :: rest) = x +:+ sep +:+ join sep (y :: rest).
Proof. reflexivity. Qed.

(** Splitting what [join] built with the separator "; ": the elements,
    all but the first behind a space. *)
Lemma split_join x rest :
  Forall (fun u => has_chr ";" u = false) (x :: rest) ->
  split ";" (join "; " (x :: rest)) = x :: List.map (String " ") rest.
Proof.
  revert x. induction rest as [|y rest IH]; intros x Hall.
  - simpl. apply split_absent. by inversion Hall.
  - inversion Hall as [|? ? Hx Hrest]; subst. rewrite join_cons2.
    change ("; " +:+ join "; " (y :: rest))
      with (String ";" (String " " (join "; " (y :: rest)))).
    rewrite (split_app _ _ _ Hx), split_cons_other by done.
    by rewrite (IH y Hrest).
Qed.

Lemma normalize_unique_app urls acc L :
  Forall2 (fun u n => normalize_feed_url (PyStr u) = Returned (Some n)) urls L ->
  NoDup (acc ++ L) ->
  normalize_unique urls acc = Returned (acc ++ L).
Proof.
  intros H. revert acc. induction H as [|u n urls L Hu _ IH]; intros acc Hnd.
  - simpl. by rewrite app_nil_r.
  - simpl. rewrite Hu. simpl.
    destruct (normalize_feed_url_head _ _ Hu) as [n' ->]. simpl.
    assert (mem (String "h" n') acc = false) as ->.
    { apply mem_false. apply NoDup_app in Hnd as (_ & Hnd & _).
      intros Hin. apply (Hnd _ Hin). apply elem_of_cons. by left. }
    simpl. rewrite (IH (acc ++ [String "h" n'])).
    + by rewrite <- app_assoc.
    + by rewrite <- app_assoc.
Qed.

(** What the loop of [normalize_feed_list] collects. *)
Lemma normalize_unique_spec urls acc L :
  normalize_unique urls acc = Returned L -> NoDup acc ->
  NoDup L /\
  forall n, n ∈ L <->
    (n ∈ acc \/ exists u, u ∈ urls /\ normalize_feed_url (PyStr u) = Returned (Some n)).
Proof.
  revert acc. induction urls as [|u urls IH]; intros acc; simpl.
  - intros [= <-] Hnd. split; [done|]. intros n. split; [auto|].
    intros [H | (u & Hu & _)]; [done|]. by apply elem_of_nil in Hu.
  - destruct (normalize_feed_url (PyStr u)) as [[n0|]|e] eqn:Hu; simpl; [| |done].
    + destruct (normalize_feed_url_head _ _ Hu) as [n' Hn']. subst n0. simpl.
      destruct (mem (String "h" n') acc) eqn:Hm; simpl; intros H Hnd.
      * destruct (IH _ H Hnd) as [HL Hiff]. split; [done|]. intros n.
        rewrite Hiff. apply mem_spec in Hm. split.
        -- intros [? | (v & Hv & Hn)]; [auto|]. right. exists v.
           rewrite elem_of_cons. auto.
        -- intros [? | (v & Hv & Hn)]; [auto|].
           apply elem_of_cons in Hv as [-> | Hv]; [|eauto].
           left. rewrite Hu in Hn. by injection Hn as <-.
      * apply mem_false in Hm.
        assert (Hnd' : NoDup (acc ++ [String "h" n'])).
        { apply NoDup_app. repeat split; [done| |apply NoDup_singleton].
          intros y Hy ->%list_elem_of_singleton. done. }
        destruct (IH _ H Hnd') as [HL Hiff]. split; [done|]. intros n.
        rewrite Hiff, elem_of_app, list_elem_of_singleton. split.
        -- intros [[? | ->] | (v & Hv & Hn)]; [auto| |].
           ++ right. exists u. rewrite elem_of_cons. auto.
           ++ right. exists v. rewrite elem_of_cons. auto.
        -- intros [? | (v & Hv & Hn)]; [auto|].
           apply elem_of_cons in Hv as [-> | Hv]; [|eauto].
           left. right. rewrite Hu in Hn. by injection Hn as <-.
    + intros H Hnd. destruct (IH _ H Hnd) as [HL Hiff]. split; [done|].
      intros n. rewrite Hiff. split.
      * intros [? | (v & Hv & Hn)]; [auto|]. right. exists v.
        rewrite elem_of_cons. auto.
      * intros [? | (v & Hv & Hn)]; [auto|].
        apply elem_of_cons in Hv as [-> | Hv]; [|eauto]. congruence.
Qed.

Lemma normalize_feed_list_inv rss L :
  normalize_feed_list rss = Returned L ->
  (is_empty rss || String.eqb rss "Not found" = true /\ L = [])
  \/ (is_empty rss || String.eqb rss "Not found" = false
      /\ exists L0, normalize_unique (split ";" rss) [] = Returned L0
                    /\ L = sorted L0).
Proof.
  unfold normalize_feed_list.
  destruct (is_empty rss || String.eqb rss "Not found").
  - intros [= <-]. auto.
  - destruct (normalize_unique _ _) as [L0|] eqn:H0; [|done]. simpl.
    intros [= <-]. right. eauto.
Qed.

(** The list [normalize_feed_list] returns: sorted, without duplicates,
    and each element the normalization of a piece without semicolon. *)
Lemma normalize_feed_list_elems rss L :
  normalize_feed_list rss = Returned L ->
  Sorted String.le L /\ NoDup L /\
  forall n, n ∈ L ->
    exists u, u ∈ split ";" rss /\ has_chr ";" u = false
              /\ normalize_feed_url (PyStr u) = Returned (Some n).
Proof.
  intros H. apply normalize_feed_list_inv in H as [[_ ->] | [_ (L0 & H0 & ->)]].
  - repeat split; [constructor|constructor|]. by intros n ?%elem_of_nil.
  - destruct (normalize_unique_spec _ _ _ H0 (NoDup_nil_2)) as [Hnd Hiff].
    repeat split; [apply sorted_Sorted| |].
    + by rewrite sorted_Permutation.
    + intros n Hn. rewrite sorted_Permutation in Hn.
      apply Hiff in Hn as [Hn | (u & Hu & Hn)]; [by apply elem_of_nil in Hn|].
      exists u. repeat split; try done.
      pose proof (split_pieces ";" rss) as Hp.
      rewrite Forall_forall in Hp. by apply Hp.
Qed.

(** ** [normalize_feed_url] and [normalize_feed_list] *)

Lemma lstrip_start p s : starts_with_chr_or_empty (fun c => negb (p c)) (lstrip p s).
Proof.
  induction s as [|c s IH]; [done|]. simpl.
  destruct (p c) eqn:Hc; [done|]. simpl. by rewrite Hc.
Qed.

Lemma lstrip_fix p s :
  starts_with_chr_or_empty (fun c => negb (p c)) s -> lstrip p s = s.
Proof.
  destruct s as [|c s]; [done|]. simpl. intros H.
  apply negb_true_iff in H. by rewrite H.
Qed.

Lemma strip_idem s : strip (strip s) = strip s.
Proof.
  unfold strip. rewrite (lstrip_fix isspace (rstrip isspace (lstrip isspace s))).
  - apply rstrip_idem.
  - apply rstrip_start, lstrip_start.
Qed.

Lemma normalize_feed_url_blank s :
  strip s = EmptyString -> normalize_feed_url (PyStr s) = Returned None.
Proof.
  intros H. unfold normalize_feed_url. destruct (is_empty s); [done|].
  by rewrite H.
Qed.

Lemma normalize_feed_url_strip s :
  normalize_feed_url (PyStr s) = normalize_feed_url (PyStr (strip s)).
Proof.
  destruct (decide (strip s = EmptyString)) as [He|Hne].
  - rewrite (normalize_feed_url_blank s He), He. done.
  - destruct (with_scheme_cases (strip s)) as (sch & t & Hs & Hw).
    rewrite (normalize_feed_url_eq s sch t Hs Hne Hw).
    rewrite (normalize_feed_url_eq (strip s) sch t Hs); rewrite ?strip_idem; done.
Qed.

Lemma strip_https t : strip t = t -> strip ("https://" +:+ t) = "https://" +:+ t.
Proof.
  intros Ht. unfold strip.
  change (lstrip isspace ("https://" +:+ t)) with ("https://" +:+ t).
  rewrite !sapp_cons, sapp_nil_l. rewrite !rstrip_cons_keep by done.
  assert (rstrip isspace t = t) as ->; [|done].
  rewrite <- Ht at 1. unfold strip. rewrite rstrip_idem. exact Ht.
Qed.

Lemma normalize_feed_url_prepend s :
  strip s <> EmptyString ->
  startswith_any (strip s) ["http://"; "https://"] = false ->
  normalize_feed_url (PyStr s)
  = normalize_feed_url (PyStr ("https://" +:+ strip s)).
Proof.
  intros Hne Hany.
  assert (Hw : with_scheme (strip s) = "https" +:+ "://" +:+ strip s).
  { unfold with_scheme. by rewrite Hany. }
  rewrite (normalize_feed_url_eq s "https" (strip s)); [|auto|done|done].
  assert (Hst : strip ("https://" +:+ strip s) = "https://" +:+ strip s).
  { apply strip_https, strip_idem. }
  rewrite (normalize_feed_url_eq ("https://" +:+ strip s) "https" (strip s));
    [done|auto| |].
  - by rewrite Hst.
  - rewrite Hst. by apply (with_scheme_prefixed "https" (strip s)); right.
Qed.

Lemma query_suffix_mark q :
  has_chr "?" (query_suffix q) = true <-> q <> EmptyString.
Proof. by destruct q. Qed.

Lemma query_suffix_hash q :
  has_chr "#" q = false -> has_chr "#" (query_suffix q) = false.
Proof. by destruct q. Qed.

(** The shape of a normalized feed URL. *)
Lemma normalize_feed_url_shape s n :
  normalize_feed_url (PyStr s) = Returned (Some n) ->
  exists parsed stripped slashes,
    urlparse (with_scheme (strip s)) = Returned parsed
    /\ path parsed = stripped +:+ slashes
    /\ all_chr is_slash slashes = true
    /\ last_chr_is is_slash stripped = false
    /\ n = scheme parsed +:+ "://" +:+ netloc parsed +:+ stripped
             +:+ query_suffix (query parsed)
    /\ has_chr "#" n = false
    /\ (has_chr "?" n = true <-> query parsed <> EmptyString).
Proof.
  intros H.
  apply normalize_feed_url_inv in H as (sch & t & r & Hs & Hne & Hw & Hr & ->).
  destruct (rstrip_split is_slash (parsed_path (s_path r))) as (slashes & Hp & Hsl).
  eexists _, (rstrip is_slash (parsed_path (s_path r))), slashes.
  rewrite Hw, (urlparse_http _ _ Hs), Hr. simpl.
  split; [reflexivity|]. simpl.
  pose proof (split_authority_marks _ _ _ Hr) as (Hn1 & Hn2 & Hp1 & Hp2 & Hq1).
  assert (Hsch : has_chr "#" sch = false /\ has_chr "?" sch = false).
  { by destruct Hs as [-> | ->]. }
  destruct Hsch as [Hs1 Hs2].
  repeat split; try done.
  - apply rstrip_last.
  - rewrite !has_chr_app, Hs1, Hn1. simpl.
    rewrite (has_chr_rstrip _ _ _ (has_chr_parsed_path _ _ Hp1)).
    by rewrite (query_suffix_hash _ Hq1).
  - rewrite !has_chr_app, Hs2, Hn2. simpl.
    rewrite (has_chr_rstrip _ _ _ (has_chr_parsed_path _ _ Hp2)). simpl.
    apply query_suffix_mark.
  - rewrite !has_chr_app, Hs2, Hn2. simpl.
    rewrite (has_chr_rstrip _ _ _ (has_chr_parsed_path _ _ Hp2)). simpl.
    apply query_suffix_mark.
Qed.

Lemma join_head sep c x rest : exists s, join sep (String c x :: rest) = String c s.
Proof. destruct rest; simpl; rewrite ?sapp_cons; eauto. Qed.

(** Re-normalizing the joined output of [normalize_feed_list]. *)
Lemma normalize_feed_list_again rss L :
  normalize_feed_list rss = Returned L ->
  Forall (fun n => last_chr_is isspace n = false) L ->
  normalize_feed_list (join "; " L) = Returned L.
Proof.
  intros H Hlast.
  destruct (normalize_feed_list_elems _ _ H) as (Hsorted & Hnd & Helems).
  destruct L as [|x rest]; [done|].
  assert (Hagain : forall n, n ∈ x :: rest -> forall ws, all_chr isspace ws = true ->
            normalize_feed_url (PyStr (ws +:+ n)) = Returned (Some n)).
  { intros n Hn ws Hws. destruct (Helems n Hn) as (u & _ & Hu & Hnu).
    apply (normalize_feed_url_again u); try done.
    rewrite Forall_forall in Hlast. by apply Hlast. }
  assert (Hsemi : Forall (fun u => has_chr ";" u = false) (x :: rest)).
  { apply Forall_forall. intros n Hn. destruct (Helems n Hn) as (u & _ & Hu & Hnu).
    by apply (normalize_feed_url_semicolon u). }
  destruct (Helems x) as (u & _ & _ & Hux); [apply elem_of_cons; auto|].
  destruct (normalize_feed_url_head _ _ Hux) as [x' ->].
  assert (Htest : is_empty (join "; " (String "h" x' :: rest))
                  || String.eqb (join "; " (String "h" x' :: rest)) "Not found"
                  = false).
  { destruct (join_head "; " "h" x' rest) as [j ->]. done. }
  unfold normalize_feed_list. rewrite Htest.
  rewrite (split_join _ _ Hsemi).
  rewrite (normalize_unique_app _ [] (String "h" x' :: rest)).
  - simpl. by rewrite (sorted_id _ Hsorted).
  - constructor.
    + apply (Hagain _ (proj2 (elem_of_cons _ _ _) (or_introl eq_refl)) EmptyString).
      done.
    + apply Forall2_fmap_l. apply Forall_Forall2_diag.
      apply Forall_forall. intros n Hn.
      apply (Hagain n (proj2 (elem_of_cons _ _ _) (or_intror Hn)) " "). done.
  - done.
Qed.

(** ** [save_website_result] *)

Lemma strip_nonblank c s : isspace c = false -> strip (String c s) <> EmptyString.
Proof.
  intros H. unfold strip. rewrite lstrip_id by done.
  by rewrite rstrip_cons_keep.
Qed.

Lemma strip_space s : strip (String " " s) = strip s.
Proof. reflexivity. Qed.

(** The stored text of a non-empty normalized list counts as many feeds
    as the list has. *)
Lemma stored_list_join L :
  L <> [] ->
  Forall (fun n => has_chr ";" n = false /\ exists n', n = String "h" n') L ->
  length (stored_list (Some (join "; " L))) = length L.
Proof.
  destruct L as [|x rest]; [done|]. intros _ HL.
  assert (Hsemi : Forall (fun u => has_chr ";" u = false) (x :: rest)).
  { eapply Forall_impl; [exact HL|]. by intros ? [? _]. }
  inversion HL as [|? ? [_ [x' ->]] Hrest]; subst.
  unfold stored_list.
  destruct (join_head "; " "h" x' rest) as [j Hj]. rewrite Hj at 1.
  simpl is_empty. simpl negb. cbv iota.
  rewrite (split_join _ _ Hsemi), length_map.
  assert (Hpass : forall u, u ∈ String "h" x' :: List.map (String " ") rest ->
                    negb (is_empty (strip u)) = true).
  { intros u Hu. apply negb_true_iff, is_empty_false.
    apply elem_of_cons in Hu as [-> | Hu]; [by apply strip_nonblank|].
    apply list_elem_of_fmap in Hu as (y & -> & Hy). rewrite strip_space.
    rewrite Forall_forall in Hrest. destruct (Hrest y Hy) as [_ [y' ->]].
    by apply strip_nonblank. }
  rewrite List.forallb_filter_id.
  - simpl. by rewrite length_map.
  - apply forallb_forall. intros u Hu. apply Hpass. by apply list_elem_of_In.
Qed.

Lemma normalize_feed_list_stored rss L :
  normalize_feed_list rss = Returned L -> L <> [] ->
  length (stored_list (Some (join "; " L))) = length L.
Proof.
  intros H Hne. apply stored_list_join; [done|].
  destruct (normalize_feed_list_elems _ _ H) as (_ & _ & Helems).
  apply Forall_forall. intros n Hn. destruct (Helems n Hn) as (u & _ & Hu & Hnu).
  split; [by apply (normalize_feed_url_semicolon u)|].
  apply (normalize_feed_url_head _ _ Hnu).
Qed.

(** [save_website_result] when both normalizations return. *)
Lemma save_website_result_eq db website_url rss_string key new_list :
  normalize_url website_url = Returned key ->
  normalize_feed_list rss_string = Returned new_list ->
  save_website_result db website_url rss_string
  = Returned
      (match db !! key with
       | Some old_feed_string =>
           if (length (stored_list old_feed_string) <? length new_list)%nat
           then <[key := Some (join "; " new_list)]> db
           else db
       | None =>
           <[key := match new_list with
                    | [] => None
                    | _ => Some (join "; " new_list)
                    end]> db
       end).
Proof.
  intros Hk Hl. unfold save_website_result. rewrite Hk, Hl. simpl.
  destruct (db !! key) as [old|]; [|done].
  destruct (Nat.leb_spec (length new_list) (length (stored_list old))) as [Hle|Hlt].
  - by rewrite (proj2 (Nat.ltb_ge _ _) Hle).
  - rewrite (proj2 (Nat.ltb_lt _ _) Hlt).
    destruct new_list; [simpl in Hlt; lia|done].
Qed.

Lemma save_website_result_inv db website_url rss_string db' :
  save_website_result db website_url rss_string = Returned db' ->
  exists key new_list,
    normalize_url website_url = Returned key
    /\ normalize_feed_list rss_string = Returned new_list.
Proof.
  unfold save_website_result.
  destruct (normalize_url website_url) as [key|]; [|done].
  destruct (normalize_feed_list rss_string) as [new_list|]; [|done]. eauto.
Qed.

(** One save never lowers the number of feeds stored for a site. *)
Lemma save_step_monotone db db' key :
  save_step db db' -> stored_count (db !! key) <= stored_count (db' !! key).
Proof.
  intros (w & rss & H).
  destruct (save_website_result_inv _ _ _ _ H) as (k & new_list & Hk & Hl).
  rewrite (save_website_result_eq db w rss k new_list Hk Hl) in H.
  injection H as <-.
  destruct (db !! k) as [old|] eqn:Hold.
  - destruct (Nat.ltb_spec (length (stored_list old)) (length new_list)) as [Hlt|Hle];
      [|done].
    destruct (decide (k = key)) as [->|Hne].
    + rewrite lookup_insert_eq, Hold. unfold stored_count.
      rewrite (normalize_feed_list_stored rss new_list Hl); [lia|].
      intros ->. simpl in Hlt. lia.
    + by rewrite lookup_insert_ne.
  - destruct (decide (k = key)) as [->|Hne].
    + rewrite Hold. simpl. lia.
    + by rewrite lookup_insert_ne.
Qed.

Lemma saves_monotone db db' key :
  rtc save_step db db' -> stored_count (db !! key) <= stored_count (db' !! key).
Proof.
  induction 1 as [|db1 db2 db3 Hstep _ IH]; [done|].
  pose proof (save_step_monotone _ _ key Hstep). lia.
Qed.

(** ** The feed validator *)

Lemma any_in_spec needles text :
  any_in needles text = true <->
  exists t, t ∈ needles /\ contains t text = true.
Proof.
  unfold any_in. rewrite existsb_exists. split.
  - intros (t & Hin & Ht). exists t. by rewrite list_elem_of_In.
  - intros (t & Hin & Ht). exists t. by rewrite <- list_elem_of_In.
Qed.

Lemma any_in_lower needles text :
  any_in needles (lower text) = true <->
  exists t, t ∈ needles /\ occurs_ignoring_case t text.
Proof.
  rewrite any_in_spec. split; intros (t & Hin & Ht); exists t;
    (split; [done|]); by apply contains_lower.
Qed.

(** What [_check_feed] returns for each answer of the network. *)
Lemma _check_feed_eq url session :
  _check_feed url session =
  (Returned
     match session (mkRequest url 5) with
     | Raised _ => false
     | Returned response =>
         if negb (status_code response =? 200)%Z then false
         else if any_in ["xml"; "rss"; "atom"]
                   (lower (default EmptyString (content_type response)))
              then true
              else any_in ["<rss"; "<feed"; "<?xml"; "<atom"]
                     (lower (take 500 (text response)))
     end, [mkRequest url 5]).
Proof.
  unfold _check_feed, get, try_except, iobind.
  destruct (session (mkRequest url 5)) as [response|e].
  - destruct (negb (status_code response =? 200)%Z); [done|].
    by destruct (any_in _ (lower (default _ _))).
  - by destruct e.
Qed.

(** C3.  The feed validator [_check_feed] never raises: whatever the
    network does, it returns a boolean after one GET with a timeout of 5
    seconds, and a failed fetch gives [false].  A status other than 200
    gives [false] whatever the body holds.  With status 200, a Content-Type
    in which "xml", "rss" or "atom" occurs (in any case) gives [true];
    otherwise the result is [true] exactly when one of the markers "<rss",
    "<feed", "<?xml", "<atom" occurs in the lower-cased first 500
    characters of the body. *)
Theorem _check_feed_classifies url session :
  (exists b, _check_feed url session = (Returned b, [mkRequest url 5]))
  /\ (forall e, session (mkRequest url 5) = Raised e ->
        fst (_check_feed url session) = Returned false)
  /\ (forall response, session (mkRequest url 5) = Returned response ->
        (status_code response <> 200%Z ->
           fst (_check_feed url session) = Returned false)
        /\ (status_code response = 200%Z ->
            (exists t, t ∈ ["xml"; "rss"; "atom"]
                       /\ occurs_ignoring_case t
                            (default EmptyString (content_type response))) ->
            fst (_check_feed url session) = Returned true)
        /\ (status_code response = 200%Z ->
            ~ (exists t, t ∈ ["xml"; "rss"; "atom"]
                         /\ occurs_ignoring_case t
                              (default EmptyString (content_type response))) ->
            (fst (_check_feed url session) = Returned true <->
             exists marker, marker ∈ ["<rss"; "<feed"; "<?xml"; "<atom"]
               /\ contains marker (lower (take 500 (text response))) = true))).
Proof.
  rewrite _check_feed_eq. split; [eauto|]. split.
  - intros e ->. done.
  - intros response ->. cbn [fst]. split; [|split].
    + intros Hs. apply Z.eqb_neq in Hs. by rewrite Hs.
    + intros Hs Hct. apply any_in_lower in Hct.
      apply Z.eqb_eq in Hs. by rewrite Hs, Hct.
    + intros Hs Hct. rewrite <- any_in_lower in Hct.
      apply not_true_is_false in Hct. apply Z.eqb_eq in Hs.
      rewrite Hs, Hct. cbn [negb]. rewrite <- any_in_spec.
      split; [intros H; congruence|intros H; by rewrite H].
Qed.

(** ** The hub-page heuristic *)






(** ** The per-site orchestrator *)

Local Arguments normalize_all : simpl never.
Local Arguments dict_fromkeys : simpl never.
Local Arguments join : simpl never.

(** [process_website] by cases on what its collaborators answer, for an
    input that normalizes to a non-empty URL. *)
Lemma process_website_unfold url feed_finder hub_parser session u :
  normalize_url url = Returned u -> is_empty u = false ->
  process_website url feed_finder hub_parser session =
  if any_in hub_patterns (lower u) then
    match parse_feeds_of hub_parser u session with
    | (Raised _, log) => (Returned (mkResult u "Not found"), log)
    | (Returned [], log) => (Returned (mkResult u "Not found"), log)
    | (Returned feed_objects, log) =>
        if (5 <? length feed_objects)%nat then
          match validate_feeds_of hub_parser feed_objects session with
          | (Raised _, log2) => (Returned (mkResult u "Not found"), log ++ log2)
          | (Returned valid, log2) =>
              (Returned (result_of_urls u (List.map rec_url valid)), log ++ log2)
          end
        else (Returned (result_of_urls u (List.map rec_url feed_objects)), log)
    end
  else
    match find_feeds_of feed_finder u session with
    | (Raised _, log) => (Returned (mkResult u "Not found"), log)
    | (Returned found_feeds, log) =>
        (Returned (result_of_urls u found_feeds), log)
    end.
Proof.
  intros Hu Hne. unfold process_website, lift, is_hub_page, ret, result_of_urls.
  rewrite Hu. cbn [iobind]. rewrite Hne. cbn [iobind try_except app].
  destruct (any_in hub_patterns (lower u)).
  - destruct (parse_feeds_of hub_parser u session) as [[[|f fo]|e] log].
    + cbn. by rewrite !app_nil_r.
    + cbn [iobind try_except]. set (l := f :: fo).
      destruct (5 <? length l)%nat.
      * destruct (validate_feeds_of hub_parser l session) as [[vs|e] log2].
        -- cbn [iobind try_except].
           destruct (normalize_all (List.map rec_url vs)) as [feeds|e].
           ++ cbn. by rewrite ?app_nil_r.
           ++ destruct e; cbn; by rewrite ?app_nil_r.
        -- destruct e; cbn; by rewrite ?app_nil_r.
      * cbn [iobind try_except app].
        destruct (normalize_all (List.map rec_url l)) as [feeds|e].
        -- cbn. by rewrite ?app_nil_r.
        -- destruct e; cbn; by rewrite ?app_nil_r.
    + destruct e; cbn; by rewrite ?app_nil_r.
  - destruct (find_feeds_of feed_finder u session) as [[found|e] log].
    + cbn [iobind try_except].
      destruct (normalize_all found) as [feeds|e].
      * cbn. by rewrite ?app_nil_r.
      * destruct e; cbn; by rewrite ?app_nil_r.
    + destruct e; cbn; by rewrite ?app_nil_r.
Qed.

Lemma process_website_invalid url feed_finder hub_parser session :
  normalize_url url = Returned EmptyString ->
  process_website url feed_finder hub_parser session
  = ret (mkResult url "Not found").
Proof. intros Hu. unfold process_website, lift. rewrite Hu. done. Qed.

(** Once the input normalizes, [process_website] returns a result, the
    site's own. *)
Lemma process_website_returns url feed_finder hub_parser session u :
  normalize_url url = Returned u ->
  exists r log,
    process_website url feed_finder hub_parser session = (Returned r, log)
    /\ website r = (if is_empty u then url else u).
Proof.
  intros Hu. destruct (is_empty u) eqn:He.
  - apply is_empty_true in He as ->.
    rewrite (process_website_invalid _ _ _ _ Hu). by eexists _, _.
  - rewrite (process_website_unfold _ _ _ _ _ Hu He).
    destruct (any_in hub_patterns (lower u)).
    + destruct (parse_feeds_of hub_parser u session) as [[[|f fo]|e] log];
        [by eexists _, _| |by eexists _, _].
      destruct (5 <? length (f :: fo))%nat; [|by eexists _, _].
      destruct (validate_feeds_of _ _ _) as [[vs|e] log2]; by eexists _, _.
    + destruct (find_feeds_of _ _ _) as [[found|e] log]; by eexists _, _.
Qed.

Lemma normalize_url_nil : normalize_url EmptyString = Returned EmptyString.
Proof. reflexivity. Qed.

(** A normalized site URL is a scheme and a network location, and
    parsing it again finds them with an empty path. *)
Lemma normalize_url_origin url u :
  normalize_url url = Returned u -> u <> EmptyString ->
  exists sch netloc,
    (sch = "http" \/ sch = "https")
    /\ u = sch +:+ "://" +:+ netloc
    /\ all_chr (fun c => negb (is_delim c)) netloc = true
    /\ urlparse u = Returned (mkParse sch netloc "" "" "" "")
    /\ normalize_url u = Returned u.
Proof.
  intros Hu Hne.
  assert (Hurl : url <> EmptyString).
  { intros ->. rewrite normalize_url_nil in Hu. by injection Hu as <-. }
  apply (normalize_url_inv _ _ Hurl) in Hu as (sch & t & r & Hs & _ & Hr & ->).
  pose proof (split_authority_chars (fun c => negb (_UNSAFE_URL_BYTES_TO_REMOVE c))
                _ _ _ Hr (remove_chrs_clean _ t)) as (Hcn & _ & _).
  apply split_authority_inv in Hr as (_ & _ & _ & Hcheck & _ & Hdelim & _).
  assert (Hparse : urlparse (sch +:+ "://" +:+ s_netloc r)
                   = Returned (mkParse sch (s_netloc r) "" "" "" "")).
  { rewrite (urlparse_http _ _ Hs), (remove_chrs_id _ _ Hcn).
    pose proof (split_authority_build sch (s_netloc r) "" ""
                  Hcheck Hdelim I eq_refl eq_refl eq_refl) as Hb.
    change (query_suffix "") with "" in Hb.
    rewrite !sapp_nil_r in Hb. by rewrite Hb. }
  exists sch, (s_netloc r). repeat split; try done.
  unfold normalize_url.
  assert (is_empty (sch +:+ "://" +:+ s_netloc r) = false) as ->.
  { by destruct Hs as [-> | ->]. }
  fold (with_scheme (sch +:+ "://" +:+ s_netloc r)).
  rewrite (with_scheme_prefixed _ _ Hs), Hparse. simpl.
  rewrite rstrip_id; [done|].
  eapply all_chr_impl; [|exact Hdelim]. intros c. unfold is_delim, is_slash, chr_in.
  simpl. by destruct (Ascii.eqb c "/").
Qed.

Lemma lstrip_all p s : all_chr p s = true -> lstrip p s = EmptyString.
Proof.
  induction s as [|c s IH]; [done|]. simpl. intros H.
  apply andb_true_iff in H as [-> H]. auto.
Qed.

(** [_try_nested_paths] probes nothing for a path that is empty or made
    of slashes. *)
Lemma _try_nested_paths_root base_url parsed session :
  all_chr is_slash (path parsed) = true ->
  _try_nested_paths base_url parsed session = ret [].
Proof.
  intros H. unfold _try_nested_paths, strip_chars.
  rewrite (lstrip_all _ _ H). simpl. by rewrite orb_true_r.
Qed.

Lemma find_feeds_strategies_nested url html_text base_url parsed session :
  all_chr is_slash (path parsed) = true ->
  exists r1 r2 r3 r4,
    fst (find_feeds_strategies url html_text base_url parsed session)
    = Returned [r1; r2; r3; r4; Returned []].
Proof.
  intros H. unfold find_feeds_strategies, gather.
  rewrite (_try_nested_paths_root _ _ _ H). cbn [fst List.map ret].
  by eexists _, _, _, _.
Qed.

Lemma any_in_nil needles : any_in needles EmptyString = true -> In EmptyString needles.
Proof.
  unfold any_in. rewrite existsb_exists. intros (t & Hin & Ht).
  destruct t; [done|]. simpl in Ht. done.
Qed.

Lemma hub_url_nonempty u : any_in hub_patterns (lower u) = true -> is_empty u = false.
Proof.
  destruct u; [|done]. intros H. apply any_in_nil in H.
  simpl in H. intuition discriminate.
Qed.

(** ** The route decision *)

Lemma lower_chr_slash c : Ascii.eqb "/" (lower_chr c) = Ascii.eqb "/" c.
Proof. by destruct c as [[] [] [] [] [] [] [] []]. Qed.

Lemma has_chr_slash_lower s : has_chr "/" (lower s) = has_chr "/" s.
Proof.
  induction s as [|c s IH]; [done|]. cbn [lower has_chr].
  by rewrite lower_chr_slash, IH.
Qed.

Lemma contains_slash_pattern q s :
  has_chr "/" s = false -> contains (String "/" q) s = false.
Proof.
  induction s as [|c s IH]; [done|]. cbn [has_chr].
  rewrite orb_false_iff. intros [Hc Hs].
  rewrite contains_cons, (IH Hs), orb_false_r. cbn [startswith].
  by rewrite Hc.
Qed.

Lemma any_in_hub_origin sch host :
  sch = "http" \/ sch = "https" -> has_chr "/" host = false ->
  any_in hub_patterns (sch +:+ "://" +:+ host)
  = existsb (startswith host) hub_host_prefixes.
Proof.
  intros Hs Hh. unfold any_in, hub_patterns, hub_host_prefixes. cbn [existsb].
  destruct Hs as [-> | ->]; rewrite !sapp_cons, !sapp_nil_l, !contains_cons;
    rewrite !(contains_slash_pattern _ host Hh), !orb_false_r; reflexivity.
Qed.

(** On a normalized site URL the hub check reads the network location
    only. *)
Lemma is_hub_page_origin url u session :
  normalize_url url = Returned u -> u <> EmptyString ->
  exists sch netloc,
    u = sch +:+ "://" +:+ netloc
    /\ is_hub_page u session
       = ret (existsb (startswith (lower netloc)) hub_host_prefixes).
Proof.
  intros Hu Hne.
  destruct (normalize_url_origin _ _ Hu Hne) as (sch & netloc & Hs & -> & Hd & _).
  exists sch, netloc. split; [done|]. unfold is_hub_page. f_equal.
  rewrite !lower_app.
  assert (lower sch = sch) as -> by by destruct Hs as [-> | ->].
  change (lower "://") with "://".
  apply (any_in_hub_origin _ _ Hs). rewrite has_chr_slash_lower.
  apply (all_chr_has_chr _ _ _ Hd). done.
Qed.

(** C10.  When normalizing the input gives a falsy value, which happens
    exactly for the empty input, the result of [process_website] carries
    the raw input as [website] (and "Not found"), and that text is not of
    the form scheme://host; on every other path [website] is the
    normalized URL, a scheme http or https and a network location. *)
Theorem website_of_invalid_input url feed_finder hub_parser session u :
  normalize_url url = Returned u ->
  (is_empty u = true <-> url = EmptyString)
  /\ (is_empty u = true ->
      process_website url feed_finder hub_parser session
      = ret (mkResult url "Not found")
      /\ ~ (exists sch host, url = sch +:+ "://" +:+ host))
  /\ (is_empty u = false ->
      (exists r log,
         process_website url feed_finder hub_parser session = (Returned r, log)
         /\ website r = u)
      /\ (exists sch netloc,
            (sch = "http" \/ sch = "https")
            /\ u = sch +:+ "://" +:+ netloc
            /\ all_chr (fun c => negb (is_delim c)) netloc = true)).
Proof.
  intros Hu.
  assert (Hiff : is_empty u = true <-> url = EmptyString).
  { rewrite is_empty_true. split.
    - intros ->. destruct (decide (url = EmptyString)) as [|Hne]; [done|].
      apply (normalize_url_inv _ _ Hne) in Hu as (sch & t & r & Hs & _ & _ & Hu).
      by destruct Hs as [-> | ->].
    - intros ->. rewrite normalize_url_nil in Hu. by injection Hu as <-. }
  split; [exact Hiff|]. split.
  - intros He. pose proof (proj1 Hiff He) as ->.
    apply is_empty_true in He as ->. split.
    + by apply process_website_invalid.
    + intros (sch & host & H). destruct sch; done.
  - intros He. split.
    + destruct (process_website_returns url feed_finder hub_parser session u Hu)
        as (r & log & Hr & Hw).
      rewrite He in Hw. by exists r, log.
    + apply is_empty_false in He.
      destruct (normalize_url_origin _ _ Hu He) as (sch & netloc & Hs & -> & Hd & _).
      by exists sch, netloc.
Qed.

(** C9.  [_try_nested_paths] returns the empty list, without a request,
    whenever the parsed path is empty or made of slashes.  In the
    orchestrated flow this is always so: [process_website] consults the
    finder only at the normalized site URL, which is a scheme and a
    network location and parses with an empty path, so the fifth of the
    gathered strategies of [find_feeds] yields the empty list. *)
Theorem nested_paths_never_contribute :
  (forall base_url parsed session,
     all_chr is_slash (path parsed) = true ->
     _try_nested_paths base_url parsed session = ret [])
  /\ (forall url u,
        normalize_url url = Returned u -> u <> EmptyString ->
        (exists sch netloc,
           (sch = "http" \/ sch = "https")
           /\ u = sch +:+ "://" +:+ netloc
           /\ urlparse u = Returned (mkParse sch netloc "" "" "" "")
           /\ normalize_url u = Returned u)
        /\ (forall feed_finder feed_finder' hub_parser session,
              find_feeds_of feed_finder u session
              = find_feeds_of feed_finder' u session ->
              process_website url feed_finder hub_parser session
              = process_website url feed_finder' hub_parser session)
        /\ (forall parsed session,
              urlparse u = Returned parsed ->
              path parsed = EmptyString
              /\ _try_nested_paths u parsed session = ret [])
        /\ (forall parsed html_text session,
              urlparse u = Returned parsed ->
              exists r1 r2 r3 r4,
                fst (find_feeds_strategies u html_text u parsed session)
                = Returned [r1; r2; r3; r4; Returned []])).
Proof.
  split; [apply _try_nested_paths_root|].
  intros url u Hu Hne.
  destruct (normalize_url_origin _ _ Hu Hne)
    as (sch & netloc & Hs & Heq & Hd & Hparse & Hagain).
  split; [by exists sch, netloc; rewrite <- Heq|]. split; [|split].
  - intros ff ff' hp session Hff. apply is_empty_false in Hne.
    by rewrite !(process_website_unfold _ _ _ _ _ Hu Hne), Hff.
  - intros parsed session Hp. rewrite Hparse in Hp. injection Hp as <-.
    split; [done|]. by apply _try_nested_paths_root.
  - intros parsed html session Hp. rewrite Hparse in Hp. injection Hp as <-.
    by apply find_feeds_strategies_nested.
Qed.

(** C1, as the code has it.  The input "news.example.com/rss" has a hub
    pattern in its path, yet [process_website] runs the check on the
    normalized site URL "https://news.example.com", where it is false: the
    hub parser is not consulted and the generic finder runs.  In general
    the check on a normalized site URL reads the network location only,
    so the path of the input never decides the route. *)
Theorem hub_check_runs_on_origin :
  (forall session,
     is_hub_page "news.example.com/rss" session = ret true)
  /\ normalize_url "news.example.com/rss" = Returned "https://news.example.com"
  /\ (forall session, is_hub_page "https://news.example.com" session = ret false)
  /\ (forall feed_finder hub_parser session,
        process_website "news.example.com/rss" feed_finder hub_parser session
        = match find_feeds_of feed_finder "https://news.example.com" session with
          | (Raised _, log) =>
              (Returned (mkResult "https://news.example.com" "Not found"), log)
          | (Returned found_feeds, log) =>
              (Returned (result_of_urls "https://news.example.com" found_feeds), log)
          end)
  /\ (forall url u session,
        normalize_url url = Returned u -> u <> EmptyString ->
        exists sch netloc,
          u = sch +:+ "://" +:+ netloc
          /\ is_hub_page u session
             = ret (existsb (startswith (lower netloc)) hub_host_prefixes)).
Proof.
  assert (Hu : normalize_url "news.example.com/rss"
               = Returned "https://news.example.com") by reflexivity.
  split; [done|]. split; [exact Hu|]. split; [done|]. split.
  - intros ff hp session.
    by rewrite (process_website_unfold _ ff hp session _ Hu eq_refl).
  - intros url u session. apply is_hub_page_origin.
Qed.

(** ** Batch validation on the hub route *)

Lemma check_feed_eq feed session :
  check_feed feed session
  = (Returned (if feed_validates session feed then Some feed else None),
     [mkRequest (rec_url feed) 5]).
Proof.
  unfold feed_validates, check_feed, get, try_except, iobind.
  destruct (session (mkRequest (rec_url feed) 5)) as [response|e]; [|done].
  destruct (negb (status_code response =? 200)%Z); [done|].
  destruct (any_in _ (lower (default _ _))); [done|].
  by destruct (any_in _ (lower (take _ _))).
Qed.

(** The inner check of [validate_feeds] classifies like [_check_feed]. *)
Lemma feed_validates_check_feed session feed :
  feed_validates session feed = true <->
  fst (_check_feed (rec_url feed) session) = Returned true.
Proof.
  rewrite _check_feed_eq. unfold feed_validates, check_feed, get, try_except, iobind.
  cbn [fst].
  destruct (session (mkRequest (rec_url feed) 5)) as [response|e]; [|done].
  destruct (negb (status_code response =? 200)%Z); [done|].
  destruct (any_in _ (lower (default _ _))); [done|].
  by destruct (any_in _ (lower (take _ _))).
Qed.

Lemma valid_results_cons result results :
  valid_results (result :: results)
  = match result with
    | Returned (Some f) => f :: valid_results results
    | _ => valid_results results
    end.
Proof. by destruct result as [[f|]|e]. Qed.

Lemma validate_feeds_eq feeds session :
  validate_feeds feeds session
  = (Returned (List.filter (feed_validates session) feeds),
     List.map (fun feed => mkRequest (rec_url feed) 5) feeds).
Proof.
  unfold validate_feeds, gather, iobind, ret. rewrite app_nil_r. f_equal.
  - f_equal. induction feeds as [|f feeds IH]; [done|].
    cbn [List.map List.filter]. rewrite check_feed_eq. cbn [fst].
    rewrite valid_results_cons, IH.
    by destruct (feed_validates session f).
  - induction feeds as [|f feeds IH]; [done|].
    cbn [List.map concat]. rewrite check_feed_eq. cbn [snd app]. by rewrite IH.
Qed.

Lemma normalize_all_cons feed_url rest :
  normalize_all (feed_url :: rest)
  = (let? normalized := normalize_feed_url (PyStr feed_url) in
     let? feeds := normalize_all rest in
     match normalized with
     | Some n => Returned (if truthy normalized then n :: feeds else feeds)
     | None => Returned feeds
     end).
Proof. reflexivity. Qed.

(** What [process_website] keeps of the URLs it normalizes. *)
Lemma normalize_all_spec urls feeds :
  normalize_all urls = Returned feeds ->
  forall x, x ∈ feeds <->
    exists v, v ∈ urls /\ normalize_feed_url (PyStr v) = Returned (Some x).
Proof.
  revert feeds. induction urls as [|v urls IH]; intros feeds.
  - intros [= <-] x. split; [by intros ?%elem_of_nil|].
    intros (w & Hw & _). by apply elem_of_nil in Hw.
  - rewrite normalize_all_cons.
    destruct (normalize_feed_url (PyStr v)) as [[n|]|e] eqn:Hv; [| |done];
      cbn [obind]; destruct (normalize_all urls) as [rest|e]; try done;
      cbn [obind]; specialize (IH rest eq_refl).
    + destruct (normalize_feed_url_head _ _ Hv) as [n' ->]. cbn [truthy is_empty negb].
      intros [= <-] x. rewrite elem_of_cons, IH. split.
      * intros [-> | (w & Hw & Hx)]; [exists v|exists w];
          rewrite elem_of_cons; auto.
      * intros (w & [-> | Hw]%elem_of_cons & Hx); [|eauto].
        left. rewrite Hv in Hx. by injection Hx as <-.
    + intros [= <-] x. rewrite IH. split.
      * intros (w & Hw & Hx). exists w. rewrite elem_of_cons. auto.
      * intros (w & [-> | Hw]%elem_of_cons & Hx); [congruence|eauto].
Qed.

Lemma dict_fromkeys_from_spec seen l x :
  x ∈ dict_fromkeys_from seen l <-> x ∈ l /\ x ∉ seen.
Proof.
  drop_vars.
  revert seen. induction l as [|y l IH]; intros seen; cbn [dict_fromkeys_from].
  - split; [by intros ?%elem_of_nil|]. intros [H _]. by apply elem_of_nil in H.
  - destruct (mem y seen) eqn:Hm.
    + apply mem_spec in Hm. rewrite IH, elem_of_cons. split; [tauto|].
      intros [[-> | H] Hx]; [done|tauto].
    + apply mem_false in Hm. rewrite !elem_of_cons, IH, elem_of_cons.
      destruct (decide (x = y)) as [->|Hne]; [tauto|]. tauto.
Qed.

Lemma dict_fromkeys_spec l x : x ∈ dict_fromkeys l <-> x ∈ l.
Proof.
  drop_vars.
  unfold dict_fromkeys. rewrite dict_fromkeys_from_spec. split; [tauto|].
  intros H. split; [done|]. by intros ?%elem_of_nil.
Qed.

(** The limiter never has more than its 10 permits out. *)
Lemma limiter_invariant feeds st :
  rtc limiter_step (validate_start feeds) st ->
  length (in_flight st) + permits st = 10.
Proof.
  revert st. apply rtc_ind_r; [done|].
  intros mid st _ Hstep IH. destruct Hstep; cbn in *.
  - lia.
  - rewrite length_app in *. cbn in *. lia.
Qed.

(** C8.  On the hub route, when the hub parser yields more than 5
    records, [validate_feeds] runs and the result is built from the
    records it keeps, so only records whose URL validates enter it; when
    it yields between 1 and 5 records, the result is built from all of
    them and no request beyond those of the parser is issued.
    [validate_feeds] keeps exactly the records whose URL passes the check
    of the feed validator, after one GET each, and its limiter never has
    more than 10 checks in flight. *)
Theorem hub_route_validates_large_results :
  (forall url feed_finder hub_parser session u feed_objects log,
     normalize_url url = Returned u ->
     any_in hub_patterns (lower u) = true ->
     parse_feeds_of hub_parser u session = (Returned feed_objects, log) ->
     (5 < length feed_objects ->
      forall valid log2,
        validate_feeds_of hub_parser feed_objects session = (Returned valid, log2) ->
        process_website url feed_finder hub_parser session
        = (Returned (result_of_urls u (List.map rec_url valid)), log ++ log2))
     /\ (1 <= length feed_objects <= 5 ->
         process_website url feed_finder hub_parser session
         = (Returned (result_of_urls u (List.map rec_url feed_objects)), log)))
  /\ (forall feeds session,
        validate_feeds feeds session
        = (Returned (List.filter (feed_validates session) feeds),
           List.map (fun feed => mkRequest (rec_url feed) 5) feeds))
  /\ (forall feed session,
        feed_validates session feed = true <->
        fst (_check_feed (rec_url feed) session) = Returned true)
  /\ (forall u records feeds,
        normalize_all (List.map rec_url records) = Returned feeds ->
        rss (result_of_urls u (List.map rec_url records))
        = rss_text (dict_fromkeys feeds)
        /\ forall x, x ∈ dict_fromkeys feeds <->
             exists f, f ∈ records
               /\ normalize_feed_url (PyStr (rec_url f)) = Returned (Some x))
  /\ (forall feeds st,
        rtc limiter_step (validate_start feeds) st ->
        length (in_flight st) <= 10).
Proof.
  split; [|split; [|split; [|split]]].
  - intros url ff hp session u fo log Hu Hhub Hparse.
    pose proof (hub_url_nonempty _ Hhub) as Hne.
    rewrite (process_website_unfold _ ff hp session _ Hu Hne), Hhub, Hparse.
    split.
    + intros Hlen valid log2 Hv. destruct fo as [|f fo]; [cbn in Hlen; lia|].
      apply Nat.ltb_lt in Hlen. by rewrite Hlen, Hv.
    + intros [Hlo Hhi]. destruct fo as [|f fo]; [cbn in Hlo; lia|].
      assert ((5 <? length (f :: fo))%nat = false) as ->; [|done].
      apply Nat.ltb_ge. lia.
  - apply validate_feeds_eq.
  - intros feed session. apply feed_validates_check_feed.
  - intros u records feeds Hn. unfold result_of_urls. rewrite Hn. split; [done|].
    intros x. rewrite dict_fromkeys_spec, (normalize_all_spec _ _ Hn). split.
    + intros (v & Hv & Hx). apply list_elem_of_fmap in Hv as (f & -> & Hf). eauto.
    + intros (f & Hf & Hx). exists (rec_url f). split; [|done].
      apply list_elem_of_fmap. eauto.
  - intros feeds st H. pose proof (limiter_invariant _ _ H). lia.
Qed.

(** ** Failures and the batch *)








(** ** The claims on normalization and persistence *)

Lemma normalize_feed_url_parsed s parsed :
  strip s <> EmptyString ->
  urlparse (with_scheme (strip s)) = Returned parsed ->
  normalize_feed_url (PyStr s)
  = Returned (Some (scheme parsed +:+ "://" +:+ netloc parsed
                      +:+ rstrip is_slash (path parsed)
                      +:+ query_suffix (query parsed))).
Proof.
  intros Hne Hp. destruct (with_scheme_cases (strip s)) as (sch & t & Hs & Hw).
  rewrite (normalize_feed_url_eq s sch t Hs Hne Hw).
  rewrite Hw, (urlparse_http _ _ Hs) in Hp.
  destruct (split_authority _ _) as [r|e]; [|done]. cbn in Hp.
  by injection Hp as <-.
Qed.

Lemma normalize_feed_url_parse_raises s e :
  strip s <> EmptyString ->
  urlparse (with_scheme (strip s)) = Raised e ->
  normalize_feed_url (PyStr s) = Raised e.
Proof.
  intros Hne Hp. destruct (with_scheme_cases (strip s)) as (sch & t & Hs & Hw).
  rewrite (normalize_feed_url_eq s sch t Hs Hne Hw).
  rewrite Hw, (urlparse_http _ _ Hs) in Hp.
  destruct (split_authority _ _) as [r|e']; [done|].
  cbn in *. congruence.
Qed.

(** C2, as the code has it.  [normalize_feed_url] gives [None] for a value
    that is not a string and for an empty or blank string; it trims
    whitespace; it puts "https://" before a trimmed text that starts with
    neither "http://" nor "https://"; when [urlparse] accepts the text, the
    result is scheme, "://", network location, the path without any of its
    trailing slashes, and "?" with the query exactly when the query is not
    empty, so it holds no "#"; when [urlparse] raises, so does
    [normalize_feed_url].  On "http://x.com/feed/?a=1#frag" the result is
    "http://x.com/feed?a=1". *)
Theorem normalize_feed_url_rules :
  normalize_feed_url PyNone = Returned None
  /\ (forall n, normalize_feed_url (PyInt n) = Returned None)
  /\ (forall s, strip s = EmptyString -> normalize_feed_url (PyStr s) = Returned None)
  /\ (forall s, normalize_feed_url (PyStr s) = normalize_feed_url (PyStr (strip s)))
  /\ (forall s,
        strip s <> EmptyString ->
        startswith_any (strip s) ["http://"; "https://"] = false ->
        normalize_feed_url (PyStr s)
        = normalize_feed_url (PyStr ("https://" +:+ strip s)))
  /\ (forall s,
        strip s <> EmptyString ->
        match urlparse (with_scheme (strip s)) with
        | Returned parsed =>
            normalize_feed_url (PyStr s)
            = Returned (Some (scheme parsed +:+ "://" +:+ netloc parsed
                                +:+ rstrip is_slash (path parsed)
                                +:+ query_suffix (query parsed)))
        | Raised e => normalize_feed_url (PyStr s) = Raised e
        end)
  /\ (forall s n,
        normalize_feed_url (PyStr s) = Returned (Some n) ->
        exists parsed stripped slashes,
          urlparse (with_scheme (strip s)) = Returned parsed
          /\ path parsed = stripped +:+ slashes
          /\ all_chr is_slash slashes = true
          /\ last_chr_is is_slash stripped = false
          /\ n = scheme parsed +:+ "://" +:+ netloc parsed +:+ stripped
                   +:+ query_suffix (query parsed)
          /\ has_chr "#" n = false
          /\ (has_chr "?" n = true <-> query parsed <> EmptyString))
  /\ normalize_feed_url (PyStr "http://x.com/feed/?a=1#frag")
     = Returned (Some "http://x.com/feed?a=1").
Proof.
  split; [done|]. split; [done|].
  split; [apply normalize_feed_url_blank|].
  split; [apply normalize_feed_url_strip|].
  split; [apply normalize_feed_url_prepend|].
  split; [|split; [apply normalize_feed_url_shape|reflexivity]].
  intros s Hne. destruct (urlparse (with_scheme (strip s))) as [parsed|e] eqn:Hp.
  - by apply normalize_feed_url_parsed.
  - by apply normalize_feed_url_parse_raises.
Qed.

Lemma normalize_feed_list_members rss L :
  normalize_feed_list rss = Returned L ->
  rss <> EmptyString -> rss <> "Not found" ->
  forall n, n ∈ L <->
    exists u, u ∈ split ";" rss
              /\ normalize_feed_url (PyStr u) = Returned (Some n).
Proof.
  intros H Hne Hnf n.
  apply normalize_feed_list_inv in H as [[Ht _] | [_ (L0 & H0 & ->)]].
  - apply orb_true_iff in Ht as [Ht | Ht].
    + by apply is_empty_true in Ht.
    + by apply String.eqb_eq in Ht.
  - destruct (normalize_unique_spec _ _ _ H0 (NoDup_nil_2)) as [_ Hiff].
    rewrite sorted_Permutation, Hiff. split; [|auto].
    intros [Hn | Hn]; [by apply elem_of_nil in Hn|done].
Qed.

(** C6, as the code has it.  [normalize_feed_list] gives the empty list
    for "Not found" and for the empty text.  Whenever it returns (no
    piece makes [urlparse] raise), the list is in lexicographic order and
    free of duplicates, its elements are exactly the normalized URLs of
    the pieces between semicolons, and normalizing the list joined by "; "
    gives the same list provided none of its URLs ends in a whitespace
    character.  On "http://a.com/f; http://a.com/f/; http://b.com/g" it
    gives "http://a.com/f" and "http://b.com/g". *)
Theorem normalize_feed_list_rules :
  normalize_feed_list "Not found" = Returned []
  /\ normalize_feed_list EmptyString = Returned []
  /\ (forall rss L,
        normalize_feed_list rss = Returned L ->
        Sorted String.le L /\ NoDup L
        /\ (rss <> EmptyString -> rss <> "Not found" ->
            forall n, n ∈ L <->
              exists u, u ∈ split ";" rss
                        /\ normalize_feed_url (PyStr u) = Returned (Some n))
        /\ (Forall (fun n => last_chr_is isspace n = false) L ->
            normalize_feed_list (join "; " L) = Returned L))
  /\ normalize_feed_list "http://a.com/f; http://a.com/f/; http://b.com/g"
     = Returned ["http://a.com/f"; "http://b.com/g"].
Proof.
  split; [done|]. split; [done|]. split; [|by vm_compute].
  intros rss L H. destruct (normalize_feed_list_elems _ _ H) as (Hs & Hnd & _).
  split; [done|]. split; [done|]. split.
  - by apply normalize_feed_list_members.
  - by apply (normalize_feed_list_again rss).
Qed.

(** C4.  When a row is stored for the site, [save_website_result]
    overwrites it exactly when the new normalized list has strictly more
    feeds than the stored text counts, and the row then counts as many
    feeds as the new list: with 3 feeds stored a list of 2 leaves the table
    as it is and a list of 4 replaces the row; ties and decreases are
    skipped.  Over any sequence of successful saves the number of feeds
    stored for a site never decreases. *)
Theorem save_website_result_policy :
  (forall db website_url rss_string key new_list old_feed_string,
     normalize_url website_url = Returned key ->
     normalize_feed_list rss_string = Returned new_list ->
     db !! key = Some old_feed_string ->
     save_website_result db website_url rss_string
     = Returned (if (length (stored_list old_feed_string) <? length new_list)%nat
                 then <[key := Some (join "; " new_list)]> db
                 else db)
     /\ (length (stored_list old_feed_string) < length new_list ->
         stored_count (<[key := Some (join "; " new_list)]> db !! key)
         = length new_list)
     /\ (length new_list <= length (stored_list old_feed_string) ->
         save_website_result db website_url rss_string = Returned db)
     /\ (length (stored_list old_feed_string) = 3 -> length new_list = 2 ->
         save_website_result db website_url rss_string = Returned db)
     /\ (length (stored_list old_feed_string) = 3 -> length new_list = 4 ->
         save_website_result db website_url rss_string
         = Returned (<[key := Some (join "; " new_list)]> db)))
  /\ (forall db db' key,
        rtc save_step db db' ->
        stored_count (db !! key) <= stored_count (db' !! key)).
Proof.
  split; [|intros db db' key; apply saves_monotone].
  intros db w rss key new_list old Hk Hl Hold.
  rewrite (save_website_result_eq db w rss key new_list Hk Hl), Hold.
  split; [done|]. split; [|split; [|split]].
  - intros Hlt. rewrite lookup_insert_eq. unfold stored_count.
    apply (normalize_feed_list_stored rss); [done|].
    intros ->. cbn in Hlt. lia.
  - intros Hle. by rewrite (proj2 (Nat.ltb_ge _ _) Hle).
  - intros -> ->. done.
  - intros -> ->. done.
Qed.

(** ** The CMS table *)

Lemma contains_trans a b s :
  contains a b = true -> contains b s = true -> contains a s = true.
Proof.
  rewrite !contains_spec. intros (p & q & ->) (u & v & ->).
  exists (u +:+ p), (q +:+ v). by rewrite !sapp_assoc.
Qed.

Lemma detect_cms_cases html_text :
  detect_cms html_text
  = if contains "wp-" (lower html_text) then Some "wordpress"
    else if contains "drupal" (lower html_text) then Some "drupal"
    else if contains "/ghost/" (lower html_text) then Some "ghost"
    else if contains "medium.com" (lower html_text) then Some "medium"
    else None.
Proof.
  unfold detect_cms.
  destruct (contains "wp-content" (lower html_text)) eqn:Hc; [|done].
  assert (contains "wp-" (lower html_text) = true) as ->; [|done].
  by apply (contains_trans _ "wp-content").
Qed.

(** X1.  [detect_cms] reads the lower-cased page and answers by priority:
    "wordpress" exactly when "wp-" occurs in the page in any case (the test
    for "wp-content" adds nothing), else "drupal" when "drupal" occurs,
    else "ghost" when "/ghost/" occurs, else "medium" when "medium.com"
    occurs, else nothing.  Every name it answers has a non-empty list of
    feed paths, each starting with a slash, and [get_cms_feed_paths] gives
    the empty list for any other name. *)
Theorem detect_cms_priority html_text :
  (detect_cms html_text = Some "wordpress"
   <-> occurs_ignoring_case "wp-" html_text)
  /\ (detect_cms html_text = Some "drupal"
      <-> ~ occurs_ignoring_case "wp-" html_text
          /\ occurs_ignoring_case "drupal" html_text)
  /\ (detect_cms html_text = Some "ghost"
      <-> ~ occurs_ignoring_case "wp-" html_text
          /\ ~ occurs_ignoring_case "drupal" html_text
          /\ occurs_ignoring_case "/ghost/" html_text)
  /\ (detect_cms html_text = Some "medium"
      <-> ~ occurs_ignoring_case "wp-" html_text
          /\ ~ occurs_ignoring_case "drupal" html_text
          /\ ~ occurs_ignoring_case "/ghost/" html_text
          /\ occurs_ignoring_case "medium.com" html_text)
  /\ (detect_cms html_text = None
      <-> ~ occurs_ignoring_case "wp-" html_text
          /\ ~ occurs_ignoring_case "drupal" html_text
          /\ ~ occurs_ignoring_case "/ghost/" html_text
          /\ ~ occurs_ignoring_case "medium.com" html_text)
  /\ (forall cms,
        detect_cms html_text = Some cms ->
        get_cms_feed_paths cms <> []
        /\ Forall (fun path => startswith path "/" = true) (get_cms_feed_paths cms))
  /\ (forall cms,
        cms ∉ ["wordpress"; "drupal"; "ghost"; "medium"] ->
        get_cms_feed_paths cms = []).
Proof.
  drop_vars.
  assert (Hpaths : forall cms,
            detect_cms html_text = Some cms ->
            get_cms_feed_paths cms <> []
            /\ Forall (fun path => startswith path "/" = true)
                 (get_cms_feed_paths cms)).
  { intros cms. rewrite detect_cms_cases.
    repeat case_match; intros [= <-]; (split; [done | repeat constructor]). }
  assert (Hother : forall cms,
            cms ∉ ["wordpress"; "drupal"; "ghost"; "medium"] ->
            get_cms_feed_paths cms = []).
  { intros cms Hcms. unfold get_cms_feed_paths.
    repeat match goal with
           | |- context [String.eqb cms ?k] =>
               destruct (String.eqb_spec cms k) as [->|_];
               [exfalso; apply Hcms, list_elem_of_In; simpl; tauto|]
           end; done. }
  split_and!; [..| exact Hpaths | exact Hother];
    rewrite detect_cms_cases, <- !contains_lower;
    repeat case_match; intuition congruence.
Qed.

(** ** The probing strategies of the finder *)

Lemma passes_check_spec session url :
  passes_check session url = true <->
  fst (_check_feed url session) = Returned true.
Proof.
  unfold passes_check. rewrite _check_feed_eq. cbn [fst].
  by repeat case_match.
Qed.

Lemma check_all_eq urls session :
  check_all urls session
  = (Returned (List.filter (passes_check session) urls),
     List.map (fun url => mkRequest url 5) urls).
Proof.
  unfold check_all, gather, iobind, ret. rewrite app_nil_r. f_equal.
  - f_equal. induction urls as [|u urls IH]; [done|].
    cbn [List.map List.filter confirmed]. unfold passes_check at 1.
    rewrite IH. destruct (fst (_check_feed u session)) as [[|]|]; done.
  - induction urls as [|u urls IH]; [done|].
    cbn [List.map concat]. rewrite _check_feed_eq. cbn [snd app]. by rewrite IH.
Qed.

Lemma elem_of_bool_filter {A} (f : A -> bool) (l : list A) x :
  x ∈ List.filter f l <-> x ∈ l /\ f x = true.
Proof. rewrite !list_elem_of_In. apply filter_In. Qed.

Lemma sublist_bool_filter {A} (f : A -> bool) (l : list A) :
  List.filter f l `sublist_of` l.
Proof.
  induction l as [|x l IH]; simpl; [constructor|].
  destruct (f x); by constructor.
Qed.

Lemma NoDup_bool_filter {A} (f : A -> bool) (l : list A) :
  NoDup l -> NoDup (List.filter f l).
Proof. intros H. eapply sublist_NoDup; [done|apply sublist_bool_filter]. Qed.

Lemma length_bool_filter {A} (f : A -> bool) (l : list A) :
  length (List.filter f l) <= length l.
Proof. induction l as [|x l IH]; simpl; [lia|]. destruct (f x); simpl; lia. Qed.

Lemma length_list_omap {A B} (f : A -> option B) (l : list A) :
  length (omap f l) <= length l.
Proof.
  induction l as [|x l IH]; simpl; [lia|].
  change (list_omap A B f l) with (omap f l). destruct (f x); simpl; lia.
Qed.

Lemma join_all_Returned url hrefs fulls :
  join_all url hrefs = Returned fulls ->
  Forall2 (fun href full => urljoin url href = Returned full) hrefs fulls.
Proof.
  revert fulls. induction hrefs as [|h hrefs IH]; intros fulls; simpl.
  - intros [= <-]. constructor.
  - destruct (urljoin url h) as [full|] eqn:Hj; [|done]. simpl.
    destruct (join_all url hrefs) as [fs|]; [|done]. simpl.
    intros [= <-]. constructor; [done|]. by apply IH.
Qed.

Lemma join_all_Raised url hrefs e :
  join_all url hrefs = Raised e ->
  exists href, href ∈ hrefs /\ urljoin url href = Raised e.
Proof.
  induction hrefs as [|h hrefs IH]; simpl; [done|].
  destruct (urljoin url h) as [full|e'] eqn:Hj; simpl.
  - destruct (join_all url hrefs) as [fs|e']; simpl; [done|].
    intros [= ->]. destruct IH as (href & Hin & Hr); [done|].
    exists href. split; [by right|done].
  - intros [= ->]. exists h. split; [by left|done].
Qed.

Lemma join_all_length url hrefs fulls :
  join_all url hrefs = Returned fulls -> length fulls = length hrefs.
Proof. intros H%join_all_Returned. symmetry. by eapply Forall2_length. Qed.

Lemma dict_fromkeys_from_NoDup seen l : NoDup (dict_fromkeys_from seen l).
Proof.
  revert seen. induction l as [|x l IH]; intros seen; simpl; [constructor|].
  destruct (mem x seen) eqn:Hm; [apply IH|].
  constructor; [|apply IH].
  rewrite dict_fromkeys_from_spec. intros [_ Hn]. apply Hn. by left.
Qed.

Lemma dict_fromkeys_NoDup l : NoDup (dict_fromkeys l).
Proof. apply dict_fromkeys_from_NoDup. Qed.

Lemma dict_fromkeys_from_id seen l :
  NoDup l -> (forall x, x ∈ l -> x ∉ seen) -> dict_fromkeys_from seen l = l.
Proof.
  revert seen. induction l as [|x l IH]; intros seen Hnd Hs; simpl; [done|].
  apply NoDup_cons in Hnd as [Hx Hnd].
  assert (mem x seen = false) as ->.
  { apply mem_false, Hs. by left. }
  f_equal. apply IH; [done|].
  intros y Hy [->|Hin]%elem_of_cons; [done|].
  by apply (Hs y); [right|].
Qed.

Lemma dict_fromkeys_id l : NoDup l -> dict_fromkeys l = l.
Proof. intros H. apply dict_fromkeys_from_id; [done|]. intros x _. apply not_elem_of_nil. Qed.

(** X2.  The probing of fixed paths never raises and does not depend on
    the answers: [_try_common_paths] issues one GET with a timeout of 5
    seconds for each of the 16 common paths appended to the base URL, in
    the order of the list, and returns, in that order, exactly the probed
    URLs for which [_check_feed] answers [True]; [_try_cms_paths] does the
    same with the paths of the CMS, at most 3 of them, and none for an
    unknown CMS. *)
Theorem _try_common_paths_probes base_url session :
  _try_common_paths base_url session
  = (Returned (List.filter (passes_check session)
                 (List.map (fun path => base_url +:+ path) common_paths)),
     List.map (fun path => mkRequest (base_url +:+ path) 5) common_paths)
  /\ length (snd (_try_common_paths base_url session)) = 16
  /\ (forall cms,
        _try_cms_paths base_url cms session
        = (Returned (List.filter (passes_check session)
                       (List.map (fun path => base_url +:+ path)
                          (get_cms_feed_paths cms))),
           List.map (fun path => mkRequest (base_url +:+ path) 5)
             (get_cms_feed_paths cms))
        /\ length (snd (_try_cms_paths base_url cms session)) <= 3
        /\ (cms ∉ ["wordpress"; "drupal"; "ghost"; "medium"] ->
            _try_cms_paths base_url cms session = ret []))
  /\ (forall url,
        passes_check session url = true <->
        fst (_check_feed url session) = Returned true).
Proof.
  drop_vars.
  assert (Hc : forall paths,
            check_all (List.map (fun path => base_url +:+ path) paths) session
            = (Returned (List.filter (passes_check session)
                           (List.map (fun path => base_url +:+ path) paths)),
               List.map (fun path => mkRequest (base_url +:+ path) 5) paths)).
  { intros paths. by rewrite check_all_eq, List.map_map. }
  split_and!.
  - apply Hc.
  - unfold _try_common_paths. by rewrite Hc.
  - intros cms. unfold _try_cms_paths. rewrite Hc. split_and!; [done|..].
    + cbn [snd]. rewrite length_map. unfold get_cms_feed_paths.
      repeat case_match; simpl; lia.
    + intros Hcms. unfold get_cms_feed_paths.
      repeat match goal with
             | |- context [String.eqb cms ?k] =>
                 destruct (String.eqb_spec cms k) as [->|_];
                 [exfalso; apply Hcms, list_elem_of_In; simpl; tauto|]
             end; done.
  - apply passes_check_spec.
Qed.

(** X3.  The anchor strategy of the finder is capped: whatever the page
    holds, [_extract_from_anchor_tags] issues at most 30 requests.  When it
    returns, its feeds are pairwise distinct, each passed [_check_feed],
    and each is the join of the page URL with an anchor whose [href]
    holds "rss", "feed", "xml" or "atom" in any case.  It raises only when
    [urljoin] raises on such an anchor, and then before any request. *)
Theorem _extract_from_anchor_tags_capped url html_text session :
  length (snd (_extract_from_anchor_tags url html_text session)) <= 30
  /\ (forall feeds,
        fst (_extract_from_anchor_tags url html_text session) = Returned feeds ->
        NoDup feeds /\ length feeds <= 30
        /\ forall feed, feed ∈ feeds ->
             fst (_check_feed feed session) = Returned true
             /\ exists href,
                  href ∈ html_parser_anchor_hrefs html_text
                  /\ any_in ["rss"; "feed"; "xml"; "atom"] (lower href) = true
                  /\ urljoin url href = Returned feed)
  /\ (forall e,
        fst (_extract_from_anchor_tags url html_text session) = Raised e ->
        snd (_extract_from_anchor_tags url html_text session) = []
        /\ exists href,
             href ∈ html_parser_anchor_hrefs html_text
             /\ any_in ["rss"; "feed"; "xml"; "atom"] (lower href) = true
             /\ urljoin url href = Raised e).
Proof.
  unfold _extract_from_anchor_tags.
  set (hrefs := List.filter _ (html_parser_anchor_hrefs html_text)).
  destruct (join_all url hrefs) as [fulls|e0] eqn:Hj; unfold lift, iobind.
  - set (candidate_urls := firstn 30 (dict_fromkeys fulls)).
    assert (Hlen : length candidate_urls <= 30).
    { unfold candidate_urls. rewrite length_firstn. lia. }
    assert (Hnd : NoDup candidate_urls).
    { eapply sublist_NoDup; [apply dict_fromkeys_NoDup|apply sublist_take]. }
    assert (Hres :
              match candidate_urls with
              | [] => ret []
              | _ :: _ => check_all candidate_urls session
              end
              = (Returned (List.filter (passes_check session) candidate_urls),
                 List.map (fun url => mkRequest url 5) candidate_urls)).
    { rewrite check_all_eq. by destruct candidate_urls. }
    rewrite Hres. cbn [fst snd app]. split_and!.
    + by rewrite length_map.
    + intros feeds [= <-]. split_and!.
      * by apply NoDup_bool_filter.
      * etrans; [apply length_bool_filter|done].
      * intros feed [Hin Hp]%elem_of_bool_filter.
        split; [by apply passes_check_spec|].
        assert (Hf : feed ∈ fulls).
        { apply dict_fromkeys_spec. by eapply subseteq_take. }
        apply join_all_Returned in Hj.
        apply list_elem_of_lookup in Hf as [i Hi].
        destruct (Forall2_lookup_r _ _ _ _ _ Hj Hi) as (href & Hh & Hu).
        exists href.
        assert (Hin' : href ∈ hrefs) by (by eapply list_elem_of_lookup_2).
        apply elem_of_bool_filter in Hin' as [? ?]. done.
    + done.
  - cbn [fst snd]. split_and!; [simpl; lia|done|].
    intros e [= <-]. split; [done|].
    apply join_all_Raised in Hj as (href & Hin & Hr).
    apply elem_of_bool_filter in Hin as [? ?]. by exists href.
Qed.

(** ** The finder as a whole *)

Lemma check_all_checked urls session :
  checked_within session (length urls) (check_all urls session).
Proof.
  rewrite check_all_eq. split; cbn [fst snd].
  - by rewrite length_map.
  - intros feeds [= <-]. apply Forall_forall.
    by intros u [_ ?]%elem_of_bool_filter.
Qed.

Lemma ret_nil_checked session n : checked_within session n (ret []).
Proof. split; cbn; [lia|]. intros feeds [= <-]. constructor. Qed.

Lemma raised_checked session n e : checked_within session n (Raised e, []).
Proof. split; cbn; [lia|done]. Qed.

Lemma checked_within_mono session n m task :
  checked_within session n task -> n <= m -> checked_within session m task.
Proof. intros [? ?] ?. split; [lia|done]. Qed.

Lemma _try_cms_paths_checked base_url cms session :
  checked_within session 3 (_try_cms_paths base_url cms session).
Proof.
  unfold _try_cms_paths.
  eapply checked_within_mono; [apply check_all_checked|].
  rewrite length_map. unfold get_cms_feed_paths. repeat case_match; simpl; lia.
Qed.

Lemma _extract_from_link_tags_checked url html_text session :
  checked_within session (length (html_parser_link_hrefs html_text))
    (_extract_from_link_tags url html_text session).
Proof.
  unfold _extract_from_link_tags.
  set (hrefs := List.filter _ _).
  assert (Hh : length hrefs <= length (html_parser_link_hrefs html_text)).
  { unfold hrefs. etrans; [apply length_bool_filter|]. apply length_list_omap. }
  destruct (join_all url hrefs) as [urls|e] eqn:Hj; unfold lift, iobind.
  - apply join_all_length in Hj.
    assert (Hres : match urls with
                   | [] => ret []
                   | _ :: _ => check_all urls session
                   end = check_all urls session).
    { destruct urls; [|done]. by rewrite check_all_eq. }
    rewrite Hres. destruct (check_all urls session) as [r log] eqn:Hc.
    cbn [app]. rewrite <- Hc.
    eapply checked_within_mono; [apply check_all_checked|lia].
  - apply raised_checked.
Qed.

Lemma _extract_from_anchor_tags_checked url html_text session :
  checked_within session 30 (_extract_from_anchor_tags url html_text session).
Proof.
  unfold _extract_from_anchor_tags.
  set (hrefs := List.filter _ _).
  destruct (join_all url hrefs) as [fulls|e] eqn:Hj; unfold lift, iobind.
  - set (candidate_urls := firstn 30 (dict_fromkeys fulls)).
    assert (Hres : match candidate_urls with
                   | [] => ret []
                   | _ :: _ => check_all candidate_urls session
                   end = check_all candidate_urls session).
    { destruct candidate_urls; [|done]. by rewrite check_all_eq. }
    rewrite Hres. destruct (check_all candidate_urls session) as [r log] eqn:Hc.
    cbn [app]. rewrite <- Hc.
    eapply checked_within_mono; [apply check_all_checked|].
    unfold candidate_urls. rewrite length_firstn. lia.
  - apply raised_checked.
Qed.

Lemma _try_common_paths_checked base_url session :
  checked_within session 16 (_try_common_paths base_url session).
Proof.
  unfold _try_common_paths.
  eapply checked_within_mono; [apply check_all_checked|].
  by rewrite length_map.
Qed.

Lemma _try_nested_paths_checked base_url parsed session :
  checked_within session 5 (_try_nested_paths base_url parsed session).
Proof.
  unfold _try_nested_paths. case_match; [apply ret_nil_checked|].
  eapply checked_within_mono; [apply check_all_checked|].
  by rewrite length_map.
Qed.

Lemma returned_lists_elem results x :
  x ∈ returned_lists results <->
  exists l, Returned l ∈ results /\ x ∈ l.
Proof.
  unfold returned_lists. induction results as [|r results IH]; simpl.
  - split; [by intros ?%elem_of_nil|]. by intros (l & ?%elem_of_nil & _).
  - destruct r as [l0|e]; simpl.
    + rewrite elem_of_app, IH. split.
      * intros [H|(l & Hl & Hx)]; [exists l0; split; [by left|done]|].
        exists l. split; [by right|done].
      * intros (l & [Heq|Hl]%elem_of_cons & Hx).
        -- left. by injection Heq as ->.
        -- right. by exists l.
    + rewrite IH. split.
      * intros (l & Hl & Hx). exists l. split; [by right|done].
      * intros (l & [Heq|Hl]%elem_of_cons & Hx); [done|]. by exists l.
Qed.

(** The five strategies of [find_feeds], as tasks. *)
Lemma find_feeds_strategies_tasks url html_text base_url parsed session :
  exists t1 t2 t3 t4 t5,
    checked_within session 3 t1
    /\ checked_within session (length (html_parser_link_hrefs html_text)) t2
    /\ checked_within session 30 t3
    /\ checked_within session 16 t4
    /\ checked_within session 5 t5
    /\ t5 = _try_nested_paths base_url parsed session
    /\ find_feeds_strategies url html_text base_url parsed session
       = (Returned [fst t1; fst t2; fst t3; fst t4; fst t5],
          snd t1 ++ snd t2 ++ snd t3 ++ snd t4 ++ snd t5).
Proof.
  eexists _, _, _, _, _. split_and!; last first.
  - unfold find_feeds_strategies, gather. cbn [List.map concat].
    by rewrite app_nil_r.
  - done.
  - apply _try_nested_paths_checked.
  - apply _try_common_paths_checked.
  - apply _extract_from_anchor_tags_checked.
  - apply _extract_from_link_tags_checked.
  - destruct (detect_cms html_text); [apply _try_cms_paths_checked|].
    apply ret_nil_checked.
Qed.

Lemma find_feeds_cases url session :
  match session (mkRequest url 10) with
  | Returned response =>
      match raise_for_status response with
      | Returned _ =>
          match normalize_url url, urlparse url with
          | Returned base_url, Returned parsed =>
              find_feeds url session
              = (match fst (find_feeds_strategies url (text response)
                              base_url parsed session) with
                 | Returned results => normalize_unique (returned_lists results) []
                 | Raised e => Raised e
                 end,
                 mkRequest url 10
                 :: snd (find_feeds_strategies url (text response)
                           base_url parsed session))
          | Raised e, _ | Returned _, Raised e =>
              find_feeds url session = (Raised e, [mkRequest url 10])
          end
      | Raised _ => find_feeds url session = (Returned [], [mkRequest url 10])
      end
  | Raised _ => find_feeds url session = (Returned [], [mkRequest url 10])
  end.
Proof.
  unfold find_feeds, get, try_except, iobind, lift, ret.
  destruct (session _) as [response|e]; [|done].
  destruct (raise_for_status response) as [[]|e]; [|done].
  cbn [app].
  destruct (normalize_url url) as [base_url|e]; [|done].
  destruct (urlparse url) as [parsed|e]; [|done].
  destruct (find_feeds_strategies _ _ _ _ _) as [[results|e] slog]; cbn [fst snd].
  - destruct (normalize_unique _ _); by rewrite app_nil_r.
  - done.
Qed.

(** X4.  Whatever [find_feeds] returns was checked: its feeds are
    pairwise distinct, and each is the normalized form of a URL for which
    [_check_feed] answered [True] on this network.  The first request it
    issues is the GET of the page itself, with a timeout of 10 seconds. *)
Theorem find_feeds_sound url session feeds log :
  find_feeds url session = (Returned feeds, log) ->
  NoDup feeds
  /\ (forall n, n ∈ feeds ->
        exists u, fst (_check_feed u session) = Returned true
                  /\ normalize_feed_url (PyStr u) = Returned (Some n))
  /\ exists rest, log = mkRequest url 10 :: rest.
Proof.
  intros H. pose proof (find_feeds_cases url session) as Hc.
  destruct (session _) as [response|e];
    [destruct (raise_for_status response) as [[]|e]|].
  2,3: rewrite Hc in H; injection H as <- <-;
       (split_and!; [constructor|by intros n ?%elem_of_nil|by eexists]).
  destruct (normalize_url url) as [base_url|e];
    [destruct (urlparse url) as [parsed|e]|];
    rewrite Hc in H; try discriminate.
  destruct (find_feeds_strategies_tasks url (text response) base_url parsed session)
    as (t1 & t2 & t3 & t4 & t5 & H1 & H2 & H3 & H4 & H5 & _ & Hs).
  rewrite Hs in H. cbn [fst snd] in H. injection H as Hn <-.
  apply normalize_unique_spec in Hn as [Hnd Hmem]; [|constructor].
  split_and!; [done| |by eexists].
  intros n [Hn|(u & Hu & Hnu)]%Hmem; [by apply elem_of_nil in Hn|].
  exists u. split; [|done]. apply passes_check_spec.
  apply returned_lists_elem in Hu as (l & Hl & Hx).
  assert (Hall : Forall (fun url => passes_check session url = true) l).
  { repeat (apply elem_of_cons in Hl as [Hl|Hl]);
      [apply H1|apply H2|apply H3|apply H4|apply H5|by apply elem_of_nil in Hl];
      done. }
  by eapply Forall_forall in Hall.
Qed.

(** X5.  [find_feeds] works within a request budget: the GET of the page,
    then at most 3 probes of CMS paths, one per feed [<link>] of the page,
    30 for the anchors, 16 for the common paths and 5 for the nested
    paths, so at most 55 requests beyond the number of feed links.  When
    the page cannot be fetched it gives the empty list after that one
    request.  At a normalized site URL, where the orchestrator calls it,
    the nested paths are not probed and the budget is 50. *)
Theorem find_feeds_request_budget url session :
  length (snd (find_feeds url session))
  <= 55 + match session (mkRequest url 10) with
          | Returned response =>
              length (html_parser_link_hrefs (text response))
          | Raised _ => 0
          end
  /\ (forall e,
        session (mkRequest url 10) = Raised e ->
        find_feeds url session = (Returned [], [mkRequest url 10]))
  /\ (forall response,
        session (mkRequest url 10) = Returned response ->
        raise_for_status response = Raised HTTPError ->
        find_feeds url session = (Returned [], [mkRequest url 10]))
  /\ (forall site response,
        normalize_url site = Returned url -> url <> EmptyString ->
        session (mkRequest url 10) = Returned response ->
        length (snd (find_feeds url session))
        <= 50 + length (html_parser_link_hrefs (text response))).
Proof.
  pose proof (find_feeds_cases url session) as Hc.
  split_and!.
  - destruct (session _) as [response|e];
      [destruct (raise_for_status response) as [[]|e]|].
    2,3: rewrite Hc; simpl; lia.
    destruct (normalize_url url) as [base_url|e];
      [destruct (urlparse url) as [parsed|e]|];
      rewrite Hc; try (simpl; lia).
    destruct (find_feeds_strategies_tasks url (text response) base_url parsed session)
      as (t1 & t2 & t3 & t4 & t5 & [H1 _] & [H2 _] & [H3 _] & [H4 _] & [H5 _] & _ & Hs).
    rewrite Hs. cbn [snd length]. rewrite !length_app. lia.
  - intros e He. by rewrite He in Hc.
  - intros response Hr Hs. by rewrite Hr, Hs in Hc.
  - intros site response Hsite Hne Hr. rewrite Hr in Hc.
    destruct (raise_for_status response) as [[]|e]; [|rewrite Hc; simpl; lia].
    destruct (normalize_url_origin _ _ Hsite Hne)
      as (sch & netloc & _ & _ & _ & Hparse & Hnorm).
    rewrite Hnorm, Hparse in Hc. rewrite Hc.
    destruct (find_feeds_strategies_tasks url (text response) url
                (mkParse sch netloc "" "" "" "") session)
      as (t1 & t2 & t3 & t4 & t5 & [H1 _] & [H2 _] & [H3 _] & [H4 _] & _ & H5 & Hs).
    rewrite Hs. cbn [snd length]. rewrite !length_app.
    rewrite H5, _try_nested_paths_root by done. cbn [snd ret length]. lia.
Qed.

(** ** The fetch helpers of utils.py *)

Lemma fetch_html_eq url session :
  fetch_html url session
  = (Returned match session (mkRequest url 10) with
              | Returned response =>
                  match raise_for_status response with
                  | Returned _ => Some (text response)
                  | Raised _ => None
                  end
              | Raised _ => None
              end, [mkRequest url 10]).
Proof.
  unfold fetch_html, get, try_except, iobind, lift, ret.
  destruct (session _) as [response|e]; [|done].
  by destruct (raise_for_status response) as [[]|e].
Qed.

(** X6.  [is_rss_feed] never raises and issues one GET with a timeout of
    8 seconds.  It answers [False] when the request fails or the status is
    not 200, and [True] when the status is 200 and "xml", "rss" or "atom"
    occurs in the lower-cased Content-Type; for a status of 200 with any
    other Content-Type it runs off its end and gives [None], whatever the
    body holds.  So it answers [True] only where [_check_feed] does (when
    the network answers both requests alike), while [_check_feed] also
    accepts a body that starts like a feed. *)
Theorem is_rss_feed_answers url session :
  (exists answer, is_rss_feed url session = (Returned answer, [mkRequest url 8]))
  /\ (forall e,
        session (mkRequest url 8) = Raised e ->
        fst (is_rss_feed url session) = Returned (Some false))
  /\ (forall response,
        session (mkRequest url 8) = Returned response ->
        (status_code response <> 200%Z ->
         fst (is_rss_feed url session) = Returned (Some false))
        /\ (status_code response = 200%Z ->
            fst (is_rss_feed url session)
            = Returned
                (if any_in ["xml"; "rss"; "atom"]
                      (lower (default EmptyString (content_type response)))
                 then Some true else None)))
  /\ (session (mkRequest url 8) = session (mkRequest url 5) ->
      fst (is_rss_feed url session) = Returned (Some true) ->
      fst (_check_feed url session) = Returned true)
  /\ (let feed := mkResponse 200 (Some "text/plain") "<rss version=2>" in
      fst (is_rss_feed url (fun _ => Returned feed)) = Returned None
      /\ fst (_check_feed url (fun _ => Returned feed)) = Returned true).
Proof.
  drop_vars.
  assert (Heq : is_rss_feed url session
                = (Returned
                     match session (mkRequest url 8) with
                     | Raised _ => Some false
                     | Returned response =>
                         if negb (status_code response =? 200)%Z then Some false
                         else if any_in ["xml"; "rss"; "atom"]
                                   (lower (default EmptyString (content_type response)))
                              then Some true else None
                     end, [mkRequest url 8])).
  { unfold is_rss_feed, get, try_except, iobind, ret.
    destruct (session _) as [response|e]; [|done].
    destruct (negb _); [done|]. by destruct (any_in _ _). }
  split_and!.
  - by eexists.
  - intros e He. by rewrite Heq, He.
  - intros response Hr. rewrite Heq, Hr. cbn [fst]. split; intros Hs.
    + by apply Z.eqb_neq in Hs as ->.
    + by apply Z.eqb_eq in Hs as ->.
  - intros Hsame. rewrite Heq, _check_feed_eq, <- Hsame. cbn [fst].
    destruct (session _) as [response|e]; [|done].
    by repeat case_match.
  - split; [|by rewrite _check_feed_eq].
    unfold is_rss_feed, get, try_except, iobind, ret. done.
Qed.

(** X7.  [fetch_html] never raises: after one GET with a timeout of 10
    seconds it gives the body when the request returned with a status
    from 200 to 399, and [None] when the request failed or the status is
    any other.  It is the fetch [find_feeds] starts with: where [fetch_html]
    gives [None], [find_feeds] gives the empty list after that single
    request. *)
Theorem fetch_html_none_no_feeds url session :
  (exists body, fetch_html url session = (Returned body, [mkRequest url 10]))
  /\ (forall body,
        fst (fetch_html url session) = Returned (Some body) <->
        exists response,
          session (mkRequest url 10) = Returned response
          /\ (200 <= status_code response < 400)%Z
          /\ body = text response)
  /\ (fst (fetch_html url session) = Returned None ->
      find_feeds url session = (Returned [], [mkRequest url 10])).
Proof.
  rewrite fetch_html_eq. cbn [fst]. split_and!.
  - by eexists.
  - intros body. split.
    + destruct (session _) as [response|e]; [|done].
      unfold raise_for_status.
      destruct (_ && _) eqn:Hs; [|done]. intros [= <-].
      exists response. split; [done|]. split; [lia|done].
    + intros (response & -> & Hs & ->). unfold raise_for_status.
      assert ((200 <=? status_code response)%Z
              && (status_code response <? 400)%Z = true) as -> by lia.
      done.
  - pose proof (find_feeds_cases url session) as Hc.
    destruct (session _) as [response|e]; [|done].
    by destruct (raise_for_status response) as [[]|e].
Qed.

(** ** Discovery of hub pages *)

Lemma probe_hub_page_eq test_url session :
  probe_hub_page test_url session
  = (Returned (hub_page_at session test_url), [mkRequest test_url 8]).
Proof.
  unfold probe_hub_page, hub_page_at, get, try_except, iobind, ret.
  destruct (session _) as [response|e]; [|done].
  by destruct (status_code response =? 200)%Z.
Qed.

Lemma discover_from_eq base paths session discovered_hubs :
  discover_from base paths session discovered_hubs
  = (Returned (discovered_hubs
               ++ List.filter (hub_page_at session)
                    (List.map (fun path => base +:+ path) paths)),
     List.map (fun path => mkRequest (base +:+ path) 8) paths).
Proof.
  revert discovered_hubs.
  induction paths as [|path paths IH]; intros discovered_hubs.
  - cbn. by rewrite app_nil_r.
  - cbn [discover_from List.map List.filter]. rewrite probe_hub_page_eq.
    unfold iobind. rewrite IH. cbn [app]. f_equal. f_equal.
    destruct (hub_page_at session (base +:+ path)); [|done].
    by rewrite <- app_assoc.
Qed.

Lemma any_in_app needles a s b :
  any_in needles s = true -> any_in needles (a +:+ s +:+ b) = true.
Proof.
  rewrite !any_in_spec. intros (t & Ht & Hc). exists t. split; [done|].
  apply contains_spec in Hc as (p & q & ->). apply contains_spec.
  exists (a +:+ p), (q +:+ b). by rewrite !sapp_assoc.
Qed.

(** X8.  [discover_hub_pages] probes every hub path once: when the base
    URL normalizes, it issues 15 GETs with a timeout of 8 seconds, one per
    hub path appended to the normalized base and in the order of the list,
    and returns, in that order, exactly the probed URLs whose page answers
    200 and looks like a hub page; a failed request only skips its path.
    An exception of the normalization is raised before any request.
    Every URL it can return is a hub-page URL for [is_hub_page_url],
    except those built from "/feed" and "/atom": the page at
    "https://example.com/feed" may be discovered, yet [is_hub_page_url]
    rejects its URL. *)
Theorem discover_hub_pages_probes base_url session :
  discover_hub_pages base_url session
  = match normalize_url base_url with
    | Returned base =>
        (Returned (List.filter (hub_page_at session)
                     (List.map (fun path => base +:+ path) hub_paths)),
         List.map (fun path => mkRequest (base +:+ path) 8) hub_paths)
    | Raised e => (Raised e, [])
    end
  /\ (forall base,
        normalize_url base_url = Returned base ->
        length (snd (discover_hub_pages base_url session)) = 15)
  /\ (forall test_url,
        hub_page_at session test_url = true <->
        exists response,
          session (mkRequest test_url 8) = Returned response
          /\ status_code response = 200%Z
          /\ looks_like_hub_page (text response) = true)
  /\ (forall base path,
        path ∈ hub_paths -> path <> "/feed" -> path <> "/atom" ->
        is_hub_page_url (base +:+ path) = ret true)
  /\ is_hub_page_url ("https://example.com" +:+ "/feed") = ret false
  /\ is_hub_page_url ("https://example.com" +:+ "/atom") = ret false.
Proof.
  assert (Heq : discover_hub_pages base_url session
                = match normalize_url base_url with
                  | Returned base =>
                      (Returned (List.filter (hub_page_at session)
                                   (List.map (fun path => base +:+ path) hub_paths)),
                       List.map (fun path => mkRequest (base +:+ path) 8) hub_paths)
                  | Raised e => (Raised e, [])
                  end).
  { unfold discover_hub_pages, lift, iobind.
    destruct (normalize_url base_url) as [base|e]; [|done].
    by rewrite discover_from_eq. }
  split_and!; [done|..|done|done].
  - intros base Hb. rewrite Heq, Hb. cbn [snd]. by rewrite length_map.
  - intros test_url. unfold hub_page_at.
    destruct (session _) as [response|e].
    + rewrite andb_true_iff, Z.eqb_eq. split.
      * intros [? ?]. by exists response.
      * by intros (? & [= <-] & ? & ?).
    + split; [done|]. by intros (? & ? & _).
  - intros base path Hin Hfeed Hatom. unfold is_hub_page_url. f_equal.
    rewrite lower_app.
    rewrite <- (sapp_nil_r (lower path)).
    apply any_in_app.
    repeat (apply elem_of_cons in Hin as [->|Hin]; [done|]).
    by apply elem_of_nil in Hin.
Qed.

(** ** Feed URLs on a hub page *)

Lemma startswith_refl s : startswith s s = true.
Proof. apply startswith_spec. exists EmptyString. by rewrite sapp_nil_r. Qed.

Lemma endswith_contains s suffix :
  endswith s suffix = true -> contains suffix s = true.
Proof.
  induction s as [|c s IH]; cbn [endswith contains].
  - rewrite orb_false_r. intros <-%String.eqb_eq. done.
  - intros [Heq%String.eqb_eq|H]%orb_true_iff.
    + rewrite <- Heq. apply orb_true_iff. left. apply startswith_refl.
    + apply orb_true_iff. right. by apply IH.
Qed.

Lemma endswith_app a suffix : endswith (a +:+ suffix) suffix = true.
Proof.
  induction a as [|c a IH]; simpl.
  - destruct suffix; simpl; by rewrite ?String.eqb_refl, ?Ascii.eqb_refl.
  - rewrite IH. apply orb_true_r.
Qed.

Lemma search_at_end_contains suffix s :
  search_at_end suffix s = true -> contains suffix s = true.
Proof.
  unfold search_at_end.
  intros [H|H]%orb_true_iff; [by apply endswith_contains|].
  apply endswith_contains in H.
  eapply contains_trans; [|exact H].
  apply contains_spec. exists EmptyString, (String "010" EmptyString). done.
Qed.

Lemma lower_chr_idem c : lower_chr (lower_chr c) = lower_chr c.
Proof. by destruct c as [[] [] [] [] [] [] [] []]. Qed.

Lemma lower_idem s : lower (lower s) = lower s.
Proof. induction s as [|c s IH]; simpl; [done|]. by rewrite lower_chr_idem, IH. Qed.

Lemma is_empty_lower s : is_empty (lower s) = is_empty s.
Proof. by destruct s. Qed.

(** X9.  The hub parser's test for a feed URL is stricter than the
    finder's test for a candidate anchor: whenever [is_feed_url] accepts an
    [href], one of "rss", "feed", "xml", "atom" occurs in its lower-cased
    text, which is the test of [_extract_from_anchor_tags]; the converse
    fails, as "/feedback" shows.  [is_feed_url] rejects the empty text,
    ignores case, and accepts every text that ends in ".rss", ".xml",
    ".atom", "/rss", "/feed" or "/atom". *)
Theorem is_feed_url_stricter_than_finder :
  (forall href,
     is_feed_url href = true ->
     any_in ["rss"; "feed"; "xml"; "atom"] (lower href) = true)
  /\ any_in ["rss"; "feed"; "xml"; "atom"] (lower "/feedback") = true
  /\ is_feed_url "/feedback" = false
  /\ is_feed_url EmptyString = false
  /\ (forall href, is_feed_url (lower href) = is_feed_url href)
  /\ (forall href suffix,
        suffix ∈ [".rss"; ".xml"; ".atom"; "/rss"; "/feed"; "/atom"] ->
        is_feed_url (href +:+ suffix) = true).
Proof.
  drop_vars. split_and!; [|done|done|done|..].
  - intros href. unfold is_feed_url.
    destruct (is_empty href); [done|].
    assert (Hsub : forall pattern,
              contains pattern (lower href) = true ->
              any_in ["rss"; "feed"; "xml"; "atom"] pattern = true ->
              any_in ["rss"; "feed"; "xml"; "atom"] (lower href) = true).
    { intros pattern Hc (t & Ht & Hp)%any_in_spec. apply any_in_spec.
      exists t. split; [done|]. by eapply contains_trans. }
    assert (Hany : forall patterns,
              any_in patterns (lower href) = true ->
              forallb (any_in ["rss"; "feed"; "xml"; "atom"]) patterns = true ->
              any_in ["rss"; "feed"; "xml"; "atom"] (lower href) = true).
    { intros patterns (t & Ht & Hc)%any_in_spec Hall.
      eapply Hsub; [exact Hc|].
      rewrite forallb_forall in Hall. by apply Hall, list_elem_of_In. }
    rewrite !orb_true_iff.
    intros [[[[[[[H|H]|H]|H]|H]|H]|H]|H];
      first [ by eapply Hany; [exact H|]
            | apply search_at_end_contains in H; by eapply Hsub; [exact H|] ].
  - intros href. unfold is_feed_url. by rewrite is_empty_lower, lower_idem.
  - intros href suffix Hin. unfold is_feed_url.
    assert (is_empty (href +:+ suffix) = false) as ->.
    { apply is_empty_false. intros Heq.
      destruct href; [|done]. rewrite sapp_nil_l in Heq. subst suffix.
      repeat (apply elem_of_cons in Hin as [Hin|Hin]; [done|]).
      by apply elem_of_nil in Hin. }
    rewrite lower_app. unfold search_at_end.
    assert (Hl : lower suffix = suffix).
    { repeat (apply elem_of_cons in Hin as [->|Hin]; [done|]).
      by apply elem_of_nil in Hin. }
    rewrite Hl. pose proof (endswith_app (lower href) suffix) as He.
    repeat (apply elem_of_cons in Hin as [->|Hin];
            [rewrite He;
             by repeat first [rewrite orb_true_r | progress cbn [orb]]|]).
    by apply elem_of_nil in Hin.
Qed.

(** ** Titles read off a URL *)

Lemma len_replace_chr a b s : len (replace_chr a b s) = len s.
Proof. unfold len. induction s as [|c s IH]; simpl; [done|]. by rewrite IH. Qed.

Lemma len_title_from previous s : len (title_from previous s) = len s.
Proof.
  unfold len. revert previous.
  induction s as [|c s IH]; intros previous; simpl; [done|]. by rewrite IH.
Qed.

Lemma has_chr_replace_gone a b s :
  a <> b -> has_chr a (replace_chr a b s) = false.
Proof.
  intros Hab. induction s as [|c s IH]; simpl; [done|]. rewrite IH, orb_false_r.
  destruct (Ascii.eqb_spec c a) as [->|Hca]; by apply eqb_chr_false.
Qed.

Lemma has_chr_replace_other c a b s :
  c <> b -> has_chr c s = false -> has_chr c (replace_chr a b s) = false.
Proof.
  intros Hcb. induction s as [|d s IH]; simpl; [done|].
  intros [Hd Hs]%orb_false_iff. rewrite IH, orb_false_r by done.
  destruct (Ascii.eqb d a); [by apply eqb_chr_false|done].
Qed.

(** Changing the case of a character gives no hyphen, underscore or
    slash. *)
Lemma cased_chr_mark (previous : bool) c d :
  c = "-"%char \/ c = "_"%char \/ c = "/"%char ->
  Ascii.eqb c (if previous then lower_chr d else upper_chr d) = Ascii.eqb c d.
Proof.
  intros [->|[->| ->]]; destruct previous;
    by destruct d as [[] [] [] [] [] [] [] []].
Qed.

Lemma has_chr_title_from c previous s :
  c = "-"%char \/ c = "_"%char \/ c = "/"%char ->
  has_chr c (title_from previous s) = has_chr c s.
Proof.
  intros Hc. revert previous.
  induction s as [|d s IH]; intros previous; simpl; [done|].
  by rewrite IH, cased_chr_mark.
Qed.

Lemma upper_chr_R c : upper_chr c = "R"%char -> isalpha c = true.
Proof. by destruct c as [[] [] [] [] [] [] [] []]. Qed.

Lemma lower_chr_not_S c : lower_chr c <> "S"%char.
Proof. by destruct c as [[] [] [] [] [] [] [] []]. Qed.

Lemma title_not_fallback s : title s <> "RSS Feed".
Proof.
  unfold title. destruct s as [|c1 [|c2 s]]; [done|done|].
  cbn [title_from]. intros [= H1 H2 _].
  apply upper_chr_R in H1. rewrite H1 in H2. by apply lower_chr_not_S in H2.
Qed.

Lemma elem_of_rev {A} (x : A) l : x ∈ rev l <-> x ∈ l.
Proof. rewrite !list_elem_of_In. symmetry. apply in_rev. Qed.

Lemma first_title_cases parts fallback :
  HubTitles.first_title parts fallback = fallback
  \/ exists part,
       part ∈ parts /\ part <> EmptyString
       /\ endswith_any part [".xml"; ".rss"; ".atom"] = false
       /\ 2 < len (title (replace_chr "_" " " (replace_chr "-" " " part)))
       /\ HubTitles.first_title parts fallback
          = title (replace_chr "_" " " (replace_chr "-" " " part)).
Proof.
  induction parts as [|part parts IH]; [by left|].
  cbn [HubTitles.first_title].
  destruct (negb (is_empty part) && negb (endswith_any part _)) eqn:Hq.
  - destruct (2 <? len _)%nat eqn:Hlen.
    + right. exists part.
      apply andb_true_iff in Hq as [Hne%negb_true_iff%is_empty_false
                                      Hend%negb_true_iff].
      apply Nat.ltb_lt in Hlen. split_and!; [by left|done..].
    + destruct IH as [IH|(p & ? & ? & ? & ? & ?)]; [by left|].
      right. exists p. split_and!; [by right|done..].
  - destruct IH as [IH|(p & ? & ? & ? & ? & ?)]; [by left|].
    right. exists p. split_and!; [by right|done..].
Qed.

Lemma first_title_app parts1 parts2 fallback :
  HubTitles.first_title (parts1 ++ parts2) fallback
  = HubTitles.first_title parts1 (HubTitles.first_title parts2 fallback).
Proof.
  induction parts1 as [|part parts1 IH]; [done|].
  cbn [app HubTitles.first_title]. rewrite IH. by repeat case_match.
Qed.

Lemma first_title_found parts fallback :
  fallback <> "RSS Feed" -> HubTitles.first_title parts fallback <> "RSS Feed".
Proof.
  intros Hf. destruct (first_title_cases parts fallback)
    as [->|(p & _ & _ & _ & _ & ->)]; [done|apply title_not_fallback].
Qed.

(** X10.  The title [extract_title_from_url] reads off a URL always has
    more than two characters and holds no hyphen, underscore or slash: it
    is "RSS Feed", or the title-cased text of one of the parts between
    slashes that is not empty and is no ".xml", ".rss" or ".atom" name,
    with hyphens and underscores turned into spaces.  On a normalized
    feed URL, the only place it is called, the fallback "RSS Feed" never
    comes out, since the part "http:" or "https:" always qualifies: a feed
    "https://a/b.xml" is titled "Https:". *)
Theorem extract_title_from_url_shape :
  (forall url,
     2 < len (HubTitles.extract_title_from_url url)
     /\ has_chr "-" (HubTitles.extract_title_from_url url) = false
     /\ has_chr "_" (HubTitles.extract_title_from_url url) = false
     /\ has_chr "/" (HubTitles.extract_title_from_url url) = false)
  /\ (forall url,
        HubTitles.extract_title_from_url url = "RSS Feed"
        \/ exists part,
             part ∈ split "/" url /\ part <> EmptyString
             /\ endswith_any part [".xml"; ".rss"; ".atom"] = false
             /\ HubTitles.extract_title_from_url url
                = title (replace_chr "_" " " (replace_chr "-" " " part)))
  /\ (forall x n,
        normalize_feed_url (PyStr x) = Returned (Some n) ->
        HubTitles.extract_title_from_url n <> "RSS Feed")
  /\ HubTitles.extract_title_from_url "https://example.com/feeds/tech-news.xml"
     = "Feeds"
  /\ HubTitles.extract_title_from_url "https://example.com/world_news/" = "World News"
  /\ HubTitles.extract_title_from_url "https://a/b.xml" = "Https:"
  /\ HubTitles.extract_title_from_url "/feed.xml" = "RSS Feed".
Proof.
  drop_vars. split_and!; [| |..|done|done|done|done].
  - intros url. unfold HubTitles.extract_title_from_url.
    destruct (first_title_cases (rev (split "/" url)) "RSS Feed")
      as [->|(part & Hin & _ & _ & Hlen & ->)]; [by split_and!; [cbn; lia|..]|].
    assert (Hslash : has_chr "/" part = false).
    { rewrite elem_of_rev in Hin.
      pose proof (split_pieces "/" url) as Hall.
      by eapply Forall_forall in Hall. }
    split_and!; [done|..]; unfold title; rewrite has_chr_title_from by tauto.
    + apply has_chr_replace_other; [done|]. by apply has_chr_replace_gone.
    + by apply has_chr_replace_gone.
    + by do 2 (apply has_chr_replace_other; [done|]).
  - intros url. unfold HubTitles.extract_title_from_url.
    destruct (first_title_cases (rev (split "/" url)) "RSS Feed")
      as [?|(part & Hin & ? & ? & _ & ?)]; [by left|].
    right. exists part. by rewrite elem_of_rev in Hin.
  - intros x n Hn.
    apply normalize_feed_url_inv in Hn as (sch & t & r & Hs & _ & _ & _ & ->).
    unfold HubTitles.extract_title_from_url.
    set (rest := s_netloc r +:+ _).
    assert (Hsplit : split "/" (sch +:+ "://" +:+ rest)
                     = (sch +:+ ":") :: EmptyString :: split "/" rest).
    { change (sch +:+ "://" +:+ rest)
        with (sch +:+ String ":" (String "/" (String "/" rest))).
      replace (sch +:+ String ":" (String "/" (String "/" rest)))
        with ((sch +:+ ":") +:+ String "/" (EmptyString +:+ String "/" rest))
        by (by rewrite sapp_assoc).
      rewrite split_app by (by destruct Hs as [-> | ->]).
      by rewrite split_app. }
    rewrite Hsplit. cbn [rev]. rewrite <- !app_assoc, first_title_app.
    apply first_title_found. by destruct Hs as [-> | ->].
Qed.

(** ** The records of a hub page *)

Lemma add_feed_inv base_url href category title feeds feeds' :
  add_feed base_url href category title feeds = Returned feeds' ->
  feeds' = feeds
  \/ exists full_url n,
       urljoin base_url href = Returned full_url
       /\ normalize_feed_url (PyStr full_url) = Returned (Some n)
       /\ (n ∉ List.map rec_url feeds)
       /\ feeds' = feeds ++ [mkFeed category (title n) n].
Proof.
  unfold add_feed.
  destruct (urljoin base_url href) as [full_url|e]; [|done]. cbn [obind].
  destruct (normalize_feed_url (PyStr full_url)) as [[n|]|e] eqn:Hn;
    cbn [obind]; [| |done].
  - destruct (truthy (Some n) && negb (mem n (List.map rec_url feeds))) eqn:Hc.
    + intros [= <-]. right. exists full_url, n.
      apply andb_true_iff in Hc as [_ Hm%negb_true_iff%mem_false]. done.
    + intros [= <-]. by left.
  - intros [= <-]. by left.
Qed.

Lemma fetch_page_eq url session :
  fetch_page url session
  = (Returned match session (mkRequest url 15) with
              | Returned response =>
                  match raise_for_status response with
                  | Returned _ => Some (text response)
                  | Raised _ => None
                  end
              | Raised _ => None
              end, [mkRequest url 15]).
Proof.
  unfold fetch_page, get, try_except, iobind, lift, ret.
  destruct (session _) as [response|e]; [|done].
  by destruct (raise_for_status response) as [[]|e].
Qed.

Section Records.

Variables base_url content : string.

Let well_formed (feeds : list FeedRecord) : Prop :=
  NoDup (List.map rec_url feeds) /\ Forall (parsed_from base_url content) feeds.

Lemma add_feed_well_formed href category title feeds feeds' :
  add_feed base_url href category title feeds = Returned feeds' ->
  well_formed feeds ->
  (forall full_url n,
     urljoin base_url href = Returned full_url ->
     normalize_feed_url (PyStr full_url) = Returned (Some n) ->
     parsed_from base_url content (mkFeed category (title n) n)) ->
  well_formed feeds'.
Proof.
  intros [->|(full_url & n & Hj & Hn & Hnew & ->)]%add_feed_inv [Hnd Hall] Hfrom;
    [done|].
  split.
  - rewrite List.map_app. cbn [List.map rec_url].
    apply NoDup_app. split_and!; [done| |apply NoDup_singleton].
    intros x Hx ->%list_elem_of_singleton. done.
  - apply Forall_app. split; [done|]. constructor; [|constructor]. by eapply Hfrom.
Qed.

Lemma add_link_tags_well_formed link_tags feeds feeds' :
  add_link_tags base_url link_tags feeds = Returned feeds' ->
  (forall tag, tag ∈ link_tags -> tag ∈ lxml_link_tags content) ->
  well_formed feeds -> well_formed feeds'.
Proof.
  revert feeds. induction link_tags as [|[href title] link_tags IH];
    intros feeds; cbn [add_link_tags].
  - by intros [= <-].
  - intros H Hsub Hwf.
    assert (Hrest : forall tag, tag ∈ link_tags -> tag ∈ lxml_link_tags content).
    { intros tag ?. apply Hsub. by right. }
    destruct (truthy href) eqn:Ht; [|by eapply IH].
    destruct href as [href|]; [|done]. cbn [default] in H.
    destruct (add_feed _ _ _ _ _) as [feeds1|e] eqn:Ha; [|done].
    cbn [obind] in H. eapply IH; [exact H|done|].
    eapply add_feed_well_formed; [exact Ha|done|].
    intros full_url n Hj Hn. exists href, full_url. split_and!; [done..|].
    left. exists title. split_and!; [apply Hsub; by left| |done..].
    apply is_empty_false. by apply negb_true_iff in Ht.
Qed.

Lemma add_anchors_well_formed all_links feeds feeds' :
  add_anchors base_url all_links feeds = Returned feeds' ->
  (forall link, link ∈ all_links -> link ∈ lxml_anchors content) ->
  well_formed feeds -> well_formed feeds'.
Proof.
  revert feeds. induction all_links as [|link all_links IH];
    intros feeds; cbn [add_anchors].
  - by intros [= <-].
  - intros H Hsub Hwf.
    assert (Hrest : forall l, l ∈ all_links -> l ∈ lxml_anchors content).
    { intros l ?. apply Hsub. by right. }
    destruct (is_feed_url (a_href link)) eqn:Hf; cbn [negb] in H; [|by eapply IH].
    destruct (add_feed _ _ _ _ _) as [feeds1|e] eqn:Ha; [|done].
    cbn [obind] in H. eapply IH; [exact H|done|].
    eapply add_feed_well_formed; [exact Ha|done|].
    intros full_url n Hj Hn. exists (a_href link), full_url.
    split_and!; [done..|].
    right. exists link. split_and!; [apply Hsub; by left|done..].
Qed.

End Records.

(** X11.  The records [parse_feeds] returns have pairwise distinct URLs.
    It issues a single request, the GET of the hub page with a timeout of
    15 seconds, and gives no record when that fetch fails or the body is
    empty.  Every record comes from the page: its URL is the normalized
    join of an [href] with the normalized site URL (not with the URL of
    the hub page), where the [href] is that of a feed [<link>], giving the
    category "General" and the title of the tag or else one read off the
    URL, or that of an anchor accepted by [is_feed_url]. *)
Theorem parse_feeds_distinct_urls hub_url session feeds log :
  parse_feeds hub_url session = (Returned feeds, log) ->
  exists base_url,
    normalize_url hub_url = Returned base_url
    /\ log = [mkRequest hub_url 15]
    /\ NoDup (List.map rec_url feeds)
    /\ (fst (fetch_page hub_url session) = Returned None -> feeds = [])
    /\ (fst (fetch_page hub_url session) = Returned (Some EmptyString) -> feeds = [])
    /\ forall content,
         fst (fetch_page hub_url session) = Returned (Some content) ->
         Forall (parsed_from base_url content) feeds.
Proof.
  unfold parse_feeds, lift, iobind.
  destruct (normalize_url hub_url) as [base_url|e]; [|done].
  rewrite fetch_page_eq. cbn [fst].
  set (fetched := match session _ with Returned _ => _ | Raised _ => _ end).
  destruct fetched as [content|]; cbn [truthy negb].
  2: { intros [= <- <-]. exists base_url. split_and!; try done. constructor. }
  destruct content as [|c content]; cbn [is_empty negb].
  { intros [= <- <-]. exists base_url. split_and!; try done. constructor. }
  cbn [default].
  destruct (add_link_tags _ _ _) as [feeds1|e] eqn:H1; [|done].
  destruct (add_anchors _ _ _) as [feeds2|e] eqn:H2; [|done].
  intros [= <- <-]. exists base_url.
  assert (Hwf : NoDup (List.map rec_url feeds2)
                /\ Forall (parsed_from base_url (String c content)) feeds2).
  { eapply add_anchors_well_formed; [exact H2|done|].
    eapply add_link_tags_well_formed; [exact H1|done|].
    split; constructor. }
  destruct Hwf as [Hnd Hall].
  split_and!; try done. by intros ? [= <-].
Qed.

(** ** Site keys and feed URLs under a second normalization *)

Lemma remove_chrs_app p a b :
  remove_chrs p (a +:+ b) = remove_chrs p a +:+ remove_chrs p b.
Proof.
  induction a as [|c a IH]; [done|]. rewrite sapp_cons. simpl.
  destruct (p c); by rewrite IH.
Qed.

Lemma break_app_fst p u v :
  starts_with_chr_or_empty p v -> fst (break p (u +:+ v)) = fst (break p u).
Proof.
  intros Hv. destruct (break p u) as [a b] eqn:Hb.
  apply break_spec in Hb as (-> & Ha & Hstart).
  rewrite sapp_assoc, (break_unique p a (b +:+ v)); [done|done|].
  destruct b; [by rewrite sapp_nil_l|done].
Qed.

Lemma normalize_url_eq url sch t :
  sch = "http" \/ sch = "https" -> url <> EmptyString ->
  with_scheme url = sch +:+ "://" +:+ t ->
  normalize_url url
  = (let netloc := fst (_splitnetloc (remove_chrs _UNSAFE_URL_BYTES_TO_REMOVE t)) in
     let? _ := check_netloc netloc in
     Returned (sch +:+ "://" +:+ netloc)).
Proof.
  intros Hs Hne Hw. unfold normalize_url.
  apply is_empty_false in Hne. rewrite Hne.
  fold (with_scheme url). rewrite Hw, (urlparse_http _ _ Hs).
  unfold split_authority, _splitnetloc.
  destruct (break _ _) as [netloc rest] eqn:Hb.
  apply break_spec in Hb as (_ & Hn & _). cbn [fst].
  destruct (check_netloc netloc) as [[]|]; [|done]. cbn [obind].
  destruct (split_once "#" rest) as [url1 frag].
  destruct (split_once "?" url1) as [pth qry]. cbn.
  rewrite rstrip_id; [done|].
  eapply all_chr_impl; [|exact Hn]. intros c. unfold is_slash, chr_in.
  simpl. by destruct (Ascii.eqb c "/").
Qed.

Lemma normalize_url_rest sch t rest url1 url2 :
  sch = "http" \/ sch = "https" ->
  url1 <> EmptyString -> url2 <> EmptyString ->
  with_scheme url1 = sch +:+ "://" +:+ t ->
  with_scheme url2 = sch +:+ "://" +:+ (t +:+ rest) ->
  starts_with_chr_or_empty is_delim rest ->
  normalize_url url2 = normalize_url url1.
Proof.
  intros Hs H1 H2 Hw1 Hw2 Hrest.
  rewrite (normalize_url_eq _ _ _ Hs H1 Hw1), (normalize_url_eq _ _ _ Hs H2 Hw2).
  unfold _splitnetloc. rewrite remove_chrs_app, break_app_fst; [done|].
  destruct rest as [|c rest]; [done|]. cbn [remove_chrs].
  cbn in Hrest. destruct (_UNSAFE_URL_BYTES_TO_REMOVE c) eqn:Hc; [|done].
  exfalso. unfold is_delim, _UNSAFE_URL_BYTES_TO_REMOVE, chr_in in *.
  cbn in Hrest, Hc.
  repeat match type of Hc with
         | context [Ascii.eqb c ?d] =>
             destruct (Ascii.eqb_spec c d) as [->|?]; [done|]
         end.
  done.
Qed.

Lemma sapp_is_nil a b : a +:+ b = EmptyString -> a = EmptyString.
Proof. by destruct a. Qed.

Lemma startswith_app_false s t prefix :
  startswith (s +:+ t) prefix = false -> startswith s prefix = false.
Proof.
  intros H. destruct (startswith s prefix) eqn:Hs; [|done].
  apply startswith_spec in Hs as [u ->].
  by rewrite sapp_assoc, startswith_app in H.
Qed.

(** X12.  The key [normalize_url] computes for a site does not depend on
    what follows the network location: appending a text that starts with
    "/", "?" or "#" (a trailing slash, a path, a query) to a URL that
    starts with "http://" or "https://" changes neither the key nor the
    exception; the same holds for an input without such a prefix as long
    as the longer text does not start with one.  That proviso is needed:
    "http:/" has the key "https://http:", while "http://" has the key
    "http://". *)
Theorem normalize_url_ignores_what_follows :
  (forall sch t rest,
     sch = "http" \/ sch = "https" ->
     starts_with_chr_or_empty is_delim rest ->
     normalize_url ((sch +:+ "://" +:+ t) +:+ rest)
     = normalize_url (sch +:+ "://" +:+ t))
  /\ (forall url rest,
        url <> EmptyString ->
        startswith_any (url +:+ rest) ["http://"; "https://"] = false ->
        starts_with_chr_or_empty is_delim rest ->
        normalize_url (url +:+ rest) = normalize_url url)
  /\ (forall sch t,
        sch = "http" \/ sch = "https" ->
        normalize_url ((sch +:+ "://" +:+ t) +:+ "/")
        = normalize_url (sch +:+ "://" +:+ t))
  /\ normalize_url "http:/" = Returned "https://http:"
  /\ normalize_url ("http:/" +:+ "/") = Returned "http://".
Proof.
  drop_vars.
  assert (H1 : forall sch t rest,
            sch = "http" \/ sch = "https" ->
            starts_with_chr_or_empty is_delim rest ->
            normalize_url ((sch +:+ "://" +:+ t) +:+ rest)
            = normalize_url (sch +:+ "://" +:+ t)).
  { intros sch t rest Hs Hrest.
    apply (normalize_url_rest sch t rest); try done.
    - by destruct Hs as [-> | ->].
    - by destruct Hs as [-> | ->].
    - by apply with_scheme_prefixed.
    - rewrite !sapp_assoc. by apply with_scheme_prefixed. }
  split_and!; [exact H1| |by intros; apply H1|done|done].
  intros url rest Hne Hsw Hrest.
  assert (Hsw' : startswith_any url ["http://"; "https://"] = false).
  { rewrite startswith_any_http in *.
    apply orb_false_iff in Hsw as [Ha Hb]. apply orb_false_iff.
    split; by eapply startswith_app_false. }
  apply (normalize_url_rest "https" url rest); try done.
  - by right.
  - intros H%sapp_is_nil. done.
  - unfold with_scheme. by rewrite Hsw'.
  - unfold with_scheme. by rewrite Hsw.
Qed.

Lemma normalize_feed_url_fixed x n ws :
  normalize_feed_url (PyStr x) = Returned (Some n) ->
  has_chr ";" n = false ->
  last_chr_is isspace n = false ->
  all_chr isspace ws = true ->
  normalize_feed_url (PyStr (ws +:+ n)) = Returned (Some n).
Proof.
  intros H Hn_semi Hlast Hws.
  pose proof (normalize_feed_url_head _ _ H) as [n' Hhead].
  apply normalize_feed_url_inv in H as (sch & t & r & Hs & _ & _ & Hr & Hn).
  set (P := rstrip is_slash (parsed_path (s_path r))) in *.
  set (Q := query_suffix (s_query r)) in *.
  assert (Hstrip : strip (ws +:+ n) = n).
  { unfold strip. rewrite (lstrip_app_all _ _ _ Hws).
    rewrite Hhead at 1. rewrite lstrip_id by done. rewrite <- Hhead.
    by apply rstrip_fix. }
  assert (Hne : strip (ws +:+ n) <> EmptyString).
  { rewrite Hstrip, Hhead. done. }
  assert (Hw : with_scheme (strip (ws +:+ n))
               = sch +:+ "://" +:+ (s_netloc r +:+ P +:+ Q)).
  { rewrite Hstrip, Hn. by apply with_scheme_prefixed. }
  rewrite (normalize_feed_url_eq _ _ _ Hs Hne Hw).
  destruct (split_authority_chars (fun c => negb (_UNSAFE_URL_BYTES_TO_REMOVE c))
              _ _ _ Hr (remove_chrs_clean _ t)) as (Hcn & Hcp & Hcq).
  assert (HcP : all_chr (fun c => negb (_UNSAFE_URL_BYTES_TO_REMOVE c)) P = true).
  { by apply all_chr_rstrip, all_chr_parsed_path. }
  assert (HcQ : all_chr (fun c => negb (_UNSAFE_URL_BYTES_TO_REMOVE c)) Q = true).
  { unfold Q, query_suffix. destruct (negb _); [|done]. simpl. done. }
  rewrite remove_chrs_id by (by rewrite !all_chr_app, Hcn, HcP, HcQ).
  pose proof (split_authority_marks _ _ _ Hr) as (_ & _ & Hp1 & Hp2 & Hq1).
  pose proof (split_authority_path _ _ _ Hr) as Hstart.
  apply split_authority_inv in Hr as (_ & _ & _ & Hcheck & _ & Hdelim & _).
  unfold Q.
  rewrite (split_authority_build sch (s_netloc r) P (s_query r)); try done.
  - simpl.
    assert (HP_semi : has_chr ";" P = false).
    { rewrite Hn, !has_chr_app in Hn_semi.
      repeat (apply orb_false_iff in Hn_semi as [? Hn_semi]). done. }
    rewrite (parsed_path_id P HP_semi). unfold P at 1.
    rewrite rstrip_idem. fold P. by rewrite Hn.
  - by apply rstrip_start, parsed_path_start.
  - by apply has_chr_rstrip, has_chr_parsed_path.
  - by apply has_chr_rstrip, has_chr_parsed_path.
Qed.

Lemma all_chr_last p s :
  all_chr (fun c => negb (p c)) s = true -> last_chr_is p s = false.
Proof.
  induction s as [|c [|d s] IH]; [done|..].
  - simpl. rewrite andb_true_r. by intros ->%negb_true_iff.
  - intros [_ H]%andb_true_iff. by apply IH.
Qed.

(** X13.  A second pass of [normalize_feed_url] changes nothing on a
    result of the first pass that holds no semicolon and does not end in
    a whitespace character; in particular on the result for any input
    free of whitespace and semicolons.  Both provisos are needed:
    "http://x.com/a;/" gives "http://x.com/a;", which a second pass turns
    into "http://x.com/a", and "http://x.com/a /" gives a text ending in
    a space, which a second pass trims. *)
Theorem normalize_feed_url_idempotent :
  (forall x n,
     normalize_feed_url (PyStr x) = Returned (Some n) ->
     has_chr ";" n = false -> last_chr_is isspace n = false ->
     normalize_feed_url (PyStr n) = Returned (Some n))
  /\ (forall x n,
        normalize_feed_url (PyStr x) = Returned (Some n) ->
        all_chr (fun c => negb (isspace c || Ascii.eqb c ";")) x = true ->
        normalize_feed_url (PyStr n) = Returned (Some n))
  /\ normalize_feed_url (PyStr "http://x.com/a;/") = Returned (Some "http://x.com/a;")
  /\ normalize_feed_url (PyStr "http://x.com/a;") = Returned (Some "http://x.com/a")
  /\ normalize_feed_url (PyStr "http://x.com/a /") = Returned (Some "http://x.com/a ")
  /\ normalize_feed_url (PyStr "http://x.com/a ") = Returned (Some "http://x.com/a").
Proof.
  drop_vars.
  assert (H1 : forall x n,
            normalize_feed_url (PyStr x) = Returned (Some n) ->
            has_chr ";" n = false -> last_chr_is isspace n = false ->
            normalize_feed_url (PyStr n) = Returned (Some n)).
  { intros x n H Hsemi Hlast.
    by apply (normalize_feed_url_fixed x n EmptyString). }
  split_and!; [exact H1| |done..].
  intros x n H Hx.
  pose proof (normalize_feed_url_chars
                (fun c => negb (isspace c || Ascii.eqb c ";")) _ _ H eq_refl Hx)
    as Hn.
  apply (H1 x n H).
  - apply has_chr_all_chr. eapply all_chr_impl; [|exact Hn].
    intros c. cbv beta. rewrite (Ascii.eqb_sym ";" c).
    by destruct (isspace c), (Ascii.eqb c ";").
  - apply all_chr_last. eapply all_chr_impl; [|exact Hn].
    intros c. cbv beta. by destruct (isspace c).
Qed.

(** ** The table under repeated saves *)

(** What one successful save leaves behind: a row for the site, counting
    at least as many feeds as the list saved; no other row changes and no
    row disappears. *)
Lemma save_website_result_after db website_url rss_string db' :
  save_website_result db website_url rss_string = Returned db' ->
  exists key new_list,
    normalize_url website_url = Returned key
    /\ normalize_feed_list rss_string = Returned new_list
    /\ is_Some (db' !! key)
    /\ length new_list <= stored_count (db' !! key)
    /\ (forall k, k <> key -> db' !! k = db !! k)
    /\ (forall k, is_Some (db !! k) -> is_Some (db' !! k)).
Proof.
  intros H.
  destruct (save_website_result_inv _ _ _ _ H) as (key & new_list & Hk & Hl).
  rewrite (save_website_result_eq db _ _ key new_list Hk Hl) in H.
  injection H as <-. exists key, new_list. split; [done|]. split; [done|].
  assert (Hcount : new_list <> [] ->
            stored_count (Some (Some (join "; " new_list))) = length new_list).
  { intros Hne. unfold stored_count.
    by apply (normalize_feed_list_stored rss_string). }
  destruct (db !! key) as [old|] eqn:Hold.
  - destruct (Nat.ltb_spec (length (stored_list old)) (length new_list)) as [Hlt|Hle].
    + rewrite lookup_insert_eq. split_and!; [done| | |].
      * rewrite Hcount; [done|]. intros ->. simpl in Hlt. lia.
      * intros k Hne. by rewrite lookup_insert_ne.
      * intros k Hk'. destruct (decide (key = k)) as [->|Hne];
          [by rewrite lookup_insert_eq|by rewrite lookup_insert_ne].
    + rewrite Hold. by split_and!.
  - rewrite lookup_insert_eq. split_and!; [done| | |].
    + destruct new_list as [|n new_list]; [simpl; lia|]. by rewrite Hcount.
    + intros k Hne. by rewrite lookup_insert_ne.
    + intros k Hk'. destruct (decide (key = k)) as [->|Hne];
        [by rewrite lookup_insert_eq|by rewrite lookup_insert_ne].
Qed.

(** A save whose list is no longer than what the row counts is skipped. *)
Lemma save_website_result_skip db website_url rss_string key new_list :
  normalize_url website_url = Returned key ->
  normalize_feed_list rss_string = Returned new_list ->
  is_Some (db !! key) ->
  length new_list <= stored_count (db !! key) ->
  save_website_result db website_url rss_string = Returned db.
Proof.
  intros Hk Hl [old Hold] Hle.
  rewrite (save_website_result_eq db _ _ key new_list Hk Hl), Hold.
  rewrite Hold in Hle. cbn [stored_count] in Hle.
  by destruct (Nat.ltb_spec (length (stored_list old)) (length new_list)); [lia|].
Qed.

Lemma save_batch_results_steps db results db' :
  save_batch_results db results = Returned db' -> rtc save_step db db'.
Proof.
  revert db. induction results as [|item results IH]; intros db; simpl.
  - by intros [= <-].
  - destruct (save_website_result db (website item) (rss item)) as [db1|e] eqn:H1;
      [|done]. simpl. intros H.
    eapply rtc_l; [by exists (website item), (rss item)|by apply IH].
Qed.

Lemma rows_kept db db' :
  rtc save_step db db' -> forall k, is_Some (db !! k) -> is_Some (db' !! k).
Proof.
  induction 1 as [|db db1 db' (w & r & Hs) _ IH]; [done|].
  intros k Hk. apply IH.
  apply save_website_result_after in Hs as (_ & _ & _ & _ & _ & _ & _ & Hkeep).
  by apply Hkeep.
Qed.

(** X14.  Saving a batch touches only the rows of the sites in the batch:
    when [save_batch_results] returns, no row of the table has
    disappeared, every row whose key is the normalized URL of no site of
    the batch is exactly as before, and every site of the batch has a
    row under its normalized URL, even when no feed was found for it. *)
Theorem save_batch_results_keeps_rows db results db' :
  save_batch_results db results = Returned db' ->
  (forall key, is_Some (db !! key) -> is_Some (db' !! key))
  /\ (forall key,
        (forall item, item ∈ results ->
                      normalize_url (website item) <> Returned key) ->
        db' !! key = db !! key)
  /\ (forall item, item ∈ results ->
        exists key, normalize_url (website item) = Returned key
                    /\ is_Some (db' !! key)).
Proof.
  intros H. split; [by eapply rows_kept, save_batch_results_steps|].
  revert db H. induction results as [|item results IH]; intros db; simpl.
  - intros [= <-]. split; [done|]. by intros item ?%elem_of_nil.
  - destruct (save_website_result db (website item) (rss item)) as [db1|e] eqn:H1;
      [|done]. simpl. intros H.
    destruct (IH _ H) as [Hframe Hrows].
    apply save_website_result_after in H1
      as (key1 & _ & Hk1 & _ & Hsome & _ & Hother & _).
    split.
    + intros key Hkey. rewrite Hframe.
      * apply Hother. intros ->. apply (Hkey item); [by left|done].
      * intros it Hit. apply Hkey. by right.
    + intros it [->|Hit]%elem_of_cons; [|by apply Hrows].
      exists key1. split; [done|].
      eapply rows_kept; [by eapply save_batch_results_steps|done].
Qed.

(** X15.  Saving is idempotent: a save that succeeded, run again on the
    table it produced, leaves that table as it is; and so does a whole
    batch run a second time, since every row then counts at least as many
    feeds as the list that was saved for it. *)
Theorem save_website_result_idempotent :
  (forall db website_url rss_string db',
     save_website_result db website_url rss_string = Returned db' ->
     save_website_result db' website_url rss_string = Returned db')
  /\ (forall db results db',
        save_batch_results db results = Returned db' ->
        save_batch_results db' results = Returned db').
Proof.
  split.
  - intros db w r db' H.
    apply save_website_result_after in H as (key & new_list & ? & ? & ? & ? & _).
    by eapply save_website_result_skip.
  - intros db results db' H.
    assert (Hall : forall item, item ∈ results ->
              save_website_result db' (website item) (rss item) = Returned db').
    { revert db H. induction results as [|item results IH]; intros db; simpl.
      - by intros _ item ?%elem_of_nil.
      - destruct (save_website_result db (website item) (rss item))
          as [db1|e] eqn:H1; [|done]. simpl. intros H.
        intros it [->|Hit]%elem_of_cons; [|by eapply IH].
        apply save_website_result_after in H1
          as (key & new_list & Hk & Hl & Hsome & Hlen & _).
        apply save_batch_results_steps in H.
        eapply save_website_result_skip; [done|done|by eapply rows_kept|].
        etrans; [exact Hlen|]. by apply saves_monotone. }
    clear H. induction results as [|item results IH]; [done|]. simpl.
    rewrite Hall by (by left). simpl. apply IH.
    intros it Hit. apply Hall. by right.
Qed.

(** ** From the result of a site to the table and the summary *)

Lemma normalize_url_blank url : normalize_url url = Returned EmptyString -> url = EmptyString.
Proof.
  intros Hu. destruct (decide (url = EmptyString)) as [|Hne]; [done|].
  apply (normalize_url_inv _ _ Hne) in Hu as (sch & t & r & Hs & _ & _ & Hu).
  by destruct Hs as [-> | ->].
Qed.

(** A list of URLs as [process_website] reports them: pairwise distinct
    results of [normalize_feed_url]. *)
Lemma result_of_urls_feeds u urls :
  exists feeds,
    NoDup feeds
    /\ Forall (fun n => exists x, normalize_feed_url (PyStr x) = Returned (Some n)) feeds
    /\ rss (result_of_urls u urls) = rss_text feeds.
Proof.
  unfold result_of_urls. cbn [rss].
  destruct (normalize_all urls) as [feeds|e] eqn:Hn.
  - exists (dict_fromkeys feeds). split_and!; [apply dict_fromkeys_NoDup| |done].
    apply Forall_forall. intros n Hin. rewrite dict_fromkeys_spec in Hin.
    apply (normalize_all_spec _ _ Hn) in Hin as (v & _ & Hv). by exists v.
  - exists []. split_and!; [constructor|constructor|done].
Qed.

Lemma process_website_feeds url feed_finder hub_parser session r log :
  process_website url feed_finder hub_parser session = (Returned r, log) ->
  normalize_url (website r) = Returned (website r)
  /\ exists feeds,
       NoDup feeds
       /\ Forall (fun n => exists x, normalize_feed_url (PyStr x) = Returned (Some n))
            feeds
       /\ rss r = rss_text feeds.
Proof.
  intros H.
  assert (Hnil : exists feeds : list string,
            NoDup feeds
            /\ Forall (fun n => exists x,
                         normalize_feed_url (PyStr x) = Returned (Some n)) feeds
            /\ "Not found" = rss_text feeds).
  { exists []. split_and!; [constructor|constructor|done]. }
  destruct (normalize_url url) as [u|e] eqn:Hu.
  2: { unfold process_website, lift, iobind in H. by rewrite Hu in H. }
  destruct (is_empty u) eqn:He.
  - apply is_empty_true in He as ->.
    rewrite (process_website_invalid _ _ _ _ Hu) in H. injection H as <- <-.
    apply normalize_url_blank in Hu as ->. split; [apply normalize_url_nil|done].
  - rewrite (process_website_unfold _ _ _ _ _ Hu He) in H.
    apply is_empty_false in He.
    destruct (normalize_url_origin _ _ Hu He) as (_ & _ & _ & _ & _ & _ & Hfix).
    repeat case_match; injection H as <- <-; cbn [website rss];
      (split; [done|]); try done; apply result_of_urls_feeds.
Qed.




Lemma rss_text_count feeds :
  Forall (fun n => has_chr ";" n = false /\ exists n', n = String "h" n') feeds ->
  (String.eqb (rss_text feeds) "Not found" = (length feeds =? 0)%nat)
  /\ (feeds <> [] -> length (split ";" (rss_text feeds)) = length feeds).
Proof.
  intros Hall. destruct feeds as [|x rest]; [done|].
  assert (Hsemi : Forall (fun u => has_chr ";" u = false) (x :: rest)).
  { eapply Forall_impl; [exact Hall|]. by intros ? [? _]. }
  inversion Hall as [|? ? [_ [x' ->]] _]; subst.
  unfold rss_text. split.
  - by destruct (join_head "; " "h" x' rest) as [j ->].
  - intros _. rewrite (split_join _ _ Hsemi). cbn [length]. by rewrite length_map.
Qed.

(** X17.  The numbers [print_summary] prints add up: the sites with and
    without feeds make the total, the feed total is absent exactly when
    every result reads "Not found", and it is never below the number of
    sites with feeds.  A result is counted as one with feeds exactly when
    its feed list is not empty, and, as long as no feed holds a semicolon,
    the feed total is the number of feeds reported over all sites.  The
    count is made by splitting the text at semicolons, so the single feed
    "http://x.com/a?x=1;y=2" is counted as 2. *)
Theorem print_summary_counts :
  (forall results,
     total (print_summary results) = length results
     /\ with_feeds (print_summary results) + without_feeds (print_summary results)
        = length results
     /\ (total_feeds (print_summary results) = None
         <-> Forall (fun r => rss r = "Not found") results)
     /\ (forall n, total_feeds (print_summary results) = Some n ->
                   with_feeds (print_summary results) <= n))
  /\ (forall url feed_finder hub_parser session r log,
        process_website url feed_finder hub_parser session = (Returned r, log) ->
        exists feeds,
          rss r = rss_text feeds
          /\ Forall (fun n => exists n', n = String "h" n') feeds)
  /\ (forall results reported,
        Forall2 (fun r feeds =>
                   rss r = rss_text feeds
                   /\ Forall (fun n => has_chr ";" n = false
                                       /\ exists n', n = String "h" n') feeds)
          results reported ->
        with_feeds (print_summary results)
        = length (List.filter (fun feeds => negb (length feeds =? 0)%nat) reported)
        /\ forall n, total_feeds (print_summary results) = Some n ->
                     n = list_sum (List.map (@length string) reported))
  /\ print_summary [mkResult "https://x.com" (rss_text ["http://x.com/a?x=1;y=2"])]
     = mkSummary 1 1 0 (Some 2).
Proof.
  split_and!; [| | |done].
  - drop_vars. intros results. unfold print_summary. cbn [total with_feeds without_feeds total_feeds].
    set (found := List.filter _ results).
    pose proof (length_bool_filter
                  (fun r => negb (String.eqb (rss r) "Not found")) results) as Hle.
    fold found in Hle. split_and!; [done|lia|..].
    + destruct (Nat.ltb_spec 0 (length found)) as [Hpos|Hzero].
      * split; [done|]. intros Hall. exfalso.
        destruct found as [|r found'] eqn:Hf; [simpl in Hpos; lia|].
        assert (Hr : r ∈ List.filter
                       (fun r => negb (String.eqb (rss r) "Not found")) results).
        { fold found. rewrite Hf. by left. }
        apply elem_of_bool_filter in Hr as [Hin Hr].
        rewrite Forall_forall in Hall. rewrite (Hall r Hin) in Hr. done.
      * split; [|done]. intros _. apply Forall_forall. intros r Hin.
        destruct (String.eqb_spec (rss r) "Not found") as [|Hne]; [done|].
        assert (Hr : r ∈ found).
        { apply elem_of_bool_filter. split; [done|].
          by apply negb_true_iff, String.eqb_neq. }
        destruct found; [by apply elem_of_nil in Hr|simpl in Hzero; lia].
    + intros n. destruct (0 <? length found)%nat; [|done]. intros [= <-].
      clear. induction found as [|r found IH]; [done|].
      cbn [List.map list_sum fold_right length].
      pose proof (split_nonempty ";" (rss r)) as Hne.
      destruct (split ";" (rss r)); [done|]. cbn [length].
      unfold list_sum in IH. lia.
  - intros url feed_finder hub_parser session r log H.
    apply process_website_feeds in H as (_ & feeds & _ & Hnorm & Hrss).
    exists feeds. split; [done|].
    eapply Forall_impl; [exact Hnorm|].
    intros n [x Hx]. by apply (normalize_feed_url_head x).
  - drop_vars. intros results reported Hrep.
    unfold print_summary. cbn [with_feeds total_feeds].
    assert (Hsum :
      length (List.filter (fun r => negb (String.eqb (rss r) "Not found")) results)
      = length (List.filter (fun feeds => negb (length feeds =? 0)%nat) reported)
      /\ list_sum (List.map (fun r => length (split ";" (rss r)))
                     (List.filter (fun r => negb (String.eqb (rss r) "Not found"))
                        results))
         = list_sum (List.map (@length string) reported)).
    { induction Hrep as [|r feeds results reported [Hrss Hall] _ [IH1 IH2]];
        [done|].
      cbn [List.filter List.map list_sum fold_right].
      destruct (rss_text_count feeds Hall) as [Heq Hlen]. rewrite Hrss, Heq.
      destruct feeds as [|x rest]; [done|].
      cbn [negb length Nat.eqb List.map list_sum fold_right].
      unfold list_sum in IH2. rewrite IH1, IH2, Hrss, Hlen by done.
      done. }
    destruct Hsum as [Hw Ht]. split; [done|].
    intros n. destruct (0 <? _)%nat; [|done]. intros [= <-]. done.
Qed.

(** ** The input file *)

Lemma collect_urls_rows rows websites :
  Forall (fun row => row !! "url" <> Some None) rows ->
  collect_urls rows websites
  = Returned (websites
              ++ List.filter (fun site => negb (is_empty site))
                   (List.map (fun row => strip (url_cell row)) rows)).
Proof.
  revert websites. induction rows as [|row rows IH]; intros websites Hall.
  - cbn. by rewrite app_nil_r.
  - inversion Hall as [|? ? Hrow Hrest]; subst.
    cbn [collect_urls List.map List.filter]. unfold url_cell.
    destruct (row !! "url") as [[cell|]|]; [|done|];
      cbn [default from_option id]; cbv iota.
    + destruct (negb (is_empty (strip cell))); rewrite IH by done;
        [by rewrite <- app_assoc|done].
    + change (strip "") with "". cbn [is_empty negb]. by rewrite IH.
Qed.

Lemma collect_urls_short rows websites row :
  row ∈ rows -> row !! "url" = Some None ->
  exists e, collect_urls rows websites = Raised e.
Proof.
  intros Hin Hrow. revert websites.
  induction rows as [|row' rows IH]; intros websites;
    [by apply elem_of_nil in Hin|].
  cbn [collect_urls].
  destruct (decide (row' !! "url" = Some None)) as [->|Hne]; [by eexists|].
  apply elem_of_cons in Hin as [->|Hin]; [done|].
  destruct (default (Some EmptyString) (row' !! "url")); [|by eexists].
  destruct (negb _); by apply IH.
Qed.

Lemma collect_urls_clean rows websites result :
  collect_urls rows websites = Returned result ->
  Forall (fun site => site <> EmptyString /\ strip site = site) websites ->
  Forall (fun site => site <> EmptyString /\ strip site = site) result.
Proof.
  revert websites. induction rows as [|row rows IH]; intros websites;
    cbn [collect_urls].
  - by intros [= <-].
  - destruct (default (Some EmptyString) (row !! "url")) as [cell|]; [|done].
    destruct (negb (is_empty (strip cell))) eqn:Hc; intros H Hall;
      (eapply IH; [exact H|]); [|done].
    apply Forall_app. split; [done|]. constructor; [|constructor].
    split; [|apply strip_idem].
    by apply is_empty_false, negb_true_iff.
Qed.

(** X18.  [read_websites] never raises and hands on clean sites only:
    every element of its result is non-empty and carries no whitespace at
    either end.  With every line as long as the header it gives, in file
    order, the trimmed cells of the column "url" that are not blank (none
    when there is no such column); a single line too short to reach the
    column empties the whole result, as does a missing or unreadable
    file.  So [process_website] never meets the empty input on a site read
    from the file: the [website] of its result is the normalized URL. *)
Theorem read_websites_gives_clean_sites file_exists reader :
  Forall (fun site => site <> EmptyString /\ strip site = site)
    (read_websites file_exists reader)
  /\ (forall rows,
        reader = Returned rows ->
        Forall (fun row => row !! "url" <> Some None) rows ->
        read_websites true reader
        = List.filter (fun site => negb (is_empty site))
            (List.map (fun row => strip (url_cell row)) rows))
  /\ (forall rows row,
        reader = Returned rows -> row ∈ rows -> row !! "url" = Some None ->
        read_websites file_exists reader = [])
  /\ (forall e, reader = Raised e -> read_websites file_exists reader = [])
  /\ read_websites false reader = []
  /\ (forall site feed_finder hub_parser session r log,
        site ∈ read_websites file_exists reader ->
        process_website site feed_finder hub_parser session = (Returned r, log) ->
        website r <> EmptyString
        /\ normalize_url site = Returned (website r)).
Proof.
  assert (Hclean : Forall (fun site => site <> EmptyString /\ strip site = site)
                     (read_websites file_exists reader)).
  { drop_vars. unfold read_websites. destruct file_exists; [|constructor]. cbn [negb].
    destruct reader as [rows|e]; [|constructor]. cbn [obind].
    destruct (collect_urls rows []) as [websites|e] eqn:Hc; [|constructor].
    apply collect_urls_clean in Hc; [|constructor].
    by destruct websites. }
  split_and!; [done|..|done|].
  - drop_vars. intros rows -> Hall. unfold read_websites. cbn [negb obind].
    rewrite (collect_urls_rows _ _ Hall). cbn [app]. by case_match.
  - drop_vars. intros rows row -> Hin Hrow. unfold read_websites.
    destruct file_exists; [|done]. cbn [negb obind].
    by destruct (collect_urls_short rows [] row Hin Hrow) as [e ->].
  - drop_vars. intros e ->. unfold read_websites. by destruct file_exists.
  - intros site feed_finder hub_parser session r log Hin Hr.
    rewrite Forall_forall in Hclean. destruct (Hclean site Hin) as [Hne _].
    destruct (normalize_url site) as [u|e] eqn:Hu.
    2: { unfold process_website, lift, iobind in Hr. by rewrite Hu in Hr. }
    destruct (process_website_returns site feed_finder hub_parser session u Hu)
      as (r' & log' & Hr' & Hw).
    rewrite Hr in Hr'. injection Hr' as <- <-.
    assert (Hu' : u <> EmptyString).
    { intros ->. by apply normalize_url_blank in Hu. }
    apply is_empty_false in Hu'. rewrite Hu' in Hw. rewrite Hw.
    split; [by apply is_empty_false|done].
Qed.

(** ** The limiter of the batch validation *)

Lemma limiter_conservation feeds st :
  rtc limiter_step (validate_start feeds) st ->
  waiting st ++ in_flight st ++ finished st ≡ₚ feeds.
Proof.
  revert st. apply rtc_ind_r; [cbn; by rewrite app_nil_r|].
  intros mid st _ Hstep IH. destruct Hstep; cbn in *.
  - rewrite <- IH, <- !app_assoc. cbn.
    by rewrite (Permutation_middle w2 (r ++ d) f).
  - rewrite <- IH. apply Permutation_app_head.
    rewrite <- !app_assoc. cbn.
    by rewrite (Permutation_middle r2 d f).
Qed.

Lemma limiter_step_work st st' :
  limiter_step st st' -> limiter_work st = S (limiter_work st').
Proof.
  intros []; unfold limiter_work; cbn; rewrite !length_app; cbn; lia.
Qed.

(** X19.  The limiter of [validate_feeds] loses no feed and never
    blocks: in every state it can reach, the feeds waiting, in flight and
    finished are together the feeds it was started with; as long as a
    feed is waiting or in flight some step is possible; every step
    reduces the work left by one, so any run from the start takes at most
    two steps per feed; and a state from which no step is possible has
    every feed finished. *)
Theorem limiter_checks_every_feed feeds st :
  rtc limiter_step (validate_start feeds) st ->
  waiting st ++ in_flight st ++ finished st ≡ₚ feeds
  /\ (waiting st <> [] \/ in_flight st <> [] -> exists st', limiter_step st st')
  /\ (forall n st', nsteps limiter_step n st st' ->
                    n + limiter_work st' = limiter_work st)
  /\ (forall n, nsteps limiter_step n (validate_start feeds) st ->
                n <= 2 * length feeds)
  /\ ((forall st', ~ limiter_step st st') -> finished st ≡ₚ feeds).
Proof.
  drop_vars. intros Hreach.
  pose proof (limiter_conservation _ _ Hreach) as Hcons.
  pose proof (limiter_invariant _ _ Hreach) as Hinv.
  assert (Hprogress : waiting st <> [] \/ in_flight st <> [] ->
                      exists st', limiter_step st st').
  { destruct st as [w r d n]. cbn in *.
    destruct r as [|f r].
    - intros [Hw|Hr]; [|done]. destruct w as [|f w]; [done|].
      cbn in Hinv. subst n. eexists. apply (step_acquire [] f w [] d 9).
    - intros _. eexists. apply (step_release w [] f r d n). }
  assert (Hwork : forall n a b, nsteps limiter_step n a b ->
                    n + limiter_work b = limiter_work a).
  { intros n a b. induction 1 as [|n a m b Hs _ IH]; [done|].
    apply limiter_step_work in Hs. lia. }
  split_and!; [done|done|by intros; apply Hwork| |].
  - intros n Hn. apply Hwork in Hn. unfold limiter_work in Hn at 2.
    cbn in Hn. lia.
  - intros Hstuck.
    destruct (waiting st) as [|f w] eqn:Hw.
    + destruct (in_flight st) as [|f r] eqn:Hr; [done|].
      destruct Hprogress as [st' Hs]; [by right|]. by apply Hstuck in Hs.
    + destruct Hprogress as [st' Hs]; [by left|]. by apply Hstuck in Hs.
Qed.

(** ** The site result and what was found *)

Lemma sublist_map_filter {A B} (f : A -> B) (g : A -> bool) (l : list A) :
  List.map f (List.filter g l) `sublist_of` List.map f l.
Proof.
  induction l as [|x l IH]; simpl; [constructor|].
  destruct (g x); simpl; by constructor.
Qed.

Lemma Forall_sublist {A} (P : A -> Prop) (l1 l2 : list A) :
  l1 `sublist_of` l2 -> Forall P l2 -> Forall P l1.
Proof.
  induction 1 as [|x l1 l2 _ IH|x l1 l2 _ IH]; intros H; [done|..].
  - inversion H; subst. constructor; [done|by apply IH].
  - inversion H; subst. by apply IH.
Qed.

Lemma normalize_all_fixed urls :
  Forall (fun n => normalize_feed_url (PyStr n) = Returned (Some n)) urls ->
  normalize_all urls = Returned urls.
Proof.
  induction 1 as [|n urls Hn _ IH]; [done|].
  rewrite normalize_all_cons, Hn, IH. cbn [obind].
  by destruct (normalize_feed_url_head _ _ Hn) as [n' ->].
Qed.

Lemma result_of_urls_fixed u urls :
  NoDup urls ->
  Forall (fun n => exists x, normalize_feed_url (PyStr x) = Returned (Some n)) urls ->
  Forall storable urls ->
  result_of_urls u urls = mkResult u (rss_text urls).
Proof.
  intros Hnd Hnorm Hst. unfold result_of_urls.
  rewrite normalize_all_fixed, dict_fromkeys_id; [done|done|].
  apply Forall_forall. intros n Hn. rewrite Forall_forall in Hnorm, Hst.
  destruct (Hnorm n Hn) as [x Hx]. destruct (Hst n Hn) as [? ?].
  by apply (normalize_feed_url_fixed x n EmptyString).
Qed.

Lemma find_feeds_normalized url session feeds log :
  find_feeds url session = (Returned feeds, log) ->
  NoDup feeds
  /\ Forall (fun n => exists x, normalize_feed_url (PyStr x) = Returned (Some n)) feeds.
Proof.
  intros H. pose proof (find_feeds_cases url session) as Hc.
  destruct (session _) as [response|e];
    [destruct (raise_for_status response) as [[]|e]|].
  2,3: rewrite Hc in H; injection H as <- <-; split; constructor.
  destruct (normalize_url url) as [base_url|e];
    [destruct (urlparse url) as [parsed|e]|];
    rewrite Hc in H; try discriminate.
  destruct (find_feeds_strategies _ _ _ _ _) as [[results|e] slog];
    cbn [fst snd] in H; [|done].
  assert (Hn : normalize_unique (returned_lists results) [] = Returned feeds)
    by congruence.
  apply normalize_unique_spec in Hn as [Hnd Hmem]; [|constructor].
  split; [done|]. apply Forall_forall.
  intros n [Hn|(x & _ & Hx)]%Hmem; [by apply elem_of_nil in Hn|by exists x].
Qed.

Lemma parse_feeds_records hub_url session feeds log :
  parse_feeds hub_url session = (Returned feeds, log) ->
  NoDup (List.map rec_url feeds)
  /\ Forall (fun n => exists x, normalize_feed_url (PyStr x) = Returned (Some n))
       (List.map rec_url feeds).
Proof.
  unfold parse_feeds, lift, iobind.
  destruct (normalize_url hub_url) as [base_url|e]; [|done].
  destruct (fetch_page hub_url session) as [[content|e] flog]; [|done].
  destruct (negb (truthy content)).
  { intros [= <- _]. split; constructor. }
  destruct (add_link_tags _ _ _) as [feeds1|e] eqn:H1; [|done].
  destruct (add_anchors _ _ _) as [feeds2|e] eqn:H2; [|done].
  intros [= <- _].
  assert (Hwf : NoDup (List.map rec_url feeds2)
                /\ Forall (parsed_from base_url (default EmptyString content)) feeds2).
  { eapply add_anchors_well_formed; [exact H2|done|].
    eapply add_link_tags_well_formed; [exact H1|done|].
    split; constructor. }
  destruct Hwf as [Hnd Hall]. split; [done|].
  apply Forall_fmap. eapply Forall_impl; [exact Hall|].
  intros f (href & full & _ & Hn & _). by exists full.
Qed.

(** X20.  The second normalization in [process_website] changes nothing
    on feeds that hold no semicolon and do not end in whitespace: the
    site result then lists exactly what was found, in the order it was
    found.  On the generic route these are the feeds of [find_feeds]; on
    the hub route they are the URLs of the records of [parse_feeds], all
    of them up to 5 records and those that pass the validation
    beyond. *)
Theorem site_result_lists_what_was_found url u session :
  normalize_url url = Returned u -> u <> EmptyString ->
  (any_in hub_patterns (lower u) = false ->
   forall hub_parser feeds log,
     find_feeds u session = (Returned feeds, log) ->
     Forall storable feeds ->
     process_website url FeedFinder hub_parser session
     = (Returned (mkResult u (rss_text feeds)), log))
  /\ (any_in hub_patterns (lower u) = true ->
      forall feed_finder records log,
        parse_feeds u session = (Returned records, log) ->
        Forall storable (List.map rec_url records) ->
        fst (process_website url feed_finder RSSHubParser session)
        = Returned
            (mkResult u
               (rss_text
                  (List.map rec_url
                     (if (5 <? length records)%nat
                      then List.filter (feed_validates session) records
                      else records))))).
Proof.
  intros Hu Hne. apply is_empty_false in Hne. split.
  - intros Hhub hub_parser feeds log Hf Hst.
    rewrite (process_website_unfold _ _ _ _ _ Hu Hne), Hhub.
    cbn [find_feeds_of FeedFinder]. rewrite Hf.
    destruct (find_feeds_normalized _ _ _ _ Hf) as [Hnd Hnorm].
    by rewrite result_of_urls_fixed.
  - intros Hhub feed_finder records log Hp Hst.
    rewrite (process_website_unfold _ _ _ _ _ Hu Hne), Hhub.
    cbn [parse_feeds_of validate_feeds_of RSSHubParser]. rewrite Hp.
    destruct (parse_feeds_records _ _ _ _ Hp) as [Hnd Hnorm].
    destruct records as [|f records]; [done|].
    destruct (5 <? length (f :: records))%nat.
    + rewrite validate_feeds_eq. cbn [fst].
      rewrite result_of_urls_fixed; [done|..].
      * eapply sublist_NoDup; [exact Hnd|]. apply sublist_map_filter.
      * eapply Forall_sublist; [apply sublist_map_filter|exact Hnorm].
      * eapply Forall_sublist; [apply sublist_map_filter|exact Hst].
    + cbn [fst]. by rewrite result_of_urls_fixed.
Qed.

(** ** The title of an anchor *)




(** ** The display of the records *)

Lemma key_le_total f g : key_le f g = true \/ key_le g f = true.
Proof.
  unfold key_le. rewrite (String.eqb_sym (rec_category g)).
  destruct (String.eqb _ _); apply String.leb_total.
Qed.

Lemma key_le_category f g :
  key_le f g = true -> String.le (rec_category f) (rec_category g).
Proof.
  unfold key_le, String.le.
  destruct (String.eqb_spec (rec_category f) (rec_category g)) as [->|_].
  - intros _. destruct (String.leb_total (rec_category g) (rec_category g)) as [->| ->];
      done.
  - by intros ->.
Qed.

Lemma insert_by_key_Permutation feed l : insert_by_key feed l ≡ₚ feed :: l.
Proof.
  induction l as [|other l IH]; [done|]. cbn [insert_by_key].
  destruct (key_le feed other); [done|]. rewrite IH. apply Permutation_swap.
Qed.

Lemma insert_by_key_Sorted feed l :
  Sorted (fun f g => key_le f g = true) l ->
  Sorted (fun f g => key_le f g = true) (insert_by_key feed l).
Proof.
  induction 1 as [|other l Hs IH Hhd]; [by repeat constructor|].
  cbn [insert_by_key]. destruct (key_le feed other) eqn:Hle.
  - by repeat constructor.
  - constructor; [done|].
    destruct (key_le_total feed other) as [Hk|Hk]; [congruence|].
    destruct Hhd as [|next l' Hn]; cbn [insert_by_key]; [by constructor|].
    destruct (key_le feed next); by constructor.
Qed.

Lemma sort_by_key_Permutation feeds : sort_by_key feeds ≡ₚ feeds.
Proof.
  induction feeds as [|f feeds IH]; [done|].
  cbn [sort_by_key foldr]. fold (sort_by_key feeds).
  by rewrite insert_by_key_Permutation, IH.
Qed.

Lemma sort_by_key_Sorted feeds :
  Sorted (fun f g => key_le f g = true) (sort_by_key feeds).
Proof.
  induction feeds as [|f feeds IH]; [constructor|].
  cbn [sort_by_key foldr]. by apply insert_by_key_Sorted.
Qed.

(** In a list sorted by category a heading is due exactly at the first
    record of each category. *)
Lemma display_lines_length feeds previous seen :
  StronglySorted String.le (previous :: List.map rec_category feeds) ->
  previous ∈ seen -> Forall (fun s => String.le s previous) seen ->
  length (display_lines feeds (Some previous))
  = length (dict_fromkeys_from seen (List.map rec_category feeds))
    + 2 * length feeds.
Proof.
  revert previous seen. induction feeds as [|f feeds IH];
    intros previous seen Hs Hin Hseen; [done|].
  cbn [display_lines List.map dict_fromkeys_from].
  apply StronglySorted_inv in Hs as [Hs Hall].
  cbn [List.map] in Hs, Hall.
  pose proof (Forall_inv Hall) as Hpf.
  assert (Hseen' : forall c, Forall (fun s => String.le s (rec_category f)) (c ++ seen)
                             <-> Forall (fun s => String.le s (rec_category f)) c).
  { intros c. rewrite Forall_app. split; [by intros [? _]|]. intros ?. split; [done|].
    eapply Forall_impl; [exact Hseen|]. intros s Hsp. cbv beta in Hsp.
    by trans previous. }
  destruct (String.eqb_spec (rec_category f) previous) as [Heq|Hne].
  - assert (mem (rec_category f) seen = true) as ->.
    { apply mem_spec. by rewrite Heq. }
    cbn [negb app length]. rewrite (IH (rec_category f) seen); [lia|done|..].
    + by rewrite Heq.
    + by apply (Hseen' []).
  - assert (mem (rec_category f) seen = false) as ->.
    { apply mem_false. intros Hf. rewrite Forall_forall in Hseen.
      apply Hne. by apply (anti_symm String.le); [apply Hseen|]. }
    cbn [negb app length].
    rewrite (IH (rec_category f) (rec_category f :: seen)); [lia|done|by left|].
    apply (Hseen' [rec_category f]). by repeat constructor.
Qed.

Lemma dict_fromkeys_Permutation_length l1 l2 :
  l1 ≡ₚ l2 -> length (dict_fromkeys l1) = length (dict_fromkeys l2).
Proof.
  intros Hp. apply Permutation_length, NoDup_Permutation;
    [apply dict_fromkeys_NoDup..|].
  intros x. by rewrite !dict_fromkeys_spec, Hp.
Qed.

Lemma display_lines_members feeds current feed :
  feed ∈ feeds ->
  rec_title feed ∈ display_lines feeds current
  /\ rec_url feed ∈ display_lines feeds current.
Proof.
  revert current. induction feeds as [|f feeds IH]; intros current Hin;
    [by apply elem_of_nil in Hin|].
  cbn [display_lines]. rewrite !elem_of_app, !elem_of_cons.
  apply elem_of_cons in Hin as [->|Hin]; [tauto|].
  destruct (IH (Some (rec_category f)) Hin). tauto.
Qed.

(** X22.  [display_feeds] prints "No feeds found!" for the empty list and
    nothing else.  Otherwise it leaves the list sorted by category and
    then title, with the same records, and prints a first line with their
    number, then for every record its title and its URL, and one heading
    per category: the number of lines is one, plus the number of distinct
    categories, plus twice the number of records.  The first record is
    preceded by the heading of its category. *)
Theorem display_feeds_one_heading_per_category feeds :
  display_feeds [] = ([], ["No feeds found!"])
  /\ (feeds <> [] ->
      fst (display_feeds feeds) ≡ₚ feeds
      /\ Sorted (fun f g => key_le f g = true) (fst (display_feeds feeds))
      /\ length (snd (display_feeds feeds))
         = 1 + length (dict_fromkeys (List.map rec_category feeds))
           + 2 * length feeds
      /\ (exists rest,
            snd (display_feeds feeds)
            = ("Found " +:+ str_of_nat (length feeds) +:+ " RSS/Atom feeds")
              :: rest
            /\ rest = display_lines (fst (display_feeds feeds)) None
            /\ exists first others,
                 fst (display_feeds feeds) = first :: others
                 /\ firstn 3 rest
                    = [heading (rec_category first); rec_title first; rec_url first])
      /\ (forall feed, feed ∈ feeds ->
            rec_title feed ∈ snd (display_feeds feeds)
            /\ rec_url feed ∈ snd (display_feeds feeds)))
  /\ display_feeds [mkFeed "Tech" "Wired" "http://w.com/rss";
                    mkFeed "News" "BBC" "http://b.com/rss";
                    mkFeed "Tech" "Ars" "http://a.com/rss"]
     = ([mkFeed "News" "BBC" "http://b.com/rss";
         mkFeed "Tech" "Ars" "http://a.com/rss";
         mkFeed "Tech" "Wired" "http://w.com/rss"],
        ["Found 3 RSS/Atom feeds";
         heading "News"; "BBC"; "http://b.com/rss";
         heading "Tech"; "Ars"; "http://a.com/rss";
         "Wired"; "http://w.com/rss"]).
Proof.
  drop_vars. split; [done|]. split; [|done]. intros Hne.
  assert (Heq : display_feeds feeds
                = (sort_by_key feeds,
                   ("Found " +:+ str_of_nat (length (sort_by_key feeds))
                    +:+ " RSS/Atom feeds")
                   :: display_lines (sort_by_key feeds) None)).
  { by destruct feeds. }
  rewrite Heq. cbn [fst snd].
  pose proof (sort_by_key_Permutation feeds) as Hperm.
  pose proof (sort_by_key_Sorted feeds) as Hsorted.
  split_and!; [done|done|..].
  - cbn [length].
    rewrite <- (dict_fromkeys_Permutation_length
                  (List.map rec_category (sort_by_key feeds))),
            <- (Permutation_length Hperm) by (by rewrite Hperm).
    destruct (sort_by_key feeds) as [|f l]; [done|].
    cbn [display_lines app length List.map].
    unfold dict_fromkeys. cbn [dict_fromkeys_from mem existsb length].
    rewrite (display_lines_length l (rec_category f) [rec_category f]); [lia|..].
    + apply Sorted_StronglySorted; [apply _|].
      change (Sorted String.le (List.map rec_category (f :: l))).
      apply Sorted_fmap with (R1 := fun f g => key_le f g = true); [|done].
      intros a b. apply key_le_category.
    + by left.
    + by repeat constructor.
  - eexists. split; [by rewrite (Permutation_length Hperm)|]. split; [done|].
    destruct (sort_by_key feeds) as [|f l] eqn:Hs.
    + apply Permutation_nil_l in Hperm. by subst feeds.
    + by exists f, l.
  - intros feed Hin. rewrite <- Hperm in Hin.
    destruct (display_lines_members _ None _ Hin). split; by right.
Qed.

(** ** A save that raises *)



End Program.

(** * The claims at concrete inputs *)

(** A finder and a hub parser over pages without links. *)
Definition plain_finder : FeedFinderObj :=
  FeedFinder accept_all_hosts urljoin_absolute (fun _ => []) (fun _ => []).

Definition plain_hub_parser : HubParserObj :=
  RSSHubParser accept_all_hosts urljoin_absolute (fun _ => []) (fun _ => [])
    (fun _ => "RSS Feed").

(** A hub parser whose page lists the given records. *)
Definition listing_hub_parser (records : list FeedRecord) : HubParserObj :=
  mkHubParser (fun hub_url _ => (Returned records, [mkRequest hub_url 15]))
              validate_feeds.

Definition two_records : list FeedRecord :=
  [mkFeed "General" "News" "http://rss.example.com/news.xml";
   mkFeed "General" "Sport" "http://rss.example.com/sport.xml"].

Definition six_records : list FeedRecord :=
  [mkFeed "General" "A" "http://rss.example.com/a.xml";
   mkFeed "General" "B" "http://rss.example.com/b.xml";
   mkFeed "General" "C" "http://rss.example.com/c.xml";
   mkFeed "General" "D" "http://rss.example.com/d.xml";
   mkFeed "General" "E" "http://rss.example.com/e.xml";
   mkFeed "General" "F" "http://rss.example.com/f.xml"].

(** The table with one row of three feeds. *)
Definition three_feeds_stored : gmap string (option string) :=
  {[ "https://example.com" :=
       Some "http://a.com/1; http://a.com/2; http://a.com/3" ]}.

(** A network on which every URL answers with an RSS document. *)
Definition every_url_a_feed : Session :=
  fun _ => Returned (mkResponse 200 (Some "application/rss+xml") "<rss></rss>").

(** A WordPress site whose only feed is at "/feed". *)
Definition wordpress_site : Session :=
  fun request =>
    if String.eqb (req_url request) "https://example.com"
    then Returned (mkResponse 200 (Some "text/html") "<link href=/wp-content/a.css>")
    else if String.eqb (req_url request) "https://example.com/feed"
         then Returned (mkResponse 200 (Some "application/rss+xml; charset=utf-8") "")
         else Returned (mkResponse 404 None "").

(** A hub page that carries one feed [<link>], without a title. *)
Definition one_link_page : string -> list (option string * option string) :=
  fun _ => [(Some "http://a.com/feed.xml", None)].

(** A file of two lines: a site between blanks, and an empty cell. *)
Definition two_rows : list CsvRow :=
  [ {[ "url" := Some " example.com " ]}; {[ "url" := Some "" ]} ].

(** C2: a single trailing slash is not what the code removes.  On
    "http://x.com/feed//" the code removes both slashes, where the wording
    of the claim leaves one.  Besides, a text with another scheme gets
    "https://" put before it, and a text [urlparse] rejects gives neither
    [None] nor a URL: the exception propagates. *)
Lemma normalize_feed_url_strips_every_slash :
  normalize_feed_url accept_all_hosts (PyStr "http://x.com/feed//")
  = Returned (Some "http://x.com/feed")
  /\ normalizeFeedURL_spec accept_all_hosts "http://x.com/feed//"
     = Returned (Some "http://x.com/feed/")
  /\ normalize_feed_url accept_all_hosts (PyStr "http://x.com/feed//")
     <> normalizeFeedURL_spec accept_all_hosts "http://x.com/feed//"
  /\ normalize_feed_url accept_all_hosts (PyStr "ftp://x.com/feed")
     = Returned (Some "https://ftp://x.com/feed")
  /\ normalize_feed_url accept_all_hosts (PyStr "http://[::1") = Raised ValueError.
Proof.
  split; [reflexivity|]. split; [reflexivity|]. split; [discriminate|].
  split; reflexivity.
Qed.

Lemma normalize_feed_url_rules_witness :
  strip " x.com/feed/ " <> EmptyString
  /\ normalize_feed_url accept_all_hosts (PyStr " x.com/feed/ ")
     = normalize_feed_url accept_all_hosts (PyStr ("https://" +:+ strip " x.com/feed/ ")).
Proof.
  split; [discriminate|].
  apply (proj1 (proj2 (proj2 (proj2 (proj2 (normalize_feed_url_rules accept_all_hosts)))))
           " x.com/feed/ "); [discriminate|reflexivity].
Defined.

Lemma _check_feed_classifies_witness :
  fst (_check_feed "http://x.com/feed"
         (fun _ => Returned (mkResponse 404 None "<rss version=2>")))
  = Returned false
  /\ fst (_check_feed "http://x.com/feed"
            (fun _ => Returned (mkResponse 200 (Some "Application/RSS+XML") "")))
     = Returned true.
Proof.
  split.
  - apply (proj1 (proj2 (proj2 (_check_feed_classifies "http://x.com/feed"
             (fun _ => Returned (mkResponse 404 None "<rss version=2>"))))
             _ eq_refl)).
    discriminate.
  - apply (proj1 (proj2 (proj2 (proj2 (_check_feed_classifies "http://x.com/feed"
             (fun _ => Returned (mkResponse 200 (Some "Application/RSS+XML") ""))))
             _ eq_refl))); [reflexivity|].
    exists "xml". split; [set_solver|].
    by exists "Application/RSS+", "XML", "".
Defined.

Lemma save_website_result_policy_witness :
  save_website_result accept_all_hosts three_feeds_stored "example.com/"
    "http://b.com/x; http://b.com/y"
  = Returned three_feeds_stored
  /\ save_website_result accept_all_hosts three_feeds_stored "example.com/"
       "http://b.com/1; http://b.com/2; http://b.com/3; http://b.com/4"
     = Returned (<["https://example.com" :=
                     Some "http://b.com/1; http://b.com/2; http://b.com/3; http://b.com/4"]>
                   three_feeds_stored).
Proof.
  split.
  - apply (proj1 (proj2 (proj2 (proj2
      (proj1 (save_website_result_policy accept_all_hosts)
         three_feeds_stored "example.com/" "http://b.com/x; http://b.com/y"
         "https://example.com" ["http://b.com/x"; "http://b.com/y"]
         (Some "http://a.com/1; http://a.com/2; http://a.com/3")
         eq_refl eq_refl (lookup_singleton_eq _ _)))))); reflexivity.
  - apply (proj2 (proj2 (proj2 (proj2
      (proj1 (save_website_result_policy accept_all_hosts)
         three_feeds_stored "example.com/"
         "http://b.com/1; http://b.com/2; http://b.com/3; http://b.com/4"
         "https://example.com"
         ["http://b.com/1"; "http://b.com/2"; "http://b.com/3"; "http://b.com/4"]
         (Some "http://a.com/1; http://a.com/2; http://a.com/3")
         eq_refl eq_refl (lookup_singleton_eq _ _)))))); reflexivity.
Defined.



(** C6: normalizing the joined output again can change it.  The piece
    "http://x.com/a /" normalizes to a URL that ends in a space, which the
    second pass trims.  Besides, a piece [urlparse] rejects is not dropped:
    the call raises. *)
Lemma normalize_feed_list_second_pass_differs :
  normalize_feed_list accept_all_hosts "http://x.com/a /"
  = Returned ["http://x.com/a "]
  /\ normalize_feed_list accept_all_hosts (join "; " ["http://x.com/a "])
     = Returned ["http://x.com/a"]
  /\ ["http://x.com/a "] <> ["http://x.com/a"]
  /\ normalize_feed_list accept_all_hosts "http://a.com/f; http://[::1"
     = Raised ValueError.
Proof.
  split; [reflexivity|]. split; [reflexivity|]. split; [discriminate|reflexivity].
Qed.

Lemma normalize_feed_list_rules_witness :
  normalize_feed_list accept_all_hosts
    "http://a.com/f; http://a.com/f/; http://b.com/g"
  = Returned ["http://a.com/f"; "http://b.com/g"]
  /\ normalize_feed_list accept_all_hosts
       (join "; " ["http://a.com/f"; "http://b.com/g"])
     = Returned ["http://a.com/f"; "http://b.com/g"].
Proof.
  split; [reflexivity|].
  apply (proj2 (proj2 (proj2
           (proj1 (proj2 (proj2 (normalize_feed_list_rules accept_all_hosts)))
              "http://a.com/f; http://a.com/f/; http://b.com/g"
              ["http://a.com/f"; "http://b.com/g"] eq_refl)))).
  repeat constructor.
Defined.


Lemma hub_route_validates_large_results_witness :
  process_website accept_all_hosts "rss.example.com" plain_finder
    (listing_hub_parser two_records) offline
  = (Returned (result_of_urls accept_all_hosts "https://rss.example.com"
                 (List.map rec_url two_records)),
     [mkRequest "https://rss.example.com" 15])
  /\ process_website accept_all_hosts "rss.example.com" plain_finder
       (listing_hub_parser six_records) offline
     = (Returned (result_of_urls accept_all_hosts "https://rss.example.com"
                    (List.map rec_url (List.filter (feed_validates offline) six_records))),
        [mkRequest "https://rss.example.com" 15]
        ++ List.map (fun feed => mkRequest (rec_url feed) 5) six_records).
Proof.
  split.
  - apply (proj2 (proj1 (hub_route_validates_large_results accept_all_hosts)
             "rss.example.com" plain_finder (listing_hub_parser two_records) offline
             "https://rss.example.com" two_records
             [mkRequest "https://rss.example.com" 15] eq_refl eq_refl eq_refl)).
    cbn. lia.
  - apply (proj1 (proj1 (hub_route_validates_large_results accept_all_hosts)
             "rss.example.com" plain_finder (listing_hub_parser six_records) offline
             "https://rss.example.com" six_records
             [mkRequest "https://rss.example.com" 15] eq_refl eq_refl eq_refl)).
    + cbn. lia.
    + apply validate_feeds_eq.
Defined.

Lemma nested_paths_never_contribute_witness :
  normalize_url accept_all_hosts "example.com/blog/" = Returned "https://example.com"
  /\ _try_nested_paths "https://example.com"
       (mkParse "https" "example.com" "" "" "" "") offline
     = ret [].
Proof.
  split; [reflexivity|].
  destruct (proj2 (nested_paths_never_contribute accept_all_hosts urljoin_absolute
                     (fun _ => []) (fun _ => []))
              "example.com/blog/" "https://example.com" eq_refl)
    as (_ & _ & H & _); [discriminate|].
  exact (proj2 (H (mkParse "https" "example.com" "" "" "" "") offline eq_refl)).
Defined.

Lemma website_of_invalid_input_witness :
  normalize_url accept_all_hosts "" = Returned ""
  /\ process_website accept_all_hosts "" plain_finder plain_hub_parser offline
     = ret (mkResult "" "Not found").
Proof.
  split; [reflexivity|].
  apply (proj1 (proj2 (website_of_invalid_input accept_all_hosts ""
                         plain_finder plain_hub_parser offline "" eq_refl))).
  reflexivity.
Defined.

Lemma hub_check_runs_on_origin_witness :
  exists sch netloc,
    "https://news.example.com" = sch +:+ "://" +:+ netloc
    /\ is_hub_page "https://news.example.com" offline
       = ret (existsb (startswith (lower netloc)) hub_host_prefixes).
Proof.
  apply (proj2 (proj2 (proj2 (proj2 (hub_check_runs_on_origin accept_all_hosts))))
           "news.example.com/rss" "https://news.example.com" offline eq_refl).
  discriminate.
Defined.

(** ** The further properties at concrete inputs *)

Lemma detect_cms_priority_witness :
  detect_cms "<link href=/WP-Content/a.css> Drupal" = Some "wordpress".
Proof.
  apply (proj2 (proj1 (detect_cms_priority "<link href=/WP-Content/a.css> Drupal"))).
  by exists "<link href=/", "WP-", "Content/a.css> Drupal".
Defined.

Lemma _try_common_paths_probes_witness :
  _try_cms_paths "https://example.com" "joomla" offline = ret [].
Proof.
  apply (proj2 (proj2 (proj1 (proj2 (proj2
           (_try_common_paths_probes "https://example.com" offline))) "joomla"))).
  intros H. repeat (apply elem_of_cons in H as [H|H]; [discriminate|]).
  by apply elem_of_nil in H.
Defined.

Lemma _extract_from_anchor_tags_capped_witness :
  fst (_check_feed "http://a.com/rss.xml" every_url_a_feed) = Returned true.
Proof.
  destruct (proj1 (proj2 (_extract_from_anchor_tags_capped urljoin_absolute
                            (fun _ => ["http://a.com/rss.xml"; "http://a.com/about"])
                            "https://a.com" "" every_url_a_feed))
              ["http://a.com/rss.xml"] eq_refl) as (_ & _ & H).
  apply (H "http://a.com/rss.xml"). by left.
Defined.

Lemma find_feeds_sound_witness :
  fst (find_feeds accept_all_hosts urljoin_absolute (fun _ => []) (fun _ => [])
         "https://example.com" wordpress_site)
  = Returned ["https://example.com/feed"]
  /\ exists u, fst (_check_feed u wordpress_site) = Returned true
               /\ normalize_feed_url accept_all_hosts (PyStr u)
                  = Returned (Some "https://example.com/feed").
Proof.
  split; [vm_compute; reflexivity|].
  refine (proj1 (proj2 (find_feeds_sound accept_all_hosts urljoin_absolute
                          (fun _ => []) (fun _ => [])
                          "https://example.com" wordpress_site
                          ["https://example.com/feed"]
                          (snd (find_feeds accept_all_hosts urljoin_absolute
                                  (fun _ => []) (fun _ => [])
                                  "https://example.com" wordpress_site)) _))
            "https://example.com/feed" _).
  - vm_compute; reflexivity.
  - by left.
Defined.

Lemma find_feeds_request_budget_witness :
  length (snd (find_feeds accept_all_hosts urljoin_absolute (fun _ => []) (fun _ => [])
                 "https://example.com" wordpress_site))
  <= 50 + 0.
Proof.
  apply (proj2 (proj2 (proj2 (find_feeds_request_budget accept_all_hosts
                                urljoin_absolute (fun _ => []) (fun _ => [])
                                "https://example.com" wordpress_site)))
           "example.com/blog"
           (mkResponse 200 (Some "text/html") "<link href=/wp-content/a.css>")
           eq_refl).
  - discriminate.
  - reflexivity.
Defined.

Lemma is_rss_feed_answers_witness :
  fst (is_rss_feed "http://a.com/rss.xml" every_url_a_feed) = Returned (Some true)
  /\ fst (_check_feed "http://a.com/rss.xml" every_url_a_feed) = Returned true.
Proof.
  split; [reflexivity|].
  apply (proj1 (proj2 (proj2 (proj2
           (is_rss_feed_answers "http://a.com/rss.xml" every_url_a_feed)))));
    reflexivity.
Defined.

Lemma fetch_html_none_no_feeds_witness :
  fst (fetch_html "https://example.com" offline) = Returned None
  /\ find_feeds accept_all_hosts urljoin_absolute (fun _ => []) (fun _ => [])
       "https://example.com" offline
     = (Returned [], [mkRequest "https://example.com" 10]).
Proof.
  split; [reflexivity|].
  apply (proj2 (proj2 (fetch_html_none_no_feeds accept_all_hosts urljoin_absolute
                         (fun _ => []) (fun _ => []) "https://example.com" offline))).
  reflexivity.
Defined.

Lemma discover_hub_pages_probes_witness :
  normalize_url accept_all_hosts "example.com/news" = Returned "https://example.com"
  /\ length (snd (discover_hub_pages accept_all_hosts "example.com/news" offline)) = 15.
Proof.
  split; [reflexivity|].
  apply (proj1 (proj2 (discover_hub_pages_probes accept_all_hosts
                         "example.com/news" offline))
           "https://example.com").
  reflexivity.
Defined.

Lemma is_feed_url_stricter_than_finder_witness :
  is_feed_url "/News/RSS.xml" = true
  /\ any_in ["rss"; "feed"; "xml"; "atom"] (lower "/News/RSS.xml") = true.
Proof.
  split; [reflexivity|].
  apply (proj1 is_feed_url_stricter_than_finder "/News/RSS.xml"). reflexivity.
Defined.

Lemma extract_title_from_url_shape_witness :
  normalize_feed_url accept_all_hosts (PyStr " example.com/feed.xml ")
  = Returned (Some "https://example.com/feed.xml")
  /\ HubTitles.extract_title_from_url "https://example.com/feed.xml" <> "RSS Feed".
Proof.
  split; [reflexivity|].
  apply (proj1 (proj2 (proj2 (extract_title_from_url_shape accept_all_hosts)))
           " example.com/feed.xml " "https://example.com/feed.xml").
  reflexivity.
Defined.

Lemma parse_feeds_distinct_urls_witness :
  parse_feeds accept_all_hosts urljoin_absolute one_link_page (fun _ => [])
    HubTitles.extract_title_from_url "https://rss.example.com" every_url_a_feed
  = (Returned [mkFeed "General" "A.Com" "http://a.com/feed.xml"],
     [mkRequest "https://rss.example.com" 15])
  /\ NoDup (List.map rec_url [mkFeed "General" "A.Com" "http://a.com/feed.xml"]).
Proof.
  split; [reflexivity|].
  destruct (parse_feeds_distinct_urls accept_all_hosts urljoin_absolute one_link_page
              (fun _ => []) HubTitles.extract_title_from_url
              "https://rss.example.com" every_url_a_feed
              [mkFeed "General" "A.Com" "http://a.com/feed.xml"]
              [mkRequest "https://rss.example.com" 15] eq_refl)
    as (base_url & _ & _ & H & _).
  exact H.
Defined.

Lemma normalize_url_ignores_what_follows_witness :
  normalize_url accept_all_hosts (("https" +:+ "://" +:+ "example.com") +:+ "/")
  = normalize_url accept_all_hosts ("https" +:+ "://" +:+ "example.com")
  /\ normalize_url accept_all_hosts ("example.com" +:+ "/blog?page=2")
     = normalize_url accept_all_hosts "example.com".
Proof.
  split.
  - apply (proj1 (proj2 (proj2 (normalize_url_ignores_what_follows accept_all_hosts)))
             "https" "example.com").
    by right.
  - apply (proj1 (proj2 (normalize_url_ignores_what_follows accept_all_hosts))
             "example.com" "/blog?page=2"); [discriminate|reflexivity|reflexivity].
Defined.

Lemma normalize_feed_url_idempotent_witness :
  normalize_feed_url accept_all_hosts (PyStr "Example.com/feed/?a=1#top")
  = Returned (Some "https://Example.com/feed?a=1")
  /\ normalize_feed_url accept_all_hosts (PyStr "https://Example.com/feed?a=1")
     = Returned (Some "https://Example.com/feed?a=1").
Proof.
  split; [reflexivity|].
  apply (proj1 (normalize_feed_url_idempotent accept_all_hosts)
           "Example.com/feed/?a=1#top"); reflexivity.
Defined.

Lemma save_batch_results_keeps_rows_witness :
  save_batch_results accept_all_hosts three_feeds_stored
    [mkResult "https://b.com" "Not found"]
  = Returned (<["https://b.com" := None]> three_feeds_stored)
  /\ is_Some (<["https://b.com" := None]> three_feeds_stored !! "https://example.com").
Proof.
  assert (H : save_batch_results accept_all_hosts three_feeds_stored
                [mkResult "https://b.com" "Not found"]
              = Returned (<["https://b.com" := None]> three_feeds_stored)).
  { cbn [save_batch_results website rss].
    rewrite (save_website_result_eq accept_all_hosts three_feeds_stored
               "https://b.com" "Not found" "https://b.com" [] eq_refl eq_refl).
    unfold three_feeds_stored. by rewrite lookup_singleton_ne. }
  split; [exact H|].
  apply (proj1 (save_batch_results_keeps_rows accept_all_hosts three_feeds_stored
                  [mkResult "https://b.com" "Not found"] _ H)).
  unfold three_feeds_stored. by rewrite lookup_singleton_eq.
Defined.

Lemma save_website_result_idempotent_witness :
  save_website_result accept_all_hosts three_feeds_stored "b.com/"
    "http://b.com/x; http://b.com/y"
  = Returned (<["https://b.com" := Some "http://b.com/x; http://b.com/y"]>
                three_feeds_stored)
  /\ save_website_result accept_all_hosts
       (<["https://b.com" := Some "http://b.com/x; http://b.com/y"]>
          three_feeds_stored)
       "b.com/" "http://b.com/x; http://b.com/y"
     = Returned (<["https://b.com" := Some "http://b.com/x; http://b.com/y"]>
                   three_feeds_stored).
Proof.
  assert (H : save_website_result accept_all_hosts three_feeds_stored "b.com/"
                "http://b.com/x; http://b.com/y"
              = Returned (<["https://b.com" := Some "http://b.com/x; http://b.com/y"]>
                            three_feeds_stored)).
  { rewrite (save_website_result_eq accept_all_hosts three_feeds_stored
               "b.com/" "http://b.com/x; http://b.com/y" "https://b.com"
               ["http://b.com/x"; "http://b.com/y"] eq_refl eq_refl).
    unfold three_feeds_stored. by rewrite lookup_singleton_ne. }
  split; [exact H|].
  exact (proj1 (save_website_result_idempotent accept_all_hosts) _ _ _ _ H).
Defined.


Lemma print_summary_counts_witness :
  with_feeds (print_summary
                [mkResult "https://a.com" "http://a.com/f; http://a.com/g";
                 mkResult "https://b.com" "Not found"])
  = 1.
Proof.
  refine (proj1 (proj1 (proj2 (proj2 (print_summary_counts accept_all_hosts)))
                   [mkResult "https://a.com" "http://a.com/f; http://a.com/g";
                    mkResult "https://b.com" "Not found"]
                   [["http://a.com/f"; "http://a.com/g"]; []] _)).
  repeat constructor; by eexists.
Defined.

Lemma read_websites_gives_clean_sites_witness :
  read_websites true (Returned two_rows) = ["example.com"].
Proof.
  rewrite (proj1 (proj2 (read_websites_gives_clean_sites accept_all_hosts true
                           (Returned two_rows))) two_rows eq_refl).
  - reflexivity.
  - unfold two_rows.
    constructor; [intros H; vm_compute in H; discriminate H|].
    constructor; [intros H; vm_compute in H; discriminate H|]. constructor.
Defined.

Lemma limiter_checks_every_feed_witness :
  rtc limiter_step (validate_start two_records)
    (mkLimiter (List.tl two_records) [List.hd (mkFeed "" "" "") two_records] [] 9)
  /\ List.tl two_records ++ [List.hd (mkFeed "" "" "") two_records] ++ []
     ≡ₚ two_records.
Proof.
  assert (H : rtc limiter_step (validate_start two_records)
                (mkLimiter (List.tl two_records)
                   [List.hd (mkFeed "" "" "") two_records] [] 9)).
  { apply rtc_once.
    exact (step_acquire [] (List.hd (mkFeed "" "" "") two_records)
             (List.tl two_records) [] [] 9). }
  split; [exact H|].
  exact (proj1 (limiter_checks_every_feed two_records _ H)).
Defined.

Lemma site_result_lists_what_was_found_witness :
  fst (process_website accept_all_hosts "example.com/blog"
         (FeedFinder accept_all_hosts urljoin_absolute (fun _ => []) (fun _ => []))
         plain_hub_parser wordpress_site)
  = Returned (mkResult "https://example.com" "https://example.com/feed").
Proof.
  rewrite (proj1 (site_result_lists_what_was_found accept_all_hosts urljoin_absolute
                    (fun _ => []) (fun _ => []) (fun _ => []) (fun _ => [])
                    (fun _ => "RSS Feed")
                    "example.com/blog" "https://example.com" wordpress_site
                    eq_refl ltac:(discriminate))
             eq_refl plain_hub_parser ["https://example.com/feed"]
             (snd (find_feeds accept_all_hosts urljoin_absolute (fun _ => [])
                     (fun _ => []) "https://example.com" wordpress_site))).
  - reflexivity.
  - vm_compute; reflexivity.
  - repeat constructor.
Defined.


Lemma display_feeds_one_heading_per_category_witness :
  length (snd (display_feeds two_records)) = 1 + 1 + 2 * 2.
Proof.
  destruct (proj1 (proj2 (display_feeds_one_heading_per_category two_records)))
    as (_ & _ & H & _); [discriminate|].
  exact H.
Defined.

